(** * The createAffiliate Lambda function

    A shallow embedding of
    [amplify/backend/function/createAffiliate/src/index.js]: the request
    handler that forwards affiliate sign-up data to the Tapfiliate REST API,
    and the properties of it that the specification states.

    Conventions of the embedding.
    - A JavaScript string is a [string] whose characters are UTF-16 code
      units below 256; [trim] and [toLowerCase] are exact on that range.
      [toUpperCase] is exact except for the three code units (181, 223,
      255) whose upper case lies outside the range; they are left as they
      are.
    - A JSON number is an integer [Z] of magnitude below 10^21, where
      [String(n)] is the plain decimal numeral.
    - A JSON object is the association list of its own properties, in
      the order of the text; the order in which JavaScript enumerates
      integer-like keys is not modelled.  A value that may be [undefined]
      is an [option json].  Names inherited from [Object.prototype] and
      the special key [__proto__] are not modelled: every table lookup sees
      own properties only.
    - [fetch] is given by the vendor's answer: a response, of which the
      handler reads the status, the content type and the body, or a
      rejection.  Reading the body as text does not fail.
    - [JSON.parse] and [JSON.stringify] are not modelled as text
      transformers: an inbound body is given by what [JSON.parse] makes of
      it, an outbound body by the value handed to [JSON.stringify].
    - [console.log] is omitted, except where a template literal inside the
      call can throw. *)

From Stdlib Require Import ZArith Ascii String List DecimalString.
From stdpp Require Import base option gmap strings list fin_maps.

Local Open Scope string_scope.
Local Open Scope Z_scope.

(** ** Strings *)

Module JsString.

Definition code (c : ascii) : N := N_of_ascii c.

(** White space and line terminators of ECMAScript below 256. *)
Definition is_white (c : ascii) : bool :=
  let n := code c in
  ((9 <=? n) && (n <=? 13) || (n =? 32) || (n =? 160))%N.

Fixpoint trimStart (s : string) : string :=
  match s with
  | EmptyString => EmptyString
  | String c r => if is_white c then trimStart r else s
  end.

Fixpoint trimEnd (s : string) : string :=
  match s with
  | EmptyString => EmptyString
  | String c r =>
      match trimEnd r with
      | EmptyString => if is_white c then EmptyString else String c EmptyString
      | r' => String c r'
      end
  end.

Definition trim (s : string) : string := trimEnd (trimStart s).

Definition lower (c : ascii) : ascii :=
  let n := code c in
  if ((65 <=? n) && (n <=? 90)
      || (192 <=? n) && (n <=? 222) && negb (n =? 215))%N
  then ascii_of_N (n + 32) else c.

Definition upper (c : ascii) : ascii :=
  let n := code c in
  if ((97 <=? n) && (n <=? 122)
      || (224 <=? n) && (n <=? 254) && negb (n =? 247))%N
  then ascii_of_N (n - 32) else c.

Fixpoint map_string (f : ascii -> ascii) (s : string) : string :=
  match s with
  | EmptyString => EmptyString
  | String c r => String (f c) (map_string f r)
  end.

Definition toLowerCase : string -> string := map_string lower.
Definition toUpperCase : string -> string := map_string upper.

(** [s.includes(sub)] *)
Fixpoint includes (sub s : string) : bool :=
  String.prefix sub s ||
  match s with
  | EmptyString => false
  | String _ r => includes sub r
  end.

Definition is_digit (c : ascii) : bool :=
  let n := code c in ((48 <=? n) && (n <=? 57))%N.

Fixpoint all_digits (s : string) : bool :=
  match s with
  | EmptyString => true
  | String c r => is_digit c && all_digits r
  end.

(** The regular expression [/^[0-9]+$/]. *)
Definition digits_only (s : string) : bool :=
  match s with
  | EmptyString => false
  | _ => all_digits s
  end.

(** [Array.prototype.join] on strings. *)
Fixpoint join (sep : string) (l : list string) : string :=
  match l with
  | [] => ""
  | [x] => x
  | x :: r => x +:+ sep +:+ join sep r
  end.

(** [String(n)] for an integer. *)
Definition of_Z (n : Z) : string := NilZero.string_of_int (Z.to_int n).

End JsString.

Import JsString.

(** ** JSON values *)

#[warnings="-register-all"]
Inductive json : Type :=
| JNull
| JBool (b : bool)
| JNum (n : Z)
| JStr (s : string)
| JArr (l : list json)
| JObj (o : list (string * json)).

(** Own-property lookup of an object given by its association list. *)
Fixpoint assoc {A} (k : string) (o : list (string * A)) : option A :=
  match o with
  | [] => None
  | (k', v) :: r => if String.eqb k k' then Some v else assoc k r
  end.

(** [o[k] = v]: replace in place, otherwise append. *)
Fixpoint obj_set {A} (k : string) (v : A) (o : list (string * A))
  : list (string * A) :=
  match o with
  | [] => [(k, v)]
  | (k', v') :: r =>
      if String.eqb k k' then (k, v) :: r else (k', v') :: obj_set k v r
  end.

Definition keys {A} (o : list (string * A)) : list string := map fst o.

(** [x.k] for a value that is not [null]: of the properties that the
    handler reads by name only [length] exists on a value that is not an
    object, and [length_is_2] below deals with it. *)
Definition prop (x : json) (k : string) : option json :=
  match x with
  | JObj o => assoc k o
  | _ => None
  end.

(** ToBoolean. *)
Definition truthy (x : json) : bool :=
  match x with
  | JNull => false
  | JBool b => b
  | JNum n => negb (n =? 0)
  | JStr s => negb (String.eqb s "")
  | JArr _ | JObj _ => true
  end.

Definition truthy_opt (x : option json) : bool :=
  match x with
  | Some v => truthy v
  | None => false
  end.

(** [a || b] on possibly undefined values. *)
Definition or_else (a b : option json) : option json :=
  if truthy_opt a then a else b.

(** [x === 'lit'] *)
Definition is_str (x : option json) (lit : string) : bool :=
  match x with
  | Some (JStr s) => String.eqb s lit
  | _ => false
  end.

(** [lits.includes(x)] for an array of string literals. *)
Definition includes_lit (lits : list string) (x : option json) : bool :=
  existsb (is_str x) lits.

(** Exceptions are identified by their [message]. *)
Inductive exn : Type := Error (message : string).

Definition message (e : exn) : string := let 'Error m := e in m.

Inductive result (A : Type) : Type :=
| Val (a : A)
| Throw (e : exn).
Arguments Val {A} a.
Arguments Throw {A} e.

Definition cannot_convert : exn :=
  Error "Cannot convert object to primitive value".

(** ToString, as applied by [String(x)], by template literals and by
    computed property keys.  An object converts through
    [Object.prototype.toString] unless it has an own [toString] property,
    which, coming from JSON, is not callable: the conversion then throws.
    An array joins its elements with a comma, [null] elements as the empty
    string. *)
Fixpoint js_String (x : json) : option string :=
  match x with
  | JNull => Some "null"
  | JBool true => Some "true"
  | JBool false => Some "false"
  | JNum n => Some (of_Z n)
  | JStr s => Some s
  | JArr l =>
      option_map (join ",")
        ((fix elems (l : list json) : option (list string) :=
            match l with
            | [] => Some []
            | e :: r =>
                match (match e with JNull => Some "" | _ => js_String e end),
                      elems r with
                | Some a, Some b => Some (a :: b)
                | _, _ => None
                end
            end) l)
  | JObj o =>
      match assoc "toString" o with
      | Some _ => None
      | None => Some "[object Object]"
      end
  end.

Definition to_string (x : json) : result string :=
  match js_String x with
  | Some s => Val s
  | None => Throw cannot_convert
  end.

#[export] Instance result_ret : MRet result := @Val.
#[export] Instance result_bind : MBind result := fun A B f r =>
  match r with
  | Val a => f a
  | Throw e => Throw e
  end.

#[export] Instance result_fmap : FMap result := fun A B f r =>
  match r with
  | Val a => Val (f a)
  | Throw e => Throw e
  end.

(** ** Constants and pure helpers of [index.js] *)

Definition TAPFILIATE_BASE_URL : string := "https://api.tapfiliate.com/1.6/".

Definition PROGRAM_ID_MAP : list (string * string) :=
  [ ("USD", "stasher-affiliates-usd");
    ("EUR", "stasher-affiliate-program-sp");
    ("GBP", "stasher-affiliate-program");
    ("AUD", "jg-affiliate-program") ].

Definition CACHE_DURATION : Z := 0.

Definition not_a_function (what : string) : exn :=
  Error (what +:+ " is not a function").

(** [(label || '').trim().toLowerCase()]: only a string has [trim].
    [label_key] is the function on string literals. *)
Definition label_key (label : string) : string := toLowerCase (trim label).

Definition normalizeFieldLabel (label : option json) : result string :=
  match or_else label (Some (JStr "")) with
  | Some (JStr s) => Val (label_key s)
  | _ => Throw (not_a_function "(label || '').trim")
  end.

Definition countryMap : list (string * string) :=
  [ ("United Kingdom", "GB"); ("UK", "GB"); ("United States", "US");
    ("USA", "US"); ("US", "US"); ("Canada", "CA"); ("Australia", "AU");
    ("Germany", "DE"); ("France", "FR"); ("Spain", "ES"); ("Italy", "IT");
    ("Netherlands", "NL"); ("Belgium", "BE"); ("Switzerland", "CH");
    ("Austria", "AT"); ("Sweden", "SE"); ("Norway", "NO"); ("Denmark", "DK");
    ("Poland", "PL"); ("Portugal", "PT"); ("Ireland", "IE"); ("Greece", "GR");
    ("Finland", "FI"); ("Czech Republic", "CZ"); ("Hungary", "HU");
    ("Romania", "RO"); ("Bulgaria", "BG"); ("Croatia", "HR");
    ("Slovakia", "SK"); ("Slovenia", "SI"); ("Estonia", "EE");
    ("Latvia", "LV"); ("Lithuania", "LT"); ("Luxembourg", "LU");
    ("Malta", "MT"); ("Cyprus", "CY") ].

(** The [for ... of Object.entries(countryMap)] loop. *)
Fixpoint find_country (normalized : string) (entries : list (string * string))
  : option string :=
  match entries with
  | [] => None
  | (key, code) :: r =>
      if String.eqb (toLowerCase key) (toLowerCase normalized)
      then Some code else find_country normalized r
  end.

(** [countryName.length === 2] *)
Definition length_is_2 (countryName : json) : bool :=
  match countryName with
  | JStr s => (String.length s =? 2)%nat
  | JArr l => (length l =? 2)%nat
  | JObj o => match assoc "length" o with Some (JNum 2) => true | _ => false end
  | _ => false
  end.

Definition getCountryISOCode (countryName : option json) : result string :=
  if negb (truthy_opt countryName) then Val "GB" else
  match countryName with
  | Some (JStr s) =>
      if length_is_2 (JStr s) then Val (toUpperCase s) else
      let normalized := trim s in
      match find_country normalized countryMap with
      | Some code => Val code
      | None => Val "GB"
      end
  | Some v =>
      if length_is_2 v
      then Throw (not_a_function "countryName.toUpperCase")
      else Throw (not_a_function "countryName.trim")
  | None => Val "GB"
  end.

Definition validateParentId (rawParentId : option json)
  : result (option string) :=
  match rawParentId with
  | None => Val None
  | Some raw =>
      if negb (truthy raw) then Val None else
      parentId ← match raw with
                 | JStr s => Val (trim s)
                 | _ => trim <$> to_string raw
                 end;
      if String.eqb parentId "" || String.eqb parentId "null" then Val None
      else if negb (digits_only parentId) then Val None
      else Val (Some parentId)
  end.

(** [a || 'lit'] *)
Definition or_lit (a : option json) (lit : string) : json :=
  match a with
  | Some v => if truthy v then v else JStr lit
  | None => JStr lit
  end.

(** The [company_description] rule of [buildTapfiliatePayload], repeated in
    the finalize mode: [None] is [null]. *)
Definition companyDescriptionFor (company_type company_description : option json)
  : option json :=
  if is_str company_type "vacation-rental" then Some (JStr "STR")
  else if truthy_opt company_type
          && includes_lit ["pms"; "venue"; "blog"; "tour-operator";
                           "transportations"; "other"] company_type
  then (if truthy_opt company_description then company_description else None)
  else None.

(** Deleting the keys whose value is [undefined], [null] or [''] . *)
Definition strip (payload : list (string * option json))
  : list (string * json) :=
  omap (fun kv =>
          match kv.2 with
          | None | Some JNull => None
          | Some (JStr s) => if String.eqb s "" then None else Some (kv.1, JStr s)
          | Some v => Some (kv.1, v)
          end) payload.

Definition buildTapfiliatePayload (affiliateData : json)
  : result (list (string * json)) :=
  countryCode ← getCountryISOCode (prop affiliateData "country");
  let address :=
    JObj [ ("address", JStr "n/a");
           ("postal_code", JStr "n/a");
           ("city", or_lit (prop affiliateData "city") "n/a");
           ("country", JObj [("code", JStr countryCode)]) ] in
  let company := JObj [("name", or_lit (prop affiliateData "company") "n/a")] in
  let companyDescription :=
    companyDescriptionFor (prop affiliateData "company_type")
                          (prop affiliateData "company_description") in
  let payload :=
    [ ("firstname", prop affiliateData "first_name");
      ("lastname", prop affiliateData "last_name");
      ("email", prop affiliateData "email");
      ("password", prop affiliateData "password");
      ("address", Some address);
      ("company", Some company) ] in
  let payload :=
    if truthy_opt companyDescription
    then (payload ++ [("company_description", companyDescription)])%list
    else payload in
  Val (strip payload).

(** ** Custom fields

    The three blocks that fill [customFields] occur verbatim in several
    modes of the handler; each is written once here.  A computed key
    [customFields[k] = v] converts [k] with ToString. *)

Definition fieldmap := gmap string json.

Definition companyTypeLabels : list (string * string) :=
  [ ("supply", "I want to store bags (Supply)");
    ("vacation-rental", "Vacation Rental / STR / Airbnb Host");
    ("pms", "PMS"); ("venue", "Venue"); ("blog", "Blog");
    ("tour-operator", "Tour Operator");
    ("transportations", "Transportations"); ("other", "Other") ].

Definition validCommissionTypes : list string :=
  [ "I want 10% commission"; "I want 10% discount code"; "Custom" ].

(** [validCommissionTypes.includes(c) ? c : validCommissionTypes[0]] *)
Definition commissionTypeValue (commission_type : json) : json :=
  if includes_lit validCommissionTypes (Some commission_type)
  then commission_type
  else JStr "I want 10% commission".

Definition set_field (key value : json) (customFields : list (string * json))
  : result (list (string * json)) :=
  k ← to_string key; Val (obj_set k value customFields).

(** Lines 353-370 and 986-1003. *)
Definition addCompanyType (fieldKeyMap : fieldmap) (affiliateData : json)
    (customFields : list (string * json)) : result (list (string * json)) :=
  match prop affiliateData "company_type" with
  | Some company_type =>
      if truthy company_type then
        match fieldKeyMap !! label_key "Company type" with
        | Some companyTypeKey =>
            if truthy companyTypeKey then
              raw ← to_string company_type;
              let companyTypeValue :=
                match assoc raw companyTypeLabels with
                | Some l => JStr l
                | None => company_type
                end in
              set_field companyTypeKey companyTypeValue customFields
            else Val customFields
        | None => Val customFields
        end
      else Val customFields
  | None => Val customFields
  end.

(** Lines 373-388, 572-587, 828-850 and 1006-1021. *)
Definition addCommissionType (fieldKeyMap : fieldmap)
    (commission_type : option json) (customFields : list (string * json))
  : result (list (string * json)) :=
  match commission_type with
  | Some commission_type =>
      if truthy commission_type then
        match fieldKeyMap !! label_key "Commission type" with
        | Some commissionKey =>
            if truthy commissionKey then
              set_field commissionKey (commissionTypeValue commission_type)
                        customFields
            else Val customFields
        | None => Val customFields
        end
      else Val customFields
  | None => Val customFields
  end.

(** Lines 391-396, 590-595 and 1024-1029. *)
Definition addDemoCall (fieldKeyMap : fieldmap) (affiliateData : json)
    (customFields : list (string * json)) : result (list (string * json)) :=
  match prop affiliateData "wantsDemoCall" with
  | None | Some JNull => Val customFields
  | Some wantsDemoCall =>
      match or_else (fieldKeyMap !! label_key "Free DEMO call?")
                    (fieldKeyMap !! label_key "Do you want a FREE DEMO call?")
      with
      | Some demoCallKey =>
          if truthy demoCallKey then
            set_field demoCallKey
                      (JStr (if truthy wantsDemoCall then "Yes" else "No"))
                      customFields
          else Val customFields
      | None => Val customFields
      end
  end.

(** ** The vendor and the process *)

(** The six outbound calls of the handler. *)
Inductive vendor_call : Type :=
| GetCustomFields
| PostAffiliate (payload : json)
| PatchAffiliate (id : string) (payload : json)
| PutWebsite (id : string) (value : json)
| PostParent (id : string) (via : string)
| PostEnroll (programId : string) (affiliate_id : json).

Definition call_method (c : vendor_call) : string :=
  match c with
  | GetCustomFields => "GET"
  | PostAffiliate _ | PostParent _ _ | PostEnroll _ _ => "POST"
  | PatchAffiliate _ _ => "PATCH"
  | PutWebsite _ _ => "PUT"
  end.

Definition call_url (c : vendor_call) : string :=
  TAPFILIATE_BASE_URL +:+
  match c with
  | GetCustomFields => "affiliates/custom-fields/"
  | PostAffiliate _ => "affiliates/"
  | PatchAffiliate id _ => "affiliates/" +:+ id +:+ "/"
  | PutWebsite id _ => "affiliates/" +:+ id +:+ "/meta-data/website/"
  | PostParent id _ => "affiliates/" +:+ id +:+ "/parent/"
  | PostEnroll programId _ =>
      "programs/" +:+ programId +:+ "/affiliates/?send_welcome_email=false"
  end.

(** The value given to [JSON.stringify] for the request body. *)
Definition call_body (c : vendor_call) : option json :=
  match c with
  | GetCustomFields => None
  | PostAffiliate payload | PatchAffiliate _ payload => Some payload
  | PutWebsite _ value => Some (JObj [("value", value)])
  | PostParent _ via => Some (JObj [("via", JStr via)])
  | PostEnroll _ affiliate_id =>
      Some (JObj [ ("affiliate", JObj [("id", affiliate_id)]);
                   ("approved", JNull) ])
  end.

Definition call_headers (apiKey : string) (c : vendor_call)
  : list (string * string) :=
  match c with
  | GetCustomFields =>
      [("X-Api-Key", apiKey); ("Content-Type", "application/json")]
  | _ => [("Content-Type", "application/json"); ("X-Api-Key", apiKey)]
  end.

(** What [fetch] resolves to: the status, the [content-type] header and
    what [JSON.parse] makes of the body text. *)
Record fetch_response : Type := {
  status : Z;
  content_type : option string;
  parsed : result json
}.

Definition ok (r : fetch_response) : bool :=
  (200 <=? status r) && (status r <=? 299).

(** The module-level variables and the calls issued so far. *)
Record world : Type := {
  customFieldsCache : option fieldmap;
  cacheTimestamp : option Z;
  calls : list vendor_call
}.

Definition add_call (c : vendor_call) (w : world) : world :=
  {| customFieldsCache := customFieldsCache w;
     cacheTimestamp := cacheTimestamp w;
     calls := (calls w ++ [c])%list |}.

Definition set_cache (m : fieldmap) (t : Z) (w : world) : world :=
  {| customFieldsCache := Some m;
     cacheTimestamp := Some t;
     calls := calls w |}.

(** Computations that read and write the [world] and may throw. *)
Definition M (A : Type) : Type := world -> result A * world.

#[export] Instance M_ret : MRet M := fun A a w => (Val a, w).
#[export] Instance M_bind : MBind M := fun A B f m w =>
  match m w with
  | (Val a, w') => f a w'
  | (Throw e, w') => (Throw e, w')
  end.

Definition lift {A} (r : result A) : M A := fun w => (r, w).

(** [try { m } catch (e) { h e }] *)
Definition catch {A} (m : M A) (h : exn -> M A) : M A := fun w =>
  match m w with
  | (Val a, w') => (Val a, w')
  | (Throw e, w') => h e w'
  end.

Definition store_cache (m : fieldmap) (t : Z) : M unit := fun w =>
  (Val tt, set_cache m t w).

Definition best_effort (m : M unit) : M unit := catch m (fun _ => mret tt).

(** ** Requests and responses *)

(** The inbound event: [event_body] is what [JSON.parse(event.body)]
    returns or throws. *)
Record event : Type := {
  httpMethod : string;
  event_body : result json
}.

Inductive body_text : Type :=
| EmptyBody
| JSON_stringify (j : json).

Record response : Type := {
  statusCode : Z;
  headers : list (string * string);
  body : body_text
}.

Definition cors_headers : list (string * string) :=
  [ ("Access-Control-Allow-Origin", "*");
    ("Access-Control-Allow-Headers", "Content-Type");
    ("Access-Control-Allow-Methods", "POST, OPTIONS");
    ("Content-Type", "application/json") ].

Definition respond (code : Z) (fields : list (string * json)) : response :=
  {| statusCode := code;
     headers := cors_headers;
     body := JSON_stringify (JObj fields) |}.

Definition try_again_later : string :=
  "Something went wrong while creating your affiliate account. Please try again later.".

Definition cannot_read_null (name : string) : exn :=
  Error ("Cannot read properties of null (reading '" +:+ name +:+ "')").

(** [contentType && contentType.includes('text/html')] *)
Definition is_html (r : fetch_response) : bool :=
  match content_type r with
  | Some ct => negb (String.eqb ct "") && includes "text/html" ct
  | None => false
  end.

(** [e => e.message || e] *)
Definition error_item (e : json) : result json :=
  match e with
  | JNull => Throw (cannot_read_null "message")
  | _ => Val (if truthy_opt (prop e "message")
              then default e (prop e "message") else e)
  end.

(** One element of [Array.prototype.join]. *)
Definition join_item (x : json) : result string :=
  match x with
  | JNull => Val ""
  | _ => to_string x
  end.

(** Lines 452-463 and 1091-1103: the message drawn from the error body. *)
Definition vendorErrorMessage (errorText : result json) : json :=
  let attempt : result json :=
    errorJson ← errorText;
    match errorJson with
    | JNull => Throw (cannot_read_null "errors")
    | _ =>
        match prop errorJson "errors" with
        | Some (JArr errors) =>
            items ← mapM error_item errors;
            texts ← mapM join_item items;
            Val (JStr (join ", " texts))
        | _ =>
            if truthy_opt (prop errorJson "message")
            then Val (default JNull (prop errorJson "message"))
            else Val (JStr "Failed to create affiliate")
        end
    end in
  match attempt with
  | Val errorMessage => errorMessage
  | Throw _ => JStr try_again_later
  end.

(** Lines 432-473 and 1068-1113. *)
Definition create_failure (r : fetch_response) : response :=
  if is_html r then
    respond 500 [ ("error", JStr try_again_later); ("status", JNum (status r)) ]
  else
    respond (status r)
      [ ("error", vendorErrorMessage (parsed r)); ("status", JNum (status r)) ].

(** Lines 716-743 and 1184-1215. *)
Definition enroll_failure (r : fetch_response) : response :=
  if is_html r then
    respond 500 [ ("error", JStr try_again_later); ("status", JNum (status r)) ]
  else
    respond (if status r =? 0 then 500 else status r)
      [ ("error", JStr "Affiliate created but failed to enroll in program.");
        ("status", JNum (status r)) ].

(** The test of the [filter] callbacks of lines 329-332 and 955-958. *)
Definition missing_field (affiliateData : json) (field : string) : bool :=
  match prop affiliateData field with
  | None | Some JNull => true
  | Some (JStr s) => String.eqb (trim s) ""
  | Some _ => false
  end.

Definition requiredFieldsStageA : list string :=
  ["first_name"; "last_name"; "email"; "password"].

Definition requiredFields : list string :=
  ["first_name"; "last_name"; "email"; "password"; "city"; "country"; "company"].

Definition missing_fields_response (missing : list string) : response :=
  respond 400
    [ ("error", JStr ("Missing required fields: " +:+ join ", " missing)) ].

Definition is_nil {A} (l : list A) : bool :=
  match l with [] => true | _ => false end.

(** [PROGRAM_ID_MAP[program] || program], kept as the text that the
    template literals interpolate; [None] when the value is falsy.  The
    computed key converts [program] with ToString. *)
Definition resolveProgram (program : option json) : result (option string) :=
  key ← match program with
        | None => Val "undefined"
        | Some p => to_string p
        end;
  match assoc key PROGRAM_ID_MAP with
  | Some id => Val (Some id)
  | None => Val (if truthy_opt program then Some key else None)
  end.

(** The body of the [forEach] callback of [getCustomFieldKeys], with the
    interpolation of its log line. *)
Definition add_field (fieldMap : fieldmap) (field : json) : result fieldmap :=
  match field with
  | JNull => Throw (cannot_read_null "title")
  | _ =>
      let keyOrId := or_else (prop field "key") (prop field "id") in
      if truthy_opt (prop field "title") && truthy_opt keyOrId then
        normalizedTitle ← normalizeFieldLabel (prop field "title");
        match keyOrId with
        | Some k => _ ← to_string k; Val (<[normalizedTitle := k]> fieldMap)
        | None => Val fieldMap
        end
      else Val fieldMap
  end.

Fixpoint forEach {A B} (f : A -> B -> result A) (a : A) (l : list B)
  : result A :=
  match l with
  | [] => Val a
  | x :: r => a' ← f a x; forEach f a' r
  end.

Definition build_field_map (fields : json) : result fieldmap :=
  match fields with
  | JArr l => forEach add_field ∅ l
  | _ => Val ∅
  end.

(** The interpolating log loop of lines 823-825. *)
Definition log_field_map (fieldKeyMap : fieldmap) : result unit :=
  if forallb (fun kv => bool_decide (is_Some (js_String kv.2)))
             (map_to_list fieldKeyMap)
  then Val tt else Throw cannot_convert.

(** [{ ...company }] *)
Fixpoint indexed {A} (f : A -> json) (i : Z) (l : list A)
  : list (string * json) :=
  match l with
  | [] => []
  | x :: r => (of_Z i, f x) :: indexed f (i + 1) r
  end.

Definition spread (v : json) : list (string * json) :=
  match v with
  | JObj o => o
  | JArr l => indexed id 0 l
  | JStr s => indexed (fun c => JStr (String c EmptyString)) 0
                      (list_ascii_of_string s)
  | _ => []
  end.

(** Lines 610-632. *)
Definition updatePayloadFor (affiliateData : json)
    (customFields : list (string * json)) : list (string * json) :=
  let companyDescriptionToAdd :=
    companyDescriptionFor (prop affiliateData "company_type")
                          (prop affiliateData "company_description") in
  let updatePayload := [] in
  let updatePayload :=
    match prop affiliateData "address" with
    | Some address =>
        if truthy address then obj_set "address" address updatePayload
        else updatePayload
    | None => updatePayload
    end in
  let updatePayload :=
    if truthy_opt (prop affiliateData "company") then
      let companyToUpdate := spread (default JNull (prop affiliateData "company")) in
      let companyToUpdate :=
        match companyDescriptionToAdd with
        | Some d => obj_set "description" d companyToUpdate
        | None => companyToUpdate
        end in
      obj_set "company" (JObj companyToUpdate) updatePayload
    else
      match companyDescriptionToAdd with
      | Some d =>
          obj_set "company" (JObj [("name", JStr "n/a"); ("description", d)])
                  updatePayload
      | None => updatePayload
      end in
  if is_nil customFields then updatePayload
  else obj_set "custom_fields" (JObj customFields) updatePayload.

(** ** A helper without a caller

    [mapCustomFieldsToKeys] is defined by [index.js] and called nowhere in
    it.  Its second argument is what [getCustomFieldKeys] returns: a field
    map or [null].  An array is an object whose keys are its indices. *)
Definition mapCustomFieldsToKeys (customFieldsObj : option json)
    (fieldKeyMap : option fieldmap) : result (list (string * json)) :=
  match customFieldsObj, fieldKeyMap with
  | Some (JObj _ as obj), Some fieldKeyMap
  | Some (JArr _ as obj), Some fieldKeyMap =>
      forEach
        (fun mappedFields label =>
           normalized ← normalizeFieldLabel (Some (JStr label));
           match fieldKeyMap !! normalized, assoc label (spread obj) with
           | Some apiKey, Some value =>
               if truthy apiKey then set_field apiKey value mappedFields
               else Val mappedFields
           | _, _ => Val mappedFields
           end)
        [] (keys (spread obj))
  | _, _ => Val []
  end.

(** ** The handler *)

Section Handler.

(** The vendor answers a call, knowing the calls made before it, with a
    response or a network failure; [now] is [Date.now()]; the last
    variable is [process.env.TAPFILIATE_API_KEY]. *)
Variable vendor : list vendor_call -> vendor_call -> result fetch_response.
Variable now : Z.
Variable TAPFILIATE_API_KEY : option string.

Definition fetch (c : vendor_call) : M fetch_response := fun w =>
  (vendor (calls w) c, add_call c w).

(** The cache test of line 33. *)
Definition cached (w : world) : option fieldmap :=
  match customFieldsCache w, cacheTimestamp w with
  | Some cache, Some t =>
      if negb (t =? 0) && (now - t <? CACHE_DURATION)
         && truthy_opt (cache !! label_key "Commission type")
      then Some cache else None
  | _, _ => None
  end.

Definition getCustomFieldKeys : M (option fieldmap) := fun w =>
  match cached w with
  | Some cache => (Val (Some cache), w)
  | None =>
      catch
        (response ← fetch GetCustomFields;
         if negb (ok response) then mret None else
         fields ← lift (parsed response);
         fieldMap ← lift (build_field_map fields);
         store_cache fieldMap now;;
         mret (Some fieldMap))
        (fun _ => mret None) w
  end.

(** Lines 492-519, 750-777 and 1222-1249. *)
Definition setParent (id : json) (parentId : string) : M unit :=
  best_effort (i ← lift (to_string id);
               _ ← fetch (PostParent i parentId);
               mret tt).

(** Lines 490-522, 748-780 and 1220-1252. *)
Definition linkParent (affiliateData id : json) : M unit :=
  parentId ← lift (validateParentId (prop affiliateData "parent_id"));
  match parentId with
  | Some p => setParent id p
  | None => mret tt
  end.

(** Lines 661-686 and 1128-1153. *)
Definition setWebsite (affiliateData id : json) : M unit :=
  match prop (default JNull (prop affiliateData "metadata")) "website" with
  | Some website =>
      if truthy website then
        best_effort (i ← lift (to_string id);
                     _ ← fetch (PutWebsite i website);
                     mret tt)
      else mret tt
  | None => mret tt
  end.

(** Lines 634-658. *)
Definition updateAffiliate (id : json) (updatePayload : list (string * json))
  : M unit :=
  if is_nil updatePayload then mret tt
  else best_effort (i ← lift (to_string id);
                    _ ← fetch (PatchAffiliate i (JObj updatePayload));
                    mret tt).

(** Lines 566-596. *)
Definition finalizeCustomFields (fieldKeyMap : option fieldmap)
    (affiliateData : json) : result (list (string * json)) :=
  match fieldKeyMap with
  | Some fieldKeyMap =>
      customFields ← addCommissionType fieldKeyMap
                       (prop affiliateData "commission_type") [];
      addDemoCall fieldKeyMap affiliateData customFields
  | None => Val []
  end.

(** Lines 813-856. *)
Definition updateCustomFields (fieldKeyMap : option fieldmap)
    (affiliateData : json) : result (list (string * json)) :=
  match fieldKeyMap with
  | Some fieldKeyMap =>
      log_field_map fieldKeyMap;;
      addCommissionType fieldKeyMap (prop affiliateData "commission_type") []
  | None => Val []
  end.

(** Lines 347-402 and 980-1035. *)
Definition withCustomFields (fieldKeyMap : option fieldmap)
    (affiliateData : json) (payload : list (string * json))
  : result (list (string * json)) :=
  match fieldKeyMap with
  | Some fieldKeyMap =>
      customFields ← addCompanyType fieldKeyMap affiliateData [];
      customFields ← addCommissionType fieldKeyMap
                       (prop affiliateData "commission_type") customFields;
      customFields ← addDemoCall fieldKeyMap affiliateData customFields;
      Val (if is_nil customFields then payload
           else obj_set "custom_fields" (JObj customFields) payload)
  | None => Val payload
  end.

Definition invalid_response : response :=
  respond 500 [("error", JStr "Invalid response from Tapfiliate API")].

(** [affiliate.id] when [affiliate && affiliate.id] is truthy. *)
Definition created_id (affiliate : json) : option json :=
  match prop affiliate "id" with
  | Some id => if truthy id then Some id else None
  | None => None
  end.

(** Mode A, lines 326-534. *)
Definition create_affiliate_only (affiliateData : json) : M response :=
  let missingStageA :=
    List.filter (missing_field affiliateData) requiredFieldsStageA in
  if negb (is_nil missingStageA)
  then mret (missing_fields_response missingStageA) else
  payload ← lift (buildTapfiliatePayload affiliateData);
  fieldKeyMap ← getCustomFieldKeys;
  tapfiliatePayloadStageA ← lift (withCustomFields fieldKeyMap affiliateData payload);
  createResponseStageA ← fetch (PostAffiliate (JObj tapfiliatePayloadStageA));
  if negb (ok createResponseStageA)
  then mret (create_failure createResponseStageA) else
  affiliateStageA ← lift (parsed createResponseStageA);
  match created_id affiliateStageA with
  | None => mret invalid_response
  | Some id =>
      linkParent affiliateData id;;
      mret (respond 200 [ ("success", JBool true);
                          ("mode", JStr "create_affiliate_only");
                          ("affiliate_id", id) ])
  end.

Definition missing_program_response : response :=
  respond 400 [("error", JStr "Missing or invalid program selection")].

(** Mode B, lines 542-792. *)
Definition finalize_affiliate (affiliateData : json) : M response :=
  match prop affiliateData "affiliate_id" with
  | Some affiliate_id =>
      if negb (truthy affiliate_id) then
        mret (respond 400
          [("error", JStr "Missing affiliate_id for finalize_affiliate mode")])
      else
      mappedProgramIdFinalize ← lift (resolveProgram (prop affiliateData "program"));
      match mappedProgramIdFinalize with
      | None => mret missing_program_response
      | Some programId =>
          fieldKeyMap ← getCustomFieldKeys;
          customFields ← lift (finalizeCustomFields fieldKeyMap affiliateData);
          updateAffiliate affiliate_id
            (updatePayloadFor affiliateData customFields);;
          setWebsite affiliateData affiliate_id;;
          addToProgramResponseFinalize ← fetch (PostEnroll programId affiliate_id);
          if negb (ok addToProgramResponseFinalize)
          then mret (enroll_failure addToProgramResponseFinalize) else
          programResultFinalize ← lift (parsed addToProgramResponseFinalize);
          linkParent affiliateData affiliate_id;;
          mret (respond 200 [ ("success", JBool true);
                              ("mode", JStr "finalize_affiliate");
                              ("affiliate_id", affiliate_id);
                              ("program", programResultFinalize) ])
      end
  | None =>
      mret (respond 400
        [("error", JStr "Missing affiliate_id for finalize_affiliate mode")])
  end.

(** Mode C, lines 800-935. *)
Definition update_custom_fields (affiliateData : json) : M response :=
  match prop affiliateData "affiliate_id" with
  | Some affiliate_id =>
      if negb (truthy affiliate_id) then
        mret (respond 400
          [("error", JStr "Missing affiliate_id for update_custom_fields mode")])
      else
      fieldKeyMap ← getCustomFieldKeys;
      customFields ← lift (updateCustomFields fieldKeyMap affiliateData);
      if is_nil customFields then
        mret (respond 200 [ ("success", JBool true);
                            ("mode", JStr "update_custom_fields");
                            ("affiliate_id", affiliate_id);
                            ("message", JStr "No custom fields to update") ])
      else
      let updatePayload := JObj [("custom_fields", JObj customFields)] in
      i ← lift (to_string affiliate_id);
      catch
        (updateResponse ← fetch (PatchAffiliate i updatePayload);
         if negb (ok updateResponse) then
           mret (respond (status updateResponse)
                   [ ("error", JStr "Failed to update commission type");
                     ("status", JNum (status updateResponse)) ])
         else
           mret (respond 200 [ ("success", JBool true);
                               ("mode", JStr "update_custom_fields");
                               ("affiliate_id", affiliate_id) ]))
        (fun updateError =>
           mret (respond 500
                   [ ("error", JStr "Internal server error while updating custom fields");
                     ("message", JStr (message updateError)) ]))
  | None =>
      mret (respond 400
        [("error", JStr "Missing affiliate_id for update_custom_fields mode")])
  end.

(** The default mode, lines 942-1263. *)
Definition legacy (affiliateData : json) : M response :=
  mappedProgramId ← lift (resolveProgram (prop affiliateData "program"));
  match mappedProgramId with
  | None => mret missing_program_response
  | Some programId =>
      let missing :=
        List.filter (missing_field affiliateData) requiredFields in
      if negb (is_nil missing) then mret (missing_fields_response missing) else
      payload ← lift (buildTapfiliatePayload affiliateData);
      fieldKeyMap ← getCustomFieldKeys;
      tapfiliatePayload ← lift (withCustomFields fieldKeyMap affiliateData payload);
      createResponse ← fetch (PostAffiliate (JObj tapfiliatePayload));
      if negb (ok createResponse) then mret (create_failure createResponse) else
      affiliate ← lift (parsed createResponse);
      match created_id affiliate with
      | None => mret invalid_response
      | Some id =>
          setWebsite affiliateData id;;
          addToProgramResponse ← fetch (PostEnroll programId id);
          if negb (ok addToProgramResponse)
          then mret (enroll_failure addToProgramResponse) else
          programResult ← lift (parsed addToProgramResponse);
          linkParent affiliateData id;;
          mret (respond 200 [ ("success", JBool true);
                              ("affiliate", affiliate);
                              ("program", programResult) ])
      end
  end.

Definition method_not_allowed : response :=
  respond 405 [("error", JStr "Method not allowed")].

Definition preflight : response :=
  {| statusCode := 200; headers := cors_headers; body := EmptyBody |}.

Definition configuration_error : response :=
  respond 500 [("error", JStr "Server configuration error: API key not set.")].

Definition internal_error (error : exn) : response :=
  respond 500 [ ("error", JStr "Internal server error");
                ("message", JStr (message error)) ].

(** Lines 313-1263: the body of the [try] once the key is known to be
    set. *)
Definition dispatch (ev : event) : M response :=
  affiliateData ← lift (event_body ev);
  match affiliateData with
  | JNull => lift (Throw (cannot_read_null "mode"))
  | _ =>
      let mode := or_else (prop affiliateData "mode") (Some JNull) in
      if is_str mode "create_affiliate_only"
      then create_affiliate_only affiliateData
      else if is_str mode "finalize_affiliate"
      then finalize_affiliate affiliateData
      else if is_str mode "update_custom_fields"
      then update_custom_fields affiliateData
      else legacy affiliateData
  end.

Definition handler (ev : event) : M response :=
  if negb (String.eqb (httpMethod ev) "POST") then mret method_not_allowed
  else if String.eqb (httpMethod ev) "OPTIONS" then mret preflight
  else
    catch
      (match TAPFILIATE_API_KEY with
       | Some key =>
           if String.eqb key "" then mret configuration_error
           else dispatch ev
       | None => mret configuration_error
       end)
      (fun error => mret (internal_error error)).

End Handler.

(** * Vocabulary of the properties *)

(** The calls issued between two states of the process. *)
Definition issued (w w' : world) : list vendor_call :=
  drop (length (calls w)) (calls w').

(** A country string is recognized when the table has a key equal to it,
    trimmed, up to case. *)
Definition recognized (s : string) : Prop :=
  exists key code, In (key, code) countryMap
                   /\ toLowerCase key = toLowerCase (trim s).

(** [wp m w Q]: run from the state [w], the computation [m] ends with a
    result and a state that satisfy [Q]. *)
Definition wp {A} (m : M A) (w : world) (Q : result A -> world -> Prop) : Prop :=
  Q (m w).1 (m w).2.

(** The state after a call that may not have been issued. *)
Definition after_call (c : option vendor_call) (w : world) : world :=
  match c with
  | Some c => add_call c w
  | None => w
  end.

(** The call that [setParent] issues. *)
Definition parent_call (id : json) (parentId : string) : option vendor_call :=
  match js_String id with
  | Some i => Some (PostParent i parentId)
  | None => None
  end.

(** The call that [setWebsite] issues. *)
Definition website_call (affiliateData id : json) : option vendor_call :=
  match prop (default JNull (prop affiliateData "metadata")) "website" with
  | Some website =>
      if truthy website then
        match js_String id with
        | Some i => Some (PutWebsite i website)
        | None => None
        end
      else None
  | None => None
  end.

(** Every key stored in a field map has a string form: the log line of
    [getCustomFieldKeys] has interpolated it. *)
Definition fieldmap_ok (m : fieldmap) : Prop :=
  map_Forall (fun _ v => is_Some (js_String v)) m.

(** The same for what [getCustomFieldKeys] returns and for the cache. *)
Definition catalog_ok (fieldKeyMap : option fieldmap) : Prop :=
  from_option fieldmap_ok True fieldKeyMap.

Definition cache_ok (w : world) : Prop := catalog_ok (customFieldsCache w).

(** The four modes of the handler. *)
Inductive mode : Type :=
| CreateAffiliateOnly
| FinalizeAffiliate
| UpdateCustomFields
| Legacy.

(** The mode that [dispatch] selects for a request body. *)
Definition mode_of (affiliateData : json) : mode :=
  let m := or_else (prop affiliateData "mode") (Some JNull) in
  if is_str m "create_affiliate_only" then CreateAffiliateOnly
  else if is_str m "finalize_affiliate" then FinalizeAffiliate
  else if is_str m "update_custom_fields" then UpdateCustomFields
  else Legacy.

(** The part of the handler that runs in a mode. *)
Definition run_mode vendor now (m : mode) : json -> M response :=
  match m with
  | CreateAffiliateOnly => create_affiliate_only vendor now
  | FinalizeAffiliate => finalize_affiliate vendor now
  | UpdateCustomFields => update_custom_fields vendor now
  | Legacy => legacy vendor now
  end.

(** Two computations that do the same from every state. *)
Definition agree {A} (m1 m2 : M A) : Prop := forall w, m1 w = m2 w.

(** The kinds of calls. *)
Definition is_parent (c : vendor_call) : bool :=
  match c with PostParent _ _ => true | _ => false end.

Definition is_website (c : vendor_call) : bool :=
  match c with PutWebsite _ _ => true | _ => false end.

Definition is_patch (c : vendor_call) : bool :=
  match c with PatchAffiliate _ _ => true | _ => false end.

Definition is_create (c : vendor_call) : bool :=
  match c with PostAffiliate _ => true | _ => false end.

Definition is_enroll (c : vendor_call) : bool :=
  match c with PostEnroll _ _ => true | _ => false end.

(** The call that [updateAffiliate] issues. *)
Definition patch_call (id : json) (updatePayload : list (string * json))
  : option vendor_call :=
  if is_nil updatePayload then None
  else match js_String id with
       | Some i => Some (PatchAffiliate i (JObj updatePayload))
       | None => None
       end.

(** The parent-link call of a request, given the affiliate id. *)
Definition link_call (data id : json) : option vendor_call :=
  match validateParentId (prop data "parent_id") with
  | Val (Some p) => parent_call id p
  | _ => None
  end.

(** The catalog that a mode started in state [w] works with. *)
Definition catalog vendor now (w : world) : option fieldmap :=
  match (getCustomFieldKeys vendor now w).1 with
  | Val fieldKeyMap => fieldKeyMap
  | Throw _ => None
  end.

(** Every call that a mode issues, started in state [w] on the request
    body [data], has one of these shapes. *)
Inductive handler_call vendor now (data : json) (w : world)
  : vendor_call -> Prop :=
| call_catalog : handler_call vendor now data w GetCustomFields
| call_create payload0 payload :
    buildTapfiliatePayload data = Val payload0 ->
    withCustomFields (catalog vendor now w) data payload0 = Val payload ->
    handler_call vendor now data w (PostAffiliate (JObj payload))
| call_patch_finalize id i customFields :
    prop data "affiliate_id" = Some id ->
    js_String id = Some i ->
    finalizeCustomFields (catalog vendor now w) data = Val customFields ->
    handler_call vendor now data w
      (PatchAffiliate i (JObj (updatePayloadFor data customFields)))
| call_patch_update id i customFields :
    prop data "affiliate_id" = Some id ->
    js_String id = Some i ->
    updateCustomFields (catalog vendor now w) data = Val customFields ->
    is_nil customFields = false ->
    handler_call vendor now data w
      (PatchAffiliate i (JObj [("custom_fields", JObj customFields)]))
| call_website i website :
    prop (default JNull (prop data "metadata")) "website" = Some website ->
    truthy website = true ->
    handler_call vendor now data w (PutWebsite i website)
| call_enroll programId id :
    resolveProgram (prop data "program") = Val (Some programId) ->
    handler_call vendor now data w (PostEnroll programId id)
| call_parent i p :
    validateParentId (prop data "parent_id") = Val (Some p) ->
    handler_call vendor now data w (PostParent i p).

(** The calls added to the state [w] all have those shapes. *)
Definition only_handler_calls vendor now data (w : world)
  : result response -> world -> Prop :=
  fun _ w' => exists new, calls w' = (calls w ++ new)%list
                          /\ Forall (handler_call vendor now data w) new.

Definition no_parent (l : list vendor_call) : Prop :=
  Forall (fun c => is_parent c = false) l.

(** The affiliate id that a success response reports. *)
Definition reported_id (r : response) : option json :=
  match body r with
  | JSON_stringify b =>
      match prop b "affiliate_id" with
      | Some id => Some id
      | None => prop (default JNull (prop b "affiliate")) "id"
      end
  | EmptyBody => None
  end.

(** Either no parent link was issued, and then the answer is not a 200
    unless the mode is the update mode; or the run ended by a creation or
    enrollment call that the vendor answered with success, followed by the
    parent link of the request, and the answer is a 200. *)
Definition parent_shape vendor (m : mode) (data : json) (w : world)
  : result response -> world -> Prop :=
  fun r w' =>
    (exists new,
        calls w' = (calls w ++ new)%list
        /\ no_parent new
        /\ forall resp, r = Val resp -> statusCode resp = 200 ->
                        m = UpdateCustomFields)
    \/ (exists w2 pre c ans id resp,
           calls w' = ((calls w2 ++ [c]) ++ option_list (link_call data id))%list
           /\ calls w2 = (calls w ++ pre)%list
           /\ no_parent pre
           /\ is_create c || is_enroll c = true
           /\ vendor (calls w2) c = Val ans
           /\ ok ans = true
           /\ r = Val resp
           /\ statusCode resp = 200
           /\ reported_id resp = Some id).

(** The request body that the modes work on. *)
Definition request_data (ev : event) : json :=
  match event_body ev with
  | Val data => data
  | Throw _ => JNull
  end.

Definition creation_keys : list string :=
  [ "firstname"; "lastname"; "email"; "password"; "address"; "company";
    "company_description"; "custom_fields" ].



Definition missing_affiliate_id (m : string) : response :=
  respond 400 [("error", JStr ("Missing affiliate_id for " +:+ m +:+ " mode"))].

(** The label of the commission-type field has no truthy key in the
    catalog, or there is no catalog. *)
Definition commission_unresolved (fieldKeyMap : option fieldmap) : Prop :=
  match fieldKeyMap with
  | Some m => truthy_opt (m !! label_key "Commission type") = false
  | None => True
  end.

Definition nothing_to_update (affiliate_id : json) : response :=
  respond 200 [ ("success", JBool true);
                ("mode", JStr "update_custom_fields");
                ("affiliate_id", affiliate_id);
                ("message", JStr "No custom fields to update") ].

Definition no_enroll (l : list vendor_call) : Prop :=
  Forall (fun c => is_enroll c = false) l.

(** Either the run issued no enrollment call; or it issued one, and then
    a network failure of it is thrown, a non-success answer is turned into
    [enroll_failure] and ends the run, and after a success answer a
    response can only be a 200. *)
Definition enroll_shape vendor (w : world)
  : result response -> world -> Prop :=
  fun r w' =>
    (exists new, calls w' = (calls w ++ new)%list /\ no_enroll new)
    \/ (exists w2 pre c tail,
           calls w' = ((calls w2 ++ [c]) ++ tail)%list
           /\ calls w2 = (calls w ++ pre)%list
           /\ no_enroll pre /\ no_enroll tail
           /\ is_enroll c = true
           /\ match vendor (calls w2) c with
              | Throw e => tail = [] /\ r = Throw e
              | Val ans =>
                  if ok ans
                  then forall resp, r = Val resp -> statusCode resp = 200
                  else tail = [] /\ r = Val (enroll_failure ans)
              end).

Definition finalized (affiliate_id programResult : json) : response :=
  respond 200 [ ("success", JBool true);
                ("mode", JStr "finalize_affiliate");
                ("affiliate_id", affiliate_id);
                ("program", programResult) ].

Definition created_not_enrolled : string :=
  "Affiliate created but failed to enroll in program.".

(** The [custom_fields] object in the body of a call. *)
Definition custom_fields_of (c : vendor_call) : option (list (string * json)) :=
  match call_body c with
  | Some (JObj o) =>
      match assoc "custom_fields" o with
      | Some (JObj customFields) => Some customFields
      | _ => None
      end
  | _ => None
  end.

(** ** Vocabulary of the further properties *)


(** What the clean-up loop of [buildTapfiliatePayload] leaves of a
    value. *)
Definition kept (v : option json) : option json :=
  match v with
  | None | Some JNull => None
  | Some (JStr s) => if String.eqb s "" then None else v
  | Some _ => v
  end.

(** The pair that a catalog entry contributes to the field map. *)
Definition field_entry (field : json) : option (string * json) :=
  match prop field "title", or_else (prop field "key") (prop field "id") with
  | Some (JStr title), Some keyOrId =>
      if negb (String.eqb title "") && truthy keyOrId
      then Some (label_key title, keyOrId) else None
  | _, _ => None
  end.

(** A catalog entry on which the callback of [getCustomFieldKeys]
    throws: [null], or an entry with a key whose title is neither falsy nor
    a string. *)
Definition bad_entry (field : json) : bool :=
  match field with
  | JNull => true
  | _ =>
      truthy_opt (or_else (prop field "key") (prop field "id"))
      && match prop field "title" with
         | Some (JStr _) | None => false
         | Some title => truthy title
         end
  end.

(** A string that does not begin with white space. *)
Definition clean_start (s : string) : Prop :=
  match s with
  | EmptyString => True
  | String c _ => is_white c = false
  end.

(** A value that the clean-up loop of [buildTapfiliatePayload] keeps. *)
Definition is_kept (v : json) : Prop := v <> JNull /\ v <> JStr "".

(** Catalog entries on which the embedding of the assignment to the field
    map is exact: none has a title that normalizes to [__proto__]. *)
Definition plain_titles (fields : list json) : Prop :=
  Forall (fun field => fst <$> field_entry field <> Some "__proto__") fields.

(** The field map after one more catalog entry. *)
Definition with_entry (m : fieldmap) (field : json) : fieldmap :=
  match field_entry field with
  | Some (title, keyOrId) => <[title := keyOrId]> m
  | None => m
  end.

(** An element of the [errors] array of a vendor error body that shows as
    the text [m]: an object with that message, or the text itself. *)
Definition shows_as (e : json) (m : string) : Prop :=
  (prop e "message" = Some (JStr m) /\ m <> "") \/ e = JStr m.

(** The property names that every JavaScript object inherits from
    [Object.prototype]; a table lookup with one of them as key is outside
    the embedding. *)
Definition inherited_names : list string :=
  [ "constructor"; "__defineGetter__"; "__defineSetter__"; "hasOwnProperty";
    "__lookupGetter__"; "__lookupSetter__"; "isPrototypeOf";
    "propertyIsEnumerable"; "toString"; "valueOf"; "__proto__";
    "toLocaleString" ].

(** The field map that an answer to the catalog request yields. *)
Definition fetched_catalog (answer : result fetch_response) : option fieldmap :=
  match answer with
  | Val response =>
      if ok response then
        match parsed response ≫= build_field_map with
        | Val fieldMap => Some fieldMap
        | Throw _ => None
        end
      else None
  | Throw _ => None
  end.

(** The clock has not gone back since the cache was filled. *)
Definition clock_ok (now : Z) (w : world) : Prop :=
  forall t, cacheTimestamp w = Some t -> t <= now.

(** The pair that a label of the object [o] contributes to the result of
    [mapCustomFieldsToKeys]. *)
Definition mapped_entry (m : fieldmap) (o : list (string * json))
    (label : string) : option (string * json) :=
  match m !! label_key label, assoc label o with
  | Some apiKey, Some value =>
      if truthy apiKey
      then (fun k => (k, value)) <$> js_String apiKey
      else None
  | _, _ => None
  end.

(** The result after one more label. *)
Definition with_label (m : fieldmap) (o : list (string * json))
    (mappedFields : list (string * json)) (label : string)
  : list (string * json) :=
  match mapped_entry m o label with
  | Some (k, value) => obj_set k value mappedFields
  | None => mappedFields
  end.

(** Labels and keys on which the embedding of property access is exact:
    no label normalizes to a name that every object inherits, and no key
    has the string form [__proto__], which an assignment treats
    specially. *)
Definition plain_labels (m : fieldmap) (o : list (string * json)) : Prop :=
  (forall label, In label (keys o) -> ~ In (label_key label) inherited_names)
  /\ (forall n apiKey, m !! n = Some apiKey ->
                       js_String apiKey <> Some "__proto__").

(** The three names under which a profile update may carry data. *)
Definition update_keys : list string := ["address"; "company"; "custom_fields"].

(** The form of every response: the four CORS headers, a JSON object as
    body, with [success: true] and no [error] when the status is 200 and
    with an [error] and no [success] otherwise. *)
Definition well_formed (resp : response) : Prop :=
  headers resp = cors_headers
  /\ exists o,
       body resp = JSON_stringify (JObj o)
       /\ if statusCode resp =? 200
          then assoc "success" o = Some (JBool true) /\ assoc "error" o = None
          else assoc "success" o = None /\ is_Some (assoc "error" o).

(** The place of a call in a run: the catalog request, then the creation
    or the profile update, then the website, the enrollment and the parent
    link. *)
Definition call_rank (c : vendor_call) : nat :=
  match c with
  | GetCustomFields => 0
  | PostAffiliate _ | PatchAffiliate _ _ => 1
  | PutWebsite _ _ => 2
  | PostEnroll _ _ => 3
  | PostParent _ _ => 4
  end.

Fixpoint increasing (l : list nat) : bool :=
  match l with
  | a :: r =>
      match r with
      | b :: _ => (a <? b)%nat && increasing r
      | [] => true
      end
  | [] => true
  end.

(** The calls that a mode may issue. *)
Definition allowed_in (m : mode) (c : vendor_call) : bool :=
  match m, c with
  | _, GetCustomFields => true
  | (CreateAffiliateOnly | Legacy), PostAffiliate _ => true
  | (FinalizeAffiliate | UpdateCustomFields), PatchAffiliate _ _ => true
  | (FinalizeAffiliate | Legacy), (PutWebsite _ _ | PostEnroll _ _) => true
  | (CreateAffiliateOnly | FinalizeAffiliate | Legacy), PostParent _ _ => true
  | _, _ => false
  end.

Definition in_order (m : mode) (w : world) : result response -> world -> Prop :=
  fun _ w' =>
    exists new,
      calls w' = (calls w ++ new)%list
      /\ increasing (call_rank <$> new) = true
      /\ forallb (allowed_in m) new = true.

(** A call made for the affiliate [id]. *)
Definition uses_id (id : json) (c : vendor_call) : Prop :=
  match c with
  | PutWebsite i _ | PostParent i _ => js_String id = Some i
  | PostEnroll _ affiliate_id => affiliate_id = id
  | _ => False
  end.

(** What a run makes of the answer to its creation call, and the calls
    [tail] that follow it. *)
Definition creation_result (answer : result fetch_response)
    (r : result response) (tail : list vendor_call) : Prop :=
  match answer with
  | Throw e => tail = [] /\ r = Throw e
  | Val ans =>
      if ok ans then
        match parsed ans with
        | Throw e => tail = [] /\ r = Throw e
        | Val affiliate =>
            match created_id affiliate with
            | Some id => Forall (uses_id id) tail
            | None => tail = [] /\ r = Val invalid_response
            end
        end
      else tail = [] /\ r = Val (create_failure ans)
  end.

Definition no_create (l : list vendor_call) : Prop :=
  Forall (fun c => is_create c = false) l.

(** Either the run issued no creation call, and then at most the catalog
    request; or it issued one, after at most the catalog request. *)
Definition creation_shape vendor (w : world)
  : result response -> world -> Prop :=
  fun r w' =>
    (exists new, calls w' = (calls w ++ new)%list
                 /\ (new = [] \/ new = [GetCustomFields]))
    \/ (exists w2 pre c tail,
           calls w' = ((calls w2 ++ [c]) ++ tail)%list
           /\ calls w2 = (calls w ++ pre)%list
           /\ (pre = [] \/ pre = [GetCustomFields])
           /\ is_create c = true
           /\ no_create tail
           /\ creation_result (vendor (calls w2) c) r tail).

(** The answer of the update_custom_fields mode to the outcome of its
    profile update. *)
Definition update_answer (affiliate_id : json)
    (answer : result fetch_response) : response :=
  match answer with
  | Val updateResponse =>
      if ok updateResponse then
        respond 200 [ ("success", JBool true);
                      ("mode", JStr "update_custom_fields");
                      ("affiliate_id", affiliate_id) ]
      else
        respond (status updateResponse)
          [ ("error", JStr "Failed to update commission type");
            ("status", JNum (status updateResponse)) ]
  | Throw updateError =>
      respond 500
        [ ("error", JStr "Internal server error while updating custom fields");
          ("message", JStr (message updateError)) ]
  end.

(** Either the run issued no profile update; or it ended with one, and
    answers by its outcome. *)
Definition patch_outcome_shape vendor (data : json) (w : world)
  : result response -> world -> Prop :=
  fun r w' =>
    (exists new, calls w' = (calls w ++ new)%list
                 /\ Forall (fun c => is_patch c = false) new)
    \/ (exists w2 pre c affiliate_id,
           calls w' = (calls w2 ++ [c])%list
           /\ calls w2 = (calls w ++ pre)%list
           /\ (pre = [] \/ pre = [GetCustomFields])
           /\ is_patch c = true
           /\ prop data "affiliate_id" = Some affiliate_id
           /\ r = Val (update_answer affiliate_id (vendor (calls w2) c))).

(** The two module-level variables of the cache. *)
Definition cache_of (w : world) : option fieldmap * option Z :=
  (customFieldsCache w, cacheTimestamp w).

(** The cache after a run: as it was, or the catalog of the run, stored
    with the time of the run. *)
Definition cache_step vendor now (w w' : world) : Prop :=
  cache_of w' = cache_of w
  \/ exists fieldMap,
       catalog vendor now w = Some fieldMap
       /\ cache_of w' = (Some fieldMap, Some now).

(** The text sent for the demo-call field. *)
Definition demo_answer (wantsDemoCall : json) : json :=
  JStr (if truthy wantsDemoCall then "Yes" else "No").

(** The key of the demo-call field in a field map. *)
Definition demo_key (m : fieldmap) : option json :=
  or_else (m !! label_key "Free DEMO call?")
          (m !! label_key "Do you want a FREE DEMO call?").

(** A call that is the catalog request or is made for the affiliate
    [id]. *)
Definition concerns (id : json) (c : vendor_call) : Prop :=
  match c with
  | GetCustomFields => True
  | PostAffiliate _ => False
  | PatchAffiliate i _ | PutWebsite i _ | PostParent i _ =>
      js_String id = Some i
  | PostEnroll _ affiliate_id => affiliate_id = id
  end.

(** A vendor that accepts creations, naming an affiliate, and the
    enrollments into [programId]. *)
Definition accepting
    (vendor : list vendor_call -> vendor_call -> result fetch_response)
    (programId : option string) : Prop :=
  forall h payload,
    exists ans affiliate id,
      vendor h (PostAffiliate payload) = Val ans
      /\ ok ans = true
      /\ parsed ans = Val affiliate
      /\ created_id affiliate = Some id
      /\ forall p, programId = Some p ->
           forall h', exists ans' programResult,
             vendor h' (PostEnroll p id) = Val ans'
             /\ ok ans' = true
             /\ parsed ans' = Val programResult.

(** ** Sample vendors and requests *)

Module Sample.

Definition cold : world :=
{| customFieldsCache := None; cacheTimestamp := None; calls := [] |}.

Definition answer (st : Z) (j : json) : result fetch_response :=
Val {| status := st;
       content_type := Some "application/json";
       parsed := Val j |}.

Definition fields : json :=
JArr [ JObj [("title", JStr "Commission type"); ("key", JStr "commission-type")];
       JObj [("title", JStr "Free DEMO call?"); ("id", JNum 12)] ].

(** A vendor that accepts everything. *)
Definition vendor (_ : list vendor_call) (c : vendor_call)
: result fetch_response :=
match c with
| GetCustomFields => answer 200 fields
| PostAffiliate _ => answer 201 (JObj [("id", JStr "aff1")])
| PostEnroll _ _ => answer 200 (JObj [("approved", JNull)])
| _ => answer 200 JNull
end.

(** The same vendor, unreachable for parent links. *)
Definition vendor_without_parent (h : list vendor_call) (c : vendor_call)
: result fetch_response :=
match c with
| PostParent _ _ => Throw (Error "fetch failed")
| _ => vendor h c
end.

(** The same vendor, refusing profile and website updates. *)
Definition vendor_without_updates (h : list vendor_call) (c : vendor_call)
: result fetch_response :=
match c with
| PatchAffiliate _ _ | PutWebsite _ _ => answer 500 JNull
| _ => vendor h c
end.

(** The same vendor, answering enrollment with an HTML error page. *)
Definition html_page : fetch_response :=
{| status := 502;
   content_type := Some "text/html; charset=utf-8";
   parsed := Throw (Error "Unexpected token < in JSON at position 0") |}.

Definition vendor_html_enroll (h : list vendor_call) (c : vendor_call)
: result fetch_response :=
match c with
| PostEnroll _ _ => Val html_page
| _ => vendor h c
end.

Definition post (o : list (string * json)) : event :=
{| httpMethod := "POST"; event_body := Val (JObj o) |}.

Definition create_request (parent_id : json) : event :=
post [ ("mode", JStr "create_affiliate_only");
       ("first_name", JStr "Ada"); ("last_name", JStr "Byron");
       ("email", JStr "ada@example.org"); ("password", JStr "secret");
       ("commission_type", JStr "bogus");
       ("parent_id", parent_id) ].

Definition finalize_request : event :=
post [ ("mode", JStr "finalize_affiliate");
       ("affiliate_id", JStr "aff1"); ("program", JStr "GBP");
       ("company", JObj [("name", JStr "Engines")]);
       ("metadata", JObj [("website", JStr "https://example.org")]) ].

Definition update_request : event :=
post [ ("mode", JStr "update_custom_fields"); ("affiliate_id", JStr "aff1") ].

Definition legacy_request : event :=
post [ ("first_name", JStr "Ada"); ("last_name", JStr "Byron");
       ("password", JStr "secret"); ("city", JStr "London");
       ("country", JStr "United Kingdom"); ("company", JStr "Engines") ].

Definition catalog_map : fieldmap :=
<[ "free demo call?" := JNum 12 ]>
  (<[ "commission type" := JStr "commission-type" ]> ∅).

Definition created_payload : json :=
JObj [ ("firstname", JStr "Ada"); ("lastname", JStr "Byron");
       ("email", JStr "ada@example.org"); ("password", JStr "secret");
       ("address",
        JObj [ ("address", JStr "n/a"); ("postal_code", JStr "n/a");
               ("city", JStr "n/a");
               ("country", JObj [("code", JStr "GB")]) ]);
       ("company", JObj [("name", JStr "n/a")]);
       ("custom_fields",
        JObj [("commission-type", JStr "I want 10% commission")]) ].

End Sample.

(** * Properties *)

(** ** Running the handler *)

Lemma issued_refl w : issued w w = [].
Proof. unfold issued. apply drop_all. Qed.

Lemma issued_app w w' new :
  calls w' = (calls w ++ new)%list -> issued w w' = new.
Proof. unfold issued. intros ->. apply drop_app_length. Qed.

(** The handler always answers: every exception is turned into a
    response. *)
Lemma handler_returns vendor now key ev w :
  exists r, (handler vendor now key ev w).1 = Val r.
Proof.
  unfold handler.
  destruct (negb _); [eexists; reflexivity|].
  destruct (String.eqb _ _); [eexists; reflexivity|].
  match goal with
  | |- context [catch ?m _] =>
      unfold catch; destruct (m w) as [[r|e] w']; eexists; reflexivity
  end.
Qed.

(** ** Method gate *)

(** Any method other than POST gets the method-not-allowed response,
    without a call to the vendor. *)
Lemma handler_not_POST vendor now key ev w :
  httpMethod ev <> "POST" ->
  handler vendor now key ev w = (Val method_not_allowed, w).
Proof.
  intros H. unfold handler.
  apply String.eqb_neq in H. rewrite H. reflexivity.
Qed.

(** C1: a request whose method is OPTIONS does not reach the preflight
    branch: the POST test in front of it answers it with status 405 and the
    body [{"error": "Method not allowed"}], not with 200 and an empty
    body. *)
Theorem handler_OPTIONS_is_405 vendor now key b w :
  handler vendor now key {| httpMethod := "OPTIONS"; event_body := b |} w
  = (Val method_not_allowed, w)
  /\ statusCode method_not_allowed = 405
  /\ method_not_allowed <> preflight.
Proof.
  split; [reflexivity|]. split; [reflexivity|]. discriminate.
Qed.

(** ** Missing credential *)

(** C2: a POST request, whatever its body and so whatever its mode, gets
    the fixed 500 configuration-error response when
    [TAPFILIATE_API_KEY] is absent, and the process state, with its list of
    vendor calls, is left as it was. *)
Theorem missing_key_short_circuits vendor now b w :
  handler vendor now None {| httpMethod := "POST"; event_body := b |} w
  = (Val configuration_error, w)
  /\ statusCode configuration_error = 500
  /\ issued w (handler vendor now None
                 {| httpMethod := "POST"; event_body := b |} w).2 = [].
Proof.
  split; [reflexivity|]. split; [reflexivity|].
  cbn. apply issued_refl.
Qed.

(** An empty key is treated like an absent one. *)
Lemma empty_key_short_circuits vendor now b w :
  handler vendor now (Some "") {| httpMethod := "POST"; event_body := b |} w
  = (Val configuration_error, w).
Proof. reflexivity. Qed.

(** ** Country resolution *)

Lemma find_country_None normalized entries :
  find_country normalized entries = None <->
  forall key code, In (key, code) entries ->
                   toLowerCase key <> toLowerCase normalized.
Proof.
  induction entries as [|[k c] r IH]; cbn.
  - split; [intros _ ? ? []|reflexivity].
  - destruct (String.eqb_spec (toLowerCase k) (toLowerCase normalized)) as [E|E].
    + split; [discriminate|]. intros H. exfalso. apply (H k c); auto.
    + rewrite IH. split.
      * intros H key code [[= <- <-]|Hin]; [exact E|eauto].
      * intros H key code Hin. apply (H key code). auto.
Qed.

Lemma unrecognized_find s :
  ~ recognized s <-> find_country (trim s) countryMap = None.
Proof.
  rewrite find_country_None. unfold recognized. split.
  - intros H key code Hin E. apply H. eauto.
  - intros H (key & code & Hin & E). exact (H key code Hin E).
Qed.

Lemma getCountryISOCode_uk : getCountryISOCode (Some (JStr "uk")) = Val "UK".
Proof. reflexivity. Qed.

(** C5, as stated, fails: a two-character string is returned in upper
    case before the table is consulted, so the unrecognized ["zz"] resolves
    to ["ZZ"], and ["uk"] to ["UK"]. *)
Lemma two_letter_country_not_GB :
  ~ recognized "zz"
  /\ getCountryISOCode (Some (JStr "zz")) = Val "ZZ"
  /\ getCountryISOCode (Some (JStr "uk")) = Val "UK"
  /\ ~ (forall s, (s = "uk" \/ s = "United Kingdom" \/ s = "gb" \/ ~ recognized s) ->
                  getCountryISOCode (Some (JStr s)) = Val "GB").
Proof.
  assert (U : ~ recognized "zz") by (apply unrecognized_find; reflexivity).
  split; [exact U|]. split; [reflexivity|]. split; [reflexivity|].
  intros H. specialize (H "zz"). discriminate H. auto.
Qed.

(** C5, amended: ["United Kingdom"] and ["gb"] resolve to ["GB"], and so
    does every unrecognized country string that is not two characters
    long. *)
Theorem country_resolution (s : string) :
  (s = "United Kingdom" \/ s = "gb"
   \/ (String.length s <> 2%nat /\ ~ recognized s)) ->
  getCountryISOCode (Some (JStr s)) = Val "GB".
Proof.
  intros [->|[->|[Hlen Hun]]]; [reflexivity|reflexivity|].
  unfold getCountryISOCode. cbn [truthy_opt truthy negb length_is_2].
  destruct (String.eqb s "") eqn:E; [reflexivity|]. cbn [negb].
  apply Nat.eqb_neq in Hlen. rewrite Hlen.
  apply unrecognized_find in Hun. rewrite Hun. reflexivity.
Qed.

Lemma country_resolution_witness :
  getCountryISOCode (Some (JStr "United Kingdom")) = Val "GB"
  /\ getCountryISOCode (Some (JStr "gb")) = Val "GB"
  /\ getCountryISOCode (Some (JStr "Atlantis")) = Val "GB".
Proof.
  split; [apply (country_resolution "United Kingdom"); auto|].
  split; [apply (country_resolution "gb"); auto|].
  apply (country_resolution "Atlantis"). right. right.
  split; [cbn; lia|]. apply unrecognized_find. reflexivity.
Defined.

(** ** A weakest-precondition calculus for [M] *)

Lemma wp_run {A} (m : M A) w Q : wp m w Q -> forall r w', m w = (r, w') -> Q r w'.
Proof. unfold wp. intros H r w' E. rewrite E in H. exact H. Qed.

Lemma wp_mono {A} (m : M A) w (Q Q' : result A -> world -> Prop) :
  wp m w Q -> (forall r w', Q r w' -> Q' r w') -> wp m w Q'.
Proof. unfold wp. auto. Qed.

Lemma wp_ret {A} (a : A) w Q : Q (Val a) w -> wp (mret a) w Q.
Proof. exact id. Qed.

Lemma wp_lift {A} (r : result A) w Q : Q r w -> wp (lift r) w Q.
Proof. exact id. Qed.

Lemma wp_bind {A B} (m : M A) (f : A -> M B) w Q :
  wp m w (fun r w' => match r with
                      | Val a => wp (f a) w' Q
                      | Throw e => Q (Throw e) w'
                      end) ->
  wp (m ≫= f) w Q.
Proof.
  unfold wp, mbind, M_bind. destruct (m w) as [[a|e] w']; exact id.
Qed.

Lemma wp_catch {A} (m : M A) (h : exn -> M A) w Q :
  wp m w (fun r w' => match r with
                      | Val a => Q (Val a) w'
                      | Throw e => wp (h e) w' Q
                      end) ->
  wp (catch m h) w Q.
Proof.
  unfold wp, catch. destruct (m w) as [[a|e] w']; exact id.
Qed.

Lemma wp_fetch vendor c w Q :
  Q (vendor (calls w) c) (add_call c w) -> wp (fetch vendor c) w Q.
Proof. exact id. Qed.

Lemma wp_store_cache m t w Q :
  Q (Val tt) (set_cache m t w) -> wp (store_cache m t) w Q.
Proof. exact id. Qed.

(** One step of symbolic execution. *)
Ltac wp_step :=
  lazymatch goal with
  | |- wp (mret _) _ _ => apply wp_ret
  | |- wp (lift _) _ _ => apply wp_lift
  | |- wp (_ ≫= _) _ _ => apply wp_bind
  | |- wp (catch _ _) _ _ => apply wp_catch
  | |- wp (fetch _ _) _ _ => apply wp_fetch
  | |- wp (store_cache _ _) _ _ => apply wp_store_cache
  | |- wp (if ?c then _ else _) _ _ => destruct c eqn:?
  | |- wp (match ?x with _ => _ end) _ _ => destruct x eqn:?
  | |- match ?x with _ => _ end => destruct x eqn:?
  end.

(** Use the specification [H] of the computation in the goal. *)
Ltac wp_use H :=
  eapply wp_mono; [apply H|]; cbv beta.

(** ** Best-effort blocks *)

(** A best-effort call returns normally whatever the vendor answers; it
    leaves one call behind, or none when its URL cannot be built. *)
Lemma best_effort_fetch vendor (i : result string) (c : string -> vendor_call) w :
  best_effort (x ← lift i; _ ← fetch vendor (c x); mret tt) w
  = (Val tt, match i with Val x => add_call (c x) w | Throw _ => w end).
Proof.
  unfold best_effort, catch, mbind, M_bind, lift, fetch, mret, M_ret.
  destruct i as [x|e]; [|reflexivity].
  destruct (vendor (calls w) (c x)); reflexivity.
Qed.

Lemma setParent_eq vendor id p w :
  setParent vendor id p w = (Val tt, after_call (parent_call id p) w).
Proof.
  unfold setParent. rewrite best_effort_fetch.
  unfold parent_call, to_string. destruct (js_String id); reflexivity.
Qed.

Lemma setWebsite_eq vendor affiliateData id w :
  setWebsite vendor affiliateData id w
  = (Val tt, after_call (website_call affiliateData id) w).
Proof.
  unfold setWebsite, website_call.
  destruct (prop _ "website") as [website|]; [|reflexivity].
  destruct (truthy website); [|reflexivity].
  rewrite best_effort_fetch.
  unfold to_string. destruct (js_String id); reflexivity.
Qed.

(** What [linkParent] does, by the outcome of the validation. *)
Lemma linkParent_eq vendor affiliateData id w :
  linkParent vendor affiliateData id w =
  match validateParentId (prop affiliateData "parent_id") with
  | Val (Some p) => (Val tt, after_call (parent_call id p) w)
  | Val None => (Val tt, w)
  | Throw e => (Throw e, w)
  end.
Proof.
  unfold linkParent, mbind, M_bind, lift.
  destruct (validateParentId _) as [[p|]|e]; try reflexivity.
  apply setParent_eq.
Qed.

Lemma calls_add_call c w : calls (add_call c w) = (calls w ++ [c])%list.
Proof. reflexivity. Qed.

Lemma calls_after_call c w :
  calls (after_call c w) = (calls w ++ option_list c)%list.
Proof. destruct c; cbn; [reflexivity|]. symmetry. apply app_nil_r. Qed.

(** ** The field catalog *)

Lemma add_field_ok m field m' :
  fieldmap_ok m -> add_field m field = Val m' -> fieldmap_ok m'.
Proof.
  intros Hm. unfold add_field, mbind, result_bind, to_string.
  destruct field; try discriminate;
    (destruct (truthy_opt _ && truthy_opt _); [|intros [= <-]; exact Hm]);
    (destruct (normalizeFieldLabel _) as [t|]; [|discriminate]);
    (destruct (or_else _ _) as [k|]; [|intros [= <-]; exact Hm]);
    (destruct (js_String k) eqn:E; [|discriminate]);
    intros [= <-]; apply map_Forall_insert_2; rewrite ?E; eauto.
Qed.

Lemma forEach_add_field_ok l : forall m m',
  fieldmap_ok m -> forEach add_field m l = Val m' -> fieldmap_ok m'.
Proof.
  induction l as [|f l IH]; cbn; intros m m' Hm.
  - intros [= <-]. exact Hm.
  - destruct (add_field m f) as [m1|] eqn:E; [|discriminate]. cbn.
    apply IH. eapply add_field_ok; eauto.
Qed.

Lemma build_field_map_ok fields m :
  build_field_map fields = Val m -> fieldmap_ok m.
Proof.
  unfold build_field_map. destruct fields;
    try (intros [= <-]; apply map_Forall_empty).
  apply forEach_add_field_ok, map_Forall_empty.
Qed.

Lemma log_field_map_ok m : fieldmap_ok m -> log_field_map m = Val tt.
Proof.
  intros Hm. unfold log_field_map.
  rewrite (proj2 (forallb_forall _ _)); [reflexivity|].
  intros [k v] Hin. apply bool_decide_eq_true. cbn.
  apply (Hm k v). apply elem_of_map_to_list. apply list_elem_of_In. exact Hin.
Qed.

(** [getCustomFieldKeys] never throws, issues at most the catalog call,
    and keeps the cache well formed. *)
Lemma getCustomFieldKeys_spec vendor now w :
  wp (getCustomFieldKeys vendor now) w
     (fun r w' =>
        exists fieldKeyMap,
          r = Val fieldKeyMap
          /\ (w' = w \/ calls w' = (calls w ++ [GetCustomFields])%list)
          /\ (cache_ok w -> cache_ok w' /\ catalog_ok fieldKeyMap)).
Proof.
  unfold wp, getCustomFieldKeys.
  destruct (cached now w) as [cache|] eqn:Hc.
  - cbn. exists (Some cache). split; [reflexivity|]. split; [auto|].
    intros Hw. split; [exact Hw|].
    unfold cached in Hc. unfold cache_ok in Hw.
    destruct (customFieldsCache w) as [m|]; [|discriminate].
    destruct (cacheTimestamp w); [|discriminate].
    destruct (_ && _); [|discriminate]. injection Hc as <-. exact Hw.
  - unfold catch, mbind, M_bind, fetch, lift, mret, M_ret, store_cache.
    destruct (vendor (calls w) GetCustomFields) as [response|e]; cbn.
    2:{ exists None. split; [reflexivity|]. split; [right; reflexivity|].
        intros Hw. split; [exact Hw|exact I]. }
    destruct (negb (ok response)); cbn.
    { exists None. split; [reflexivity|]. split; [right; reflexivity|].
      intros Hw. split; [exact Hw|exact I]. }
    destruct (parsed response) as [fields|e]; cbn.
    2:{ exists None. split; [reflexivity|]. split; [right; reflexivity|].
        intros Hw. split; [exact Hw|exact I]. }
    destruct (build_field_map fields) as [m|e] eqn:Hb; cbn.
    2:{ exists None. split; [reflexivity|]. split; [right; reflexivity|].
        intros Hw. split; [exact Hw|exact I]. }
    exists (Some m). split; [reflexivity|]. split; [right; reflexivity|].
    intros _. apply build_field_map_ok in Hb. split; exact Hb.
Qed.

(** ** Modes *)

Lemma dispatch_eq vendor now ev affiliateData :
  event_body ev = Val affiliateData ->
  affiliateData <> JNull ->
  dispatch vendor now ev = run_mode vendor now (mode_of affiliateData) affiliateData.
Proof.
  intros E Hn. unfold dispatch, mode_of, run_mode. rewrite E.
  unfold mbind, M_bind, lift.
  destruct affiliateData; try congruence;
    repeat (match goal with |- context [if ?c then _ else _] => destruct c end);
    reflexivity.
Qed.

(** A POST request with the key set and a body that parses to a value
    other than [null] runs the selected mode inside the [try]. *)
Lemma handler_eq vendor now key ev affiliateData :
  httpMethod ev = "POST" ->
  key <> "" ->
  event_body ev = Val affiliateData ->
  affiliateData <> JNull ->
  handler vendor now (Some key) ev
  = catch (run_mode vendor now (mode_of affiliateData) affiliateData)
          (fun error => mret (internal_error error)).
Proof.
  intros Hm Hk E Hn. unfold handler. rewrite Hm. cbn [String.eqb negb].
  change (String.eqb "POST" "POST") with true. cbn [negb].
  change (String.eqb "POST" "OPTIONS") with false. cbv iota.
  apply String.eqb_neq in Hk. rewrite Hk.
  rewrite (dispatch_eq _ _ _ _ E Hn). reflexivity.
Qed.

(** ** Calls whose outcome is ignored *)

Lemma agree_refl {A} (m : M A) : agree m m.
Proof. intros w. reflexivity. Qed.

Lemma agree_bind {A B} (m1 m2 : M A) (f1 f2 : A -> M B) :
  agree m1 m2 -> (forall a, agree (f1 a) (f2 a)) ->
  agree (m1 ≫= f1) (m2 ≫= f2).
Proof.
  intros Hm Hf w. unfold mbind, M_bind. rewrite (Hm w).
  destruct (m2 w) as [[a|e] w']; [apply Hf|reflexivity].
Qed.

Lemma agree_catch {A} (m1 m2 : M A) (h1 h2 : exn -> M A) :
  agree m1 m2 -> (forall e, agree (h1 e) (h2 e)) ->
  agree (catch m1 h1) (catch m2 h2).
Proof.
  intros Hm Hh w. unfold catch. rewrite (Hm w).
  destruct (m2 w) as [[a|e] w']; [reflexivity|apply Hh].
Qed.

Section Irrelevant.

Variables vendor vendor' : list vendor_call -> vendor_call -> result fetch_response.
Variable now : Z.

(** The two vendors answer alike outside a class [skip] of calls. *)
Variable skip : vendor_call -> bool.
Hypothesis same : forall h c, skip c = false -> vendor h c = vendor' h c.

Lemma agree_fetch c :
  skip c = false -> agree (fetch vendor c) (fetch vendor' c).
Proof. intros H w. unfold fetch. rewrite (same _ _ H). reflexivity. Qed.

Lemma agree_setParent id p : agree (setParent vendor id p) (setParent vendor' id p).
Proof. intros w. rewrite !setParent_eq. reflexivity. Qed.

Lemma agree_linkParent data id :
  agree (linkParent vendor data id) (linkParent vendor' data id).
Proof. intros w. rewrite !linkParent_eq. reflexivity. Qed.

Lemma agree_setWebsite data id :
  agree (setWebsite vendor data id) (setWebsite vendor' data id).
Proof. intros w. rewrite !setWebsite_eq. reflexivity. Qed.

Lemma agree_updateAffiliate id payload :
  agree (updateAffiliate vendor id payload) (updateAffiliate vendor' id payload).
Proof.
  intros w. unfold updateAffiliate.
  destruct (is_nil payload); [reflexivity|].
  rewrite !(best_effort_fetch _ _ (fun i => PatchAffiliate i (JObj payload))).
  reflexivity.
Qed.

Hypothesis hard_catalog : skip GetCustomFields = false.
Hypothesis hard_create : forall p, skip (PostAffiliate p) = false.
Hypothesis hard_enroll : forall i a, skip (PostEnroll i a) = false.

Lemma agree_getCustomFieldKeys :
  agree (getCustomFieldKeys vendor now) (getCustomFieldKeys vendor' now).
Proof.
  intros w. unfold getCustomFieldKeys.
  destruct (cached now w); [reflexivity|].
  apply agree_catch; [|intros ?; apply agree_refl].
  apply agree_bind; [|intros ?; apply agree_refl].
  apply agree_fetch, hard_catalog.
Qed.

Ltac agree_step :=
  first
    [ apply agree_refl
    | apply agree_getCustomFieldKeys
    | apply agree_linkParent
    | apply agree_setWebsite
    | apply agree_updateAffiliate
    | apply agree_fetch; solve [auto]
    | apply agree_bind; [|intros ?]
    | apply agree_catch; [|intros ?]
    | match goal with
      | |- agree (if ?c then _ else _) _ => destruct c
      | |- agree (match ?x with _ => _ end) _ => destruct x
      end ].

Lemma agree_create data :
  agree (create_affiliate_only vendor now data)
        (create_affiliate_only vendor' now data).
Proof. unfold create_affiliate_only. repeat agree_step. Qed.

Lemma agree_finalize data :
  agree (finalize_affiliate vendor now data)
        (finalize_affiliate vendor' now data).
Proof. unfold finalize_affiliate. repeat agree_step. Qed.

Lemma agree_legacy data :
  agree (legacy vendor now data) (legacy vendor' now data).
Proof. unfold legacy. repeat agree_step. Qed.

Lemma agree_update data :
  (forall i p, skip (PatchAffiliate i p) = false) ->
  agree (update_custom_fields vendor now data)
        (update_custom_fields vendor' now data).
Proof. intros Hp. unfold update_custom_fields. repeat agree_step. Qed.

Lemma agree_run_mode data :
  (mode_of data = UpdateCustomFields ->
   forall i p, skip (PatchAffiliate i p) = false) ->
  agree (run_mode vendor now (mode_of data) data)
        (run_mode vendor' now (mode_of data) data).
Proof.
  intros Hp. destruct (mode_of data); cbn [run_mode].
  - apply agree_create.
  - apply agree_finalize.
  - apply agree_update. auto.
  - apply agree_legacy.
Qed.

(** The handler does not observe the answers to the skipped calls, as
    long as the catalog, creation and enrollment calls, and in the update
    mode the PATCH call, are not among them. *)
Lemma handler_agree key ev w :
  (forall data, event_body ev = Val data ->
                mode_of data = UpdateCustomFields ->
                forall i p, skip (PatchAffiliate i p) = false) ->
  handler vendor now key ev w = handler vendor' now key ev w.
Proof.
  intros Hp. unfold handler.
  destruct (negb _); [reflexivity|].
  destruct (String.eqb _ "OPTIONS"); [reflexivity|].
  apply agree_catch; [|intros ?; apply agree_refl].
  destruct key as [k|]; [|apply agree_refl].
  destruct (String.eqb k ""); [apply agree_refl|].
  destruct (event_body ev) as [data|e] eqn:E.
  2:{ unfold dispatch. rewrite E. apply agree_refl. }
  assert (N : data = JNull \/ data <> JNull)
    by (destruct data; auto; right; discriminate).
  destruct N as [->|N].
  - unfold dispatch. rewrite E. apply agree_refl.
  - rewrite !(dispatch_eq _ _ _ _ E N). apply agree_run_mode.
    exact (Hp data eq_refl).
Qed.

End Irrelevant.

(** ** Symbolic execution of the modes *)

Lemma updateAffiliate_eq vendor id payload w :
  updateAffiliate vendor id payload w
  = (Val tt, after_call (patch_call id payload) w).
Proof.
  unfold updateAffiliate, patch_call.
  destruct (is_nil payload); [reflexivity|].
  rewrite (best_effort_fetch _ _ (fun i => PatchAffiliate i (JObj payload))).
  unfold to_string. destruct (js_String id); reflexivity.
Qed.

Lemma wp_updateAffiliate vendor id payload w Q :
  Q (Val tt) (after_call (patch_call id payload) w) ->
  wp (updateAffiliate vendor id payload) w Q.
Proof. unfold wp. rewrite updateAffiliate_eq. exact (fun x => x). Qed.

Lemma wp_setWebsite vendor data id w Q :
  Q (Val tt) (after_call (website_call data id) w) ->
  wp (setWebsite vendor data id) w Q.
Proof. unfold wp. rewrite setWebsite_eq. exact (fun x => x). Qed.

Lemma wp_linkParent vendor data id w (Q : result unit -> world -> Prop) :
  (forall v, validateParentId (prop data "parent_id") = Val v ->
             Q (Val tt) (after_call (link_call data id) w)) ->
  (forall e, validateParentId (prop data "parent_id") = Throw e ->
             Q (Throw e) w) ->
  wp (linkParent vendor data id) w Q.
Proof.
  intros HV HT. unfold wp. rewrite linkParent_eq. unfold link_call in HV.
  destruct (validateParentId _) as [[p|]|e] eqn:E.
  - exact (HV _ eq_refl).
  - exact (HV _ eq_refl).
  - exact (HT _ eq_refl).
Qed.

Lemma wp_getCustomFieldKeys vendor now w Q :
  (forall w1 g,
      (getCustomFieldKeys vendor now w).2 = w1 ->
      calls w1 = (calls w ++ g)%list ->
      g = [] \/ g = [GetCustomFields] ->
      (cache_ok w -> cache_ok w1 /\ catalog_ok (catalog vendor now w)) ->
      Q (Val (catalog vendor now w)) w1) ->
  wp (getCustomFieldKeys vendor now) w Q.
Proof.
  intros H. pose proof (getCustomFieldKeys_spec vendor now w) as S.
  unfold wp in *. unfold catalog in H.
  destruct S as (fkm & E & Hc & Hok). rewrite E in *.
  destruct Hc as [Hc|Hc].
  - apply (H _ []); auto. rewrite Hc. symmetry. apply app_nil_r.
  - apply (H _ [GetCustomFields]); auto.
Qed.

Ltac wp_block :=
  lazymatch goal with
  | |- wp (getCustomFieldKeys _ _) _ _ =>
      apply wp_getCustomFieldKeys;
      let w1 := fresh "w1" in let g := fresh "g" in
      let Hw1 := fresh "Hw1" in let Hg := fresh "Hg" in
      let Hgs := fresh "Hgs" in let Hok := fresh "Hok" in
      intros w1 g Hw1 Hg Hgs Hok
  | |- wp (linkParent _ _ _) _ _ =>
      apply wp_linkParent;
      [ let v := fresh "v" in let Hv := fresh "Hv" in intros v Hv
      | let e := fresh "e" in let He := fresh "He" in intros e He ]
  | |- wp (setWebsite _ _ _) _ _ => apply wp_setWebsite
  | |- wp (updateAffiliate _ _ _) _ _ => apply wp_updateAffiliate
  | _ => wp_step
  end.

Ltac wp_run := repeat (wp_block; cbv beta).

Lemma Forall_option_list {A} (P : A -> Prop) (o : option A) :
  (forall a, o = Some a -> P a) -> Forall P (option_list o).
Proof. destruct o; cbn; auto. Qed.

(** Put the list of calls of the state [w'] of a goal in the form
    [calls w ++ ...], given where the catalog step ended. *)
Ltac norm_calls :=
  repeat first [rewrite calls_add_call | rewrite calls_after_call];
  repeat match goal with
         | H : calls _ = (calls _ ++ _)%list |- _ => rewrite H
         end;
  rewrite <- ?app_assoc.

(** ** The calls of a run *)

Lemma Forall_catalog_calls (P : vendor_call -> Prop) g :
  g = [] \/ g = [GetCustomFields] -> P GetCustomFields -> Forall P g.
Proof. intros [->| ->] H; repeat constructor; exact H. Qed.

Ltac option_call H :=
  unfold link_call, parent_call, website_call, patch_call in H;
  repeat match type of H with
         | context [match ?x with _ => _ end] => destruct x eqn:?
         | context [if ?c then _ else _] => destruct c eqn:?
         end;
  try discriminate H; injection H as <-.

Ltac split_calls :=
  repeat first
    [ apply Forall_nil_2
    | apply Forall_app_2
    | apply Forall_cons_2
    | eapply Forall_catalog_calls; [eassumption|]
    | apply Forall_option_list;
      let c := fresh "c" in let H := fresh "H" in intros c H; option_call H ].

Ltac calls_extend :=
  norm_calls;
  lazymatch goal with
  | |- exists new, calls ?w = (calls ?w ++ new)%list /\ _ =>
      exists []; split; [symmetry; apply app_nil_r|]
  | |- _ => eexists; split; [reflexivity|]
  end.

Lemma to_string_Val x s : to_string x = Val s -> js_String x = Some s.
Proof. unfold to_string. destruct (js_String x); congruence. Qed.

Ltac solve_handler_calls :=
  calls_extend; split_calls; econstructor; eauto using to_string_Val.

Lemma create_calls vendor now data w :
  wp (create_affiliate_only vendor now data) w
     (only_handler_calls vendor now data w).
Proof.
  unfold create_affiliate_only, only_handler_calls. wp_run.
  all: solve_handler_calls.
Qed.

Lemma finalize_calls vendor now data w :
  wp (finalize_affiliate vendor now data) w
     (only_handler_calls vendor now data w).
Proof.
  unfold finalize_affiliate, only_handler_calls. wp_run.
  all: solve_handler_calls.
Qed.

Lemma update_calls vendor now data w :
  wp (update_custom_fields vendor now data) w
     (only_handler_calls vendor now data w).
Proof.
  unfold update_custom_fields, only_handler_calls. wp_run.
  all: solve_handler_calls.
Qed.

Lemma legacy_calls vendor now data w :
  wp (legacy vendor now data) w (only_handler_calls vendor now data w).
Proof.
  unfold legacy, only_handler_calls. wp_run.
  all: solve_handler_calls.
Qed.

(** ** Where the parent link sits in a run *)

Lemma create_failure_not_200 r :
  negb (ok r) = true -> statusCode (create_failure r) <> 200.
Proof.
  unfold create_failure, ok. destruct (is_html r); cbn; [lia|].
  intros H E. rewrite E in H. discriminate H.
Qed.

Lemma enroll_failure_not_200 r :
  negb (ok r) = true -> statusCode (enroll_failure r) <> 200.
Proof.
  unfold enroll_failure, ok. destruct (is_html r); cbn; [lia|].
  destruct (status r =? 0) eqn:Z; [lia|].
  intros H E. rewrite E in H. discriminate H.
Qed.

Lemma created_id_Some affiliate id :
  created_id affiliate = Some id ->
  prop affiliate "id" = Some id /\ truthy id = true.
Proof.
  unfold created_id. destruct (prop affiliate "id") as [i|]; [|discriminate].
  destruct (truthy i) eqn:T; [|discriminate]. intros [= <-]. auto.
Qed.

Ltac solve_no_parent :=
  unfold no_parent; split_calls; reflexivity.

Ltac not_200 :=
  let resp := fresh "resp" in
  let E := fresh "E" in
  let Hs := fresh "Hs" in
  intros resp E Hs;
  first
    [ discriminate E
    | reflexivity
    | injection E as <-; exfalso;
      first [ discriminate Hs
            | eapply create_failure_not_200; eassumption
            | eapply enroll_failure_not_200; eassumption ] ].

Ltac shape_leaf :=
  first
    [ left; calls_extend; split; [solve_no_parent|not_200]
    | right; do 6 eexists;
      split; [rewrite calls_after_call, calls_add_call; reflexivity|];
      split; [norm_calls; reflexivity|];
      split; [solve_no_parent|];
      split; [reflexivity|];
      split; [eassumption|];
      split; [match goal with
              | H : negb (ok _) = false |- _ =>
                  apply negb_false_iff in H; exact H
              end|];
      split; [reflexivity|];
      split; [reflexivity|];
      first [ reflexivity
            | cbn; match goal with
                   | H : created_id _ = Some _ |- _ =>
                       apply created_id_Some in H; apply H
                   end ] ].

Lemma create_shape vendor now data w :
  wp (create_affiliate_only vendor now data) w
     (parent_shape vendor CreateAffiliateOnly data w).
Proof.
  unfold create_affiliate_only, parent_shape. wp_run.
  all: shape_leaf.
Qed.

Lemma finalize_shape vendor now data w :
  wp (finalize_affiliate vendor now data) w
     (parent_shape vendor FinalizeAffiliate data w).
Proof.
  unfold finalize_affiliate, parent_shape. wp_run.
  all: shape_leaf.
Qed.

Lemma update_shape vendor now data w :
  wp (update_custom_fields vendor now data) w
     (parent_shape vendor UpdateCustomFields data w).
Proof.
  unfold update_custom_fields, parent_shape. wp_run.
  all: shape_leaf.
Qed.

Lemma legacy_shape vendor now data w :
  wp (legacy vendor now data) w (parent_shape vendor Legacy data w).
Proof.
  unfold legacy, parent_shape. wp_run.
  all: shape_leaf.
Qed.

(** ** From the modes to the handler *)

Lemma run_mode_calls vendor now m data w :
  wp (run_mode vendor now m data) w (only_handler_calls vendor now data w).
Proof.
  destruct m; cbn [run_mode].
  - apply create_calls.
  - apply finalize_calls.
  - apply update_calls.
  - apply legacy_calls.
Qed.

Lemma run_mode_shape vendor now m data w :
  wp (run_mode vendor now m data) w (parent_shape vendor m data w).
Proof.
  destruct m; cbn [run_mode].
  - apply create_shape.
  - apply finalize_shape.
  - apply update_shape.
  - apply legacy_shape.
Qed.

(** A property of the answer and final state of the handler follows from
    the same property of the three early answers and of the selected mode
    run inside the [try]. *)
Lemma handler_wp vendor now key ev w (Q : response -> world -> Prop) :
  Q method_not_allowed w ->
  Q configuration_error w ->
  (forall e, Q (internal_error e) w) ->
  (forall data,
      event_body ev = Val data -> data <> JNull ->
      wp (run_mode vendor now (mode_of data) data) w
         (fun r w' => match r with
                      | Val resp => Q resp w'
                      | Throw e => Q (internal_error e) w'
                      end)) ->
  exists resp w', handler vendor now key ev w = (Val resp, w') /\ Q resp w'.
Proof.
  intros Hm Hc He Hr. unfold handler.
  destruct (String.eqb_spec (httpMethod ev) "POST") as [P|P]; cbn [negb].
  2:{ eexists _, _; split; [reflexivity|exact Hm]. }
  rewrite P. change (String.eqb "POST" "OPTIONS") with false. cbv iota.
  destruct key as [k|].
  2:{ eexists _, _; split; [reflexivity|exact Hc]. }
  destruct (String.eqb k "").
  { eexists _, _; split; [reflexivity|exact Hc]. }
  destruct (event_body ev) as [data|e] eqn:E.
  2:{ unfold catch, dispatch, mbind, M_bind, lift. rewrite E.
      eexists _, _; split; [reflexivity|apply He]. }
  assert (N : data = JNull \/ data <> JNull)
    by (destruct data; auto; right; discriminate).
  destruct N as [->|N].
  { unfold catch, dispatch, mbind, M_bind, lift. rewrite E.
    eexists _, _; split; [reflexivity|apply He]. }
  rewrite (dispatch_eq _ _ _ _ E N).
  specialize (Hr data eq_refl N). unfold wp in Hr. unfold catch.
  destruct (run_mode vendor now (mode_of data) data w) as [[resp|e] w'];
    cbn in Hr; eexists _, _; split; try reflexivity; exact Hr.
Qed.

(** ** Creation payload *)

Lemma keys_strip payload k :
  In k (keys (strip payload)) -> In k (keys payload).
Proof.
  unfold keys, strip. induction payload as [|[k' v] r IH]; cbn; [tauto|].
  destruct v as [[| | |s| |]|]; cbn; try (destruct (String.eqb s "")); cbn;
    tauto.
Qed.

Lemma keys_obj_set {A} k (v : A) o k' :
  In k' (keys (obj_set k v o)) -> k' = k \/ In k' (keys o).
Proof.
  unfold keys. induction o as [|[k0 v0] r IH]; cbn.
  - intros [->|[]]. auto.
  - destruct (String.eqb k k0); cbn.
    + intros [->|H]; auto.
    + intros [->|H]; auto. destruct (IH H); auto.
Qed.

Lemma buildTapfiliatePayload_keys data payload k :
  buildTapfiliatePayload data = Val payload ->
  In k (keys payload) -> In k creation_keys.
Proof.
  unfold buildTapfiliatePayload, mbind, result_bind.
  destruct (getCountryISOCode _); [|discriminate].
  intros [= <-] H. apply keys_strip in H. unfold creation_keys.
  destruct (truthy_opt _); cbn in H; cbn; tauto.
Qed.

Lemma withCustomFields_keys fkm data payload payload' k :
  withCustomFields fkm data payload = Val payload' ->
  In k (keys payload') -> k = "custom_fields" \/ In k (keys payload).
Proof.
  unfold withCustomFields, mbind, result_bind.
  destruct fkm as [m|]; [|intros [= <-]; auto].
  destruct (addCompanyType _ _ _); [|discriminate].
  destruct (addCommissionType _ _ _); [|discriminate].
  destruct (addDemoCall _ _ _) as [cf|]; [|discriminate].
  destruct (is_nil cf); intros [= <-]; auto.
  apply keys_obj_set.
Qed.

(** The keys of every creation payload are among eight fixed names. *)
Lemma creation_payload_keys vendor now data w payload :
  handler_call vendor now data w (PostAffiliate payload) ->
  exists o, payload = JObj o /\ forall k, In k (keys o) -> In k creation_keys.
Proof.
  inversion 1 as [|p0 p Hb Hw| | | | |]; subst.
  exists p. split; [reflexivity|]. intros k Hk.
  destruct (withCustomFields_keys _ _ _ _ _ Hw Hk) as [->|Hk'].
  - unfold creation_keys. cbn. tauto.
  - eapply buildTapfiliatePayload_keys; eauto.
Qed.

Lemma wp_and {A} (m : M A) w (Q1 Q2 : result A -> world -> Prop) :
  wp m w Q1 -> wp m w Q2 -> wp m w (fun r w' => Q1 r w' /\ Q2 r w').
Proof. unfold wp. auto. Qed.

Lemma parent_shape_early vendor m data w resp :
  statusCode resp <> 200 -> parent_shape vendor m data w (Val resp) w.
Proof.
  intros H. left. exists []. split; [symmetry; apply app_nil_r|].
  split; [constructor|]. intros r [= <-] Hs. contradiction.
Qed.

Lemma parent_shape_caught vendor m data w e w' :
  parent_shape vendor m data w (Throw e) w' ->
  parent_shape vendor m data w (Val (internal_error e)) w'.
Proof.
  intros [(new & Hc & Hn & _)|(w2 & pre & c & ans & id & resp & H)].
  - left. exists new. split; [exact Hc|]. split; [exact Hn|].
    intros r [= <-] Hs. discriminate Hs.
  - destruct H as (_ & _ & _ & _ & _ & _ & E & _). discriminate E.
Qed.

Lemma only_handler_calls_early vendor now data w r :
  only_handler_calls vendor now data w r w.
Proof. exists []. split; [symmetry; apply app_nil_r|constructor]. Qed.

(** Every run of the handler answers, issues calls of the known shapes
    only, and places the parent link as [parent_shape] says. *)
Lemma handler_run vendor now key ev w :
  exists resp w',
    handler vendor now key ev w = (Val resp, w')
    /\ only_handler_calls vendor now (request_data ev) w (Val resp) w'
    /\ parent_shape vendor (mode_of (request_data ev)) (request_data ev) w
                    (Val resp) w'.
Proof.
  apply handler_wp.
  - split; [apply only_handler_calls_early|].
    apply parent_shape_early. discriminate.
  - split; [apply only_handler_calls_early|].
    apply parent_shape_early. discriminate.
  - intros e. split; [apply only_handler_calls_early|].
    apply parent_shape_early. discriminate.
  - intros data E N. unfold request_data. rewrite E.
    eapply wp_mono.
    + apply wp_and; [apply run_mode_calls|apply run_mode_shape].
    + intros [resp|e] w' [H1 H2]; split; auto.
      apply parent_shape_caught. exact H2.
Qed.

(** ** The cache invariant *)

Lemma cache_ok_add_call c w : cache_ok (add_call c w) <-> cache_ok w.
Proof. reflexivity. Qed.

Lemma cache_ok_after_call c w : cache_ok (after_call c w) <-> cache_ok w.
Proof. destruct c; reflexivity. Qed.

Ltac cache_leaf :=
  repeat first [ rewrite cache_ok_add_call | rewrite cache_ok_after_call ];
  match goal with
  | H : cache_ok ?w -> cache_ok _ /\ _, H0 : cache_ok ?w |- _ => apply (H H0)
  | H0 : cache_ok ?w |- cache_ok ?w => exact H0
  end.

Lemma run_mode_cache_ok vendor now m data w :
  cache_ok w ->
  wp (run_mode vendor now m data) w (fun _ w' => cache_ok w').
Proof.
  intros Hc. destruct m; cbn [run_mode].
  - unfold create_affiliate_only. wp_run. all: cache_leaf.
  - unfold finalize_affiliate. wp_run. all: cache_leaf.
  - unfold update_custom_fields. wp_run. all: cache_leaf.
  - unfold legacy. wp_run. all: cache_leaf.
Qed.

(** The handler keeps the cache well formed; a process starts with an
    empty cache, so every state it reaches has a well-formed cache. *)
Lemma handler_preserves_cache_ok vendor now key ev w :
  cache_ok w -> cache_ok (handler vendor now key ev w).2.
Proof.
  intros Hc.
  destruct (handler_wp vendor now key ev w (fun _ w' => cache_ok w'))
    as (resp & w' & E & H); auto.
  - intros data _ _. eapply wp_mono; [apply run_mode_cache_ok; exact Hc|].
    intros [r|e] w1 H; exact H.
  - rewrite E. exact H.
Qed.

Lemma not_parent_of_hard c :
  is_create c || is_enroll c = true -> is_parent c = false.
Proof. destruct c; cbn; congruence. Qed.

Lemma no_parent_In l i p : no_parent l -> ~ In (PostParent i p) l.
Proof.
  intros H Hin. unfold no_parent in H. rewrite Forall_forall in H.
  apply list_elem_of_In in Hin. specialize (H _ Hin). discriminate H.
Qed.

(** C4: whatever the request and the vendor, (1) a creation payload has
    its keys among eight fixed names, so never a [parent_id] key; (2) a
    parent-link call only occurs as the last call of the run, right after a
    creation or enrollment call that the vendor answered with success; and
    (3) two vendors that differ only in how they answer parent-link calls
    get the same answer from the handler and leave the same state. *)
Theorem parent_link_is_separate vendor vendor' now key ev w :
  (forall payload,
      In (PostAffiliate payload) (issued w (handler vendor now key ev w).2) ->
      exists o, payload = JObj o
                /\ (forall k, In k (keys o) -> In k creation_keys)
                /\ ~ In "parent_id" (keys o))
  /\ (forall i p,
         In (PostParent i p) (issued w (handler vendor now key ev w).2) ->
         exists pre c ans,
           issued w (handler vendor now key ev w).2
           = (pre ++ [c; PostParent i p])%list
           /\ no_parent pre
           /\ is_create c || is_enroll c = true
           /\ vendor (calls w ++ pre)%list c = Val ans
           /\ ok ans = true)
  /\ ((forall h c, is_parent c = false -> vendor h c = vendor' h c) ->
      handler vendor' now key ev w = handler vendor now key ev w).
Proof.
  destruct (handler_run vendor now key ev w)
    as (resp & w' & E & (new & Hnew & Hcalls) & Hshape).
  rewrite E. cbn [snd]. split; [|split].
  - rewrite (issued_app _ _ _ Hnew). intros payload Hin.
    rewrite Forall_forall in Hcalls.
    apply list_elem_of_In in Hin. specialize (Hcalls _ Hin).
    destruct (creation_payload_keys _ _ _ _ _ Hcalls) as (o & -> & Hk).
    exists o. split; [reflexivity|]. split; [exact Hk|].
    intros Hp. specialize (Hk _ Hp). cbn in Hk.
    repeat (destruct Hk as [Hk|Hk]; [discriminate Hk|]). exact Hk.
  - intros i p Hin.
    destruct Hshape as [(new' & Hc & Hn & _)
                       |(w2 & pre & c & ans & id & r & Hc & Hw2 & Hn & Hh & Hv & Hok & _)].
    + rewrite (issued_app _ _ _ Hc) in Hin.
      exfalso. exact (no_parent_In _ _ _ Hn Hin).
    + rewrite Hw2, <- !app_assoc in Hc.
      rewrite (issued_app _ _ _ Hc) in Hin |- *.
      apply in_app_or in Hin. destruct Hin as [Hin|Hin].
      { exfalso. exact (no_parent_In _ _ _ Hn Hin). }
      cbn in Hin. destruct Hin as [->|Hin].
      { apply not_parent_of_hard in Hh. discriminate Hh. }
      destruct (link_call _ id) as [l|]; cbn in Hin; [|contradiction].
      destruct Hin as [->|[]].
      exists pre, c, ans. cbn. rewrite <- Hw2. auto.
  - intros Hsame. symmetry. rewrite <- E.
    apply (handler_agree vendor vendor' now is_parent); auto.
Qed.

(** ** The request without its [parent_id] *)



Section SameProperties.

Variables vendor : list vendor_call -> vendor_call -> result fetch_response.
Variable now : Z.
Variables data data' : json.

(** The two bodies differ at most in [parent_id], and their parent ids
    validate alike. *)
Hypothesis same_props :
  forall k, k <> "parent_id" -> prop data k = prop data' k.
Hypothesis same_parent :
  validateParentId (prop data "parent_id")
  = validateParentId (prop data' "parent_id").











End SameProperties.


(** ** Validation of the parent id *)





(** What [validateParentId] returns on a string. *)
Lemma validateParentId_string s :
  validateParentId (Some (JStr s))
  = Val (if digits_only (trim s) then Some (trim s) else None).
Proof.
  unfold validateParentId. cbn [truthy].
  destruct (String.eqb_spec s "") as [->|N]; cbn [negb]; [reflexivity|].
  cbn [mbind result_bind].
  destruct (String.eqb_spec (trim s) "") as [->|N1]; cbn [orb]; [reflexivity|].
  destruct (String.eqb_spec (trim s) "null") as [->|N2]; cbn [orb];
    [reflexivity|].
  destruct (digits_only (trim s)); reflexivity.
Qed.





(** A truthy value without a string form is neither accepted nor
    rejected: its conversion throws. *)
Lemma validateParentId_unconvertible raw :
  (forall s, raw <> JStr s) -> truthy raw = true -> js_String raw = None ->
  validateParentId (Some raw) = Throw cannot_convert.
Proof.
  intros Hn Ht Hs. unfold validateParentId, to_string. rewrite Ht, Hs.
  destruct raw; try reflexivity. destruct (Hn s eq_refl).
Qed.

(** ** The parent link at the level of the handler *)

(** A parent-link call carries the validated parent id of the request. *)
Lemma parent_link_valid vendor now key ev w i p :
  In (PostParent i p) (issued w (handler vendor now key ev w).2) ->
  validateParentId (prop (request_data ev) "parent_id") = Val (Some p).
Proof.
  destruct (handler_run vendor now key ev w)
    as (resp & w' & E & (new & Hnew & Hcalls) & _).
  rewrite E. cbn [snd]. rewrite (issued_app _ _ _ Hnew). intros Hin.
  rewrite Forall_forall in Hcalls. apply list_elem_of_In in Hin.
  specialize (Hcalls _ Hin). inversion Hcalls; subst. assumption.
Qed.




(** ** Missing fields *)

Lemma resolveProgram_falsy program :
  truthy_opt program = false -> resolveProgram program = Val None.
Proof.
  destruct program as [[| [] |n|s| |]|]; cbn; try discriminate;
    try reflexivity.
  - intros H. apply negb_false_iff, Z.eqb_eq in H. subst n. reflexivity.
  - intros H. apply negb_false_iff, String.eqb_eq in H. subst s. reflexivity.
Qed.

(** C3, amended: a POST request with the credential set is answered with
    status 400 and without any vendor call in these cases.  In the
    create_affiliate_only mode, and in the default mode once the program
    resolves, when some required field is undefined, null or blank: the
    message is ["Missing required fields: "] followed by exactly the
    missing names, in the order of the list, joined by [", "].  In the
    finalize_affiliate and update_custom_fields modes, when [affiliate_id]
    is falsy: a fixed message naming [affiliate_id] and the mode.  In the
    finalize_affiliate mode with an [affiliate_id], and in the default
    mode, when [program] is falsy: the fixed message ["Missing or invalid
    program selection"]. *)
Theorem missing_fields_rejected vendor now key ev w data :
  httpMethod ev = "POST" ->
  key <> "" ->
  event_body ev = Val data ->
  data <> JNull ->
  let answer r := handler vendor now (Some key) ev w = (Val r, w) in
  let missing required := List.filter (missing_field data) required in
  (forall required f, In f (missing required)
                      <-> In f required /\ missing_field data f = true)
  /\ (forall l, statusCode (missing_fields_response l) = 400
                /\ body (missing_fields_response l)
                   = JSON_stringify
                       (JObj [("error", JStr ("Missing required fields: "
                                              +:+ join ", " l))]))
  /\ match mode_of data with
     | CreateAffiliateOnly =>
         missing requiredFieldsStageA <> [] ->
         answer (missing_fields_response (missing requiredFieldsStageA))
     | FinalizeAffiliate =>
         (truthy_opt (prop data "affiliate_id") = false ->
          answer (missing_affiliate_id "finalize_affiliate"))
         /\ (truthy_opt (prop data "affiliate_id") = true ->
             truthy_opt (prop data "program") = false ->
             answer missing_program_response)
     | UpdateCustomFields =>
         truthy_opt (prop data "affiliate_id") = false ->
         answer (missing_affiliate_id "update_custom_fields")
     | Legacy =>
         (truthy_opt (prop data "program") = false ->
          answer missing_program_response)
         /\ (forall programId,
                resolveProgram (prop data "program") = Val (Some programId) ->
                missing requiredFields <> [] ->
                answer (missing_fields_response (missing requiredFields)))
     end.
Proof.
  intros Hm Hk E N answer missing.
  split; [intros required f; apply filter_In|].
  split; [intros l; split; reflexivity|].
  unfold answer. rewrite (handler_eq _ _ _ _ _ Hm Hk E N).
  destruct (mode_of data); cbn [run_mode]; unfold catch.
  - intros Hmiss. unfold create_affiliate_only.
    fold (missing requiredFieldsStageA).
    destruct (missing requiredFieldsStageA); [congruence|]. reflexivity.
  - unfold finalize_affiliate. split.
    + intros Ha. destruct (prop data "affiliate_id") as [a|]; [|reflexivity].
      cbn in Ha. rewrite Ha. reflexivity.
    + intros Ha Hp. destruct (prop data "affiliate_id") as [a|]; [|discriminate].
      cbn in Ha. rewrite Ha. cbn [negb].
      unfold mbind, M_bind, lift. rewrite (resolveProgram_falsy _ Hp).
      reflexivity.
  - intros Ha. unfold update_custom_fields.
    destruct (prop data "affiliate_id") as [a|]; [|reflexivity].
    cbn in Ha. rewrite Ha. reflexivity.
  - unfold legacy, mbind, M_bind, lift. split.
    + intros Hp. rewrite (resolveProgram_falsy _ Hp). reflexivity.
    + intros programId Hp Hmiss. rewrite Hp.
      fold (missing requiredFields).
      destruct (missing requiredFields); [congruence|]. reflexivity.
Qed.

(** ** Update mode without a commission field *)

Lemma addCommissionType_skip m commission_type customFields :
  truthy_opt commission_type = false
  \/ truthy_opt (m !! label_key "Commission type") = false ->
  addCommissionType m commission_type customFields = Val customFields.
Proof.
  unfold addCommissionType.
  destruct commission_type as [c|]; [|reflexivity].
  destruct (truthy c) eqn:T; [|reflexivity].
  intros [H|H]; [cbn in H; congruence|].
  destruct (m !! label_key "Commission type") as [k|]; [|reflexivity].
  cbn in H. rewrite H. reflexivity.
Qed.

Lemma updateCustomFields_none fieldKeyMap data :
  catalog_ok fieldKeyMap ->
  truthy_opt (prop data "commission_type") = false
  \/ commission_unresolved fieldKeyMap ->
  updateCustomFields fieldKeyMap data = Val [].
Proof.
  intros Hok H. unfold updateCustomFields.
  destruct fieldKeyMap as [m|]; [|reflexivity].
  rewrite (log_field_map_ok m Hok). cbn [mbind result_bind].
  apply addCommissionType_skip. destruct H; auto.
Qed.

(** C8, amended: in the update_custom_fields mode, with an
    [affiliate_id] and a well-formed cache, when no commission_type value
    is supplied or the field catalog of the run does not resolve the
    commission-type label, the handler answers 200 with the message ["No
    custom fields to update"]; the only vendor call it may have issued is
    the catalog request of [getCustomFieldKeys], so no PATCH call. *)
Theorem update_without_commission vendor now key ev w data affiliate_id :
  httpMethod ev = "POST" ->
  key <> "" ->
  event_body ev = Val data ->
  mode_of data = UpdateCustomFields ->
  prop data "affiliate_id" = Some affiliate_id ->
  truthy affiliate_id = true ->
  cache_ok w ->
  truthy_opt (prop data "commission_type") = false
  \/ commission_unresolved (catalog vendor now w) ->
  let run := handler vendor now (Some key) ev w in
  run.1 = Val (nothing_to_update affiliate_id)
  /\ statusCode (nothing_to_update affiliate_id) = 200
  /\ run.2 = (getCustomFieldKeys vendor now w).2
  /\ (issued w run.2 = [] \/ issued w run.2 = [GetCustomFields])
  /\ Forall (fun c => is_patch c = false) (issued w run.2).
Proof.
  intros Hm Hk E Hmode Ha Ht Hc Hno run.
  assert (N : data <> JNull) by (intros ->; discriminate Hmode).
  assert (R : wp (handler vendor now (Some key) ev) w
                 (fun r w' =>
                    r = Val (nothing_to_update affiliate_id)
                    /\ w' = (getCustomFieldKeys vendor now w).2
                    /\ (issued w w' = [] \/ issued w w' = [GetCustomFields]))).
  { rewrite (handler_eq _ _ _ _ _ Hm Hk E N), Hmode. cbn [run_mode].
    apply wp_catch. unfold update_custom_fields. rewrite Ha, Ht. cbn [negb].
    wp_block. wp_block. cbv beta. wp_block. wp_block.
    destruct (Hok Hc) as [_ Hcat].
    rewrite (updateCustomFields_none _ _ Hcat Hno). cbn [is_nil].
    wp_block. split; [reflexivity|]. split; [congruence|].
    rewrite (issued_app _ _ _ Hg). destruct Hgs; subst; auto. }
  unfold wp in R. fold run in R. destruct R as (R1 & R2 & Hi).
  split; [exact R1|]. split; [reflexivity|]. split; [exact R2|].
  split; [exact Hi|].
  destruct Hi as [-> | ->]; repeat constructor.
Qed.

(** ** Enrollment in the finalize mode *)

Ltac solve_no_enroll :=
  unfold no_enroll; split_calls; reflexivity.

Ltac enroll_leaf :=
  first
    [ left; calls_extend; solve_no_enroll
    | right;
      first
        [ eexists _, _, _, _;
          split; [rewrite calls_after_call, calls_add_call; reflexivity|]
        | eexists _, _, _, [];
          split; [rewrite app_nil_r, calls_add_call; reflexivity|] ];
      split; [norm_calls; reflexivity|];
      split; [solve_no_enroll|];
      split; [solve_no_enroll|];
      split; [reflexivity|];
      match goal with
      | H : ?v (calls _) (PostEnroll _ _) = _ |- _ => rewrite H
      end;
      try match goal with
          | H : negb (ok ?a) = _ |- _ => destruct (ok a); try discriminate H
          end;
      first
        [ split; reflexivity
        | let resp := fresh in
          let E := fresh in
          intros resp E; first [discriminate E|injection E as <-; reflexivity] ] ].

Lemma finalize_enroll_shape vendor now data w :
  wp (finalize_affiliate vendor now data) w (enroll_shape vendor w).
Proof.
  unfold finalize_affiliate, enroll_shape. wp_run.
  all: enroll_leaf.
Qed.

Lemma set_field_ok m label key value customFields :
  fieldmap_ok m -> m !! label = Some key ->
  exists k, js_String key = Some k
            /\ set_field key value customFields
               = Val (obj_set k value customFields).
Proof.
  intros Hm Hl. destruct (Hm _ _ Hl) as [k Hk].
  exists k. split; [exact Hk|]. unfold set_field, to_string. rewrite Hk.
  reflexivity.
Qed.

Lemma addCommissionType_ok m commission_type customFields :
  fieldmap_ok m ->
  exists customFields',
    addCommissionType m commission_type customFields = Val customFields'.
Proof.
  intros Hm. unfold addCommissionType.
  destruct commission_type as [c|]; [|eauto].
  destruct (truthy c); [|eauto].
  destruct (m !! label_key "Commission type") as [k|] eqn:E; [|eauto].
  destruct (truthy k); [|eauto].
  destruct (set_field_ok m _ k (commissionTypeValue c) customFields Hm E)
    as (ks & _ & ->). eauto.
Qed.

Lemma addDemoCall_ok m data customFields :
  fieldmap_ok m ->
  exists customFields', addDemoCall m data customFields = Val customFields'.
Proof.
  intros Hm. unfold addDemoCall.
  destruct (prop data "wantsDemoCall") as [d|]; [|eauto].
  assert (K : forall value,
             exists cf,
               match or_else (m !! label_key "Free DEMO call?")
                             (m !! label_key "Do you want a FREE DEMO call?")
               with
               | Some demoCallKey =>
                   if truthy demoCallKey
                   then set_field demoCallKey value customFields
                   else Val customFields
               | None => Val customFields
               end = Val cf).
  { intros value. unfold or_else.
    destruct (truthy_opt (m !! label_key "Free DEMO call?")).
    - destruct (m !! label_key "Free DEMO call?") as [k|] eqn:E; [|eauto].
      destruct (truthy k); [|eauto].
      destruct (set_field_ok m _ k value customFields Hm E) as (ks & _ & ->).
      eauto.
    - destruct (m !! label_key "Do you want a FREE DEMO call?") as [k|] eqn:E;
        [|eauto].
      destruct (truthy k); [|eauto].
      destruct (set_field_ok m _ k value customFields Hm E) as (ks & _ & ->).
      eauto. }
  destruct d; eauto.
Qed.

Lemma finalizeCustomFields_ok fieldKeyMap data :
  catalog_ok fieldKeyMap ->
  exists customFields, finalizeCustomFields fieldKeyMap data = Val customFields.
Proof.
  intros Hok. unfold finalizeCustomFields.
  destruct fieldKeyMap as [m|]; [|eauto].
  destruct (addCommissionType_ok m (prop data "commission_type") [] Hok)
    as (cf & ->).
  cbn [mbind result_bind]. apply addDemoCall_ok. exact Hok.
Qed.

(** With a valid request, the finalize mode succeeds as soon as the
    enrollment call does, whatever the vendor answers to the other calls. *)
Lemma finalize_succeeds vendor now data w affiliate_id programId :
  prop data "affiliate_id" = Some affiliate_id ->
  truthy affiliate_id = true ->
  resolveProgram (prop data "program") = Val (Some programId) ->
  (exists v, validateParentId (prop data "parent_id") = Val v) ->
  cache_ok w ->
  (forall h, exists ans j,
      vendor h (PostEnroll programId affiliate_id) = Val ans
      /\ ok ans = true /\ parsed ans = Val j) ->
  wp (finalize_affiliate vendor now data) w
     (fun r _ => exists programResult,
                   r = Val (finalized affiliate_id programResult)).
Proof.
  intros Ha Ht Hp (v & Hv) Hc Hvendor.
  unfold finalize_affiliate. rewrite Ha, Ht. cbn [negb].
  wp_block. wp_block. rewrite Hp.
  wp_block. wp_block. cbv beta.
  destruct (Hok Hc) as [_ Hcat].
  destruct (finalizeCustomFields_ok _ data Hcat) as (cf & Hcf).
  wp_block. wp_block. rewrite Hcf.
  wp_block. wp_block. cbv beta.
  wp_block. wp_block. cbv beta.
  wp_block. wp_block.
  match goal with
  | |- context [vendor ?h _] => destruct (Hvendor h) as (ans & j & -> & Hk & Hj)
  end.
  rewrite Hk. cbn [negb].
  wp_block. wp_block. rewrite Hj.
  wp_block. wp_block; [|congruence]. cbv beta.
  wp_block. eauto.
Qed.

Lemma no_enroll_In l c : no_enroll l -> is_enroll c = true -> ~ In c l.
Proof.
  intros H Hc Hin. unfold no_enroll in H. rewrite Forall_forall in H.
  apply list_elem_of_In in Hin. specialize (H _ Hin). congruence.
Qed.

(** C7, amended: in the finalize_affiliate mode, (1) when the run issues
    the enrollment call, a network failure of it gives the internal-error
    answer, a non-success answer gives [enroll_failure] as last step of
    the run, and after a success answer the handler answers 200 unless an
    exception is caught; (2) [enroll_failure] has the vendor's status
    (500 for a status 0) and the message "Affiliate created but failed to
    enroll in program." when the content type is not HTML, and status 500
    with the generic retry message when it is HTML, the vendor's status
    being in the body in both cases; (3) two vendors that differ only in
    their answers to the profile PATCH and website PUT calls get the same
    answer and leave the same state; (4) for a valid request in a process
    with a well-formed cache, a vendor that answers the enrollment call
    with success and a JSON body gets the 200 answer, whatever it answers
    to the other calls. *)
Theorem finalize_enrollment vendor vendor' now key ev w data :
  httpMethod ev = "POST" ->
  key <> "" ->
  event_body ev = Val data ->
  mode_of data = FinalizeAffiliate ->
  let run := handler vendor now (Some key) ev w in
  (forall c,
      is_enroll c = true -> In c (issued w run.2) ->
      exists pre tail,
        issued w run.2 = (pre ++ c :: tail)%list
        /\ no_enroll pre /\ no_enroll tail
        /\ match vendor (calls w ++ pre)%list c with
           | Throw e => tail = [] /\ run.1 = Val (internal_error e)
           | Val ans =>
               if ok ans
               then forall resp, run.1 = Val resp ->
                                 statusCode resp = 200
                                 \/ exists e, resp = internal_error e
               else tail = [] /\ run.1 = Val (enroll_failure ans)
           end)
  /\ (forall ans,
         (is_html ans = false ->
          enroll_failure ans
          = respond (if status ans =? 0 then 500 else status ans)
              [ ("error", JStr created_not_enrolled);
                ("status", JNum (status ans)) ])
         /\ (is_html ans = true ->
             enroll_failure ans
             = respond 500 [ ("error", JStr try_again_later);
                             ("status", JNum (status ans)) ]))
  /\ ((forall h c, is_patch c || is_website c = false ->
                   vendor h c = vendor' h c) ->
      handler vendor' now (Some key) ev w = run)
  /\ (forall affiliate_id programId,
         prop data "affiliate_id" = Some affiliate_id ->
         truthy affiliate_id = true ->
         resolveProgram (prop data "program") = Val (Some programId) ->
         (exists v, validateParentId (prop data "parent_id") = Val v) ->
         cache_ok w ->
         (forall h, exists ans j,
             vendor h (PostEnroll programId affiliate_id) = Val ans
             /\ ok ans = true /\ parsed ans = Val j) ->
         exists programResult,
           run.1 = Val (finalized affiliate_id programResult)).
Proof.
  intros Hm Hk E Hmode run.
  assert (N : data <> JNull) by (intros ->; discriminate Hmode).
  assert (R : run = catch (finalize_affiliate vendor now data)
                          (fun error => mret (internal_error error)) w).
  { unfold run. rewrite (handler_eq _ _ _ _ _ Hm Hk E N), Hmode. reflexivity. }
  split; [|split; [|split]].
  - pose proof (finalize_enroll_shape vendor now data w) as S.
    unfold wp in S.
    destruct (finalize_affiliate vendor now data w) as [r w'] eqn:Em.
    assert (Hrun : run = (Val match r with
                              | Val a => a
                              | Throw e => internal_error e
                              end, w'))
      by (rewrite R; unfold catch; rewrite Em; destruct r; reflexivity).
    rewrite Hrun. cbn [fst snd] in *.
    destruct S as [(new & Hc & Hn)
                  |(w2 & pre & c0 & tail & Hc & Hw2 & Hp & Ht & Hc0 & Hv)].
    + intros c Hce Hin. exfalso.
      rewrite (issued_app _ _ _ Hc) in Hin.
      exact (no_enroll_In _ _ Hn Hce Hin).
    + intros c Hce Hin.
      rewrite Hw2, <- !app_assoc in Hc.
      rewrite (issued_app _ _ _ Hc) in Hin |- *.
      assert (c = c0) as ->.
      { apply in_app_or in Hin. destruct Hin as [Hin|[Hin|Hin]]; auto.
        - destruct (no_enroll_In _ _ Hp Hce Hin).
        - destruct (no_enroll_In _ _ Ht Hce Hin). }
      exists pre, tail. split; [reflexivity|]. split; [exact Hp|].
      split; [exact Ht|]. rewrite <- Hw2.
      destruct (vendor (calls w2) c0) as [ans|e].
      * destruct (ok ans).
        -- intros resp. destruct r as [a|e]; intros [= <-]; eauto.
        -- destruct Hv as [-> ->]. auto.
      * destruct Hv as [-> ->]. auto.
  - intros ans. unfold enroll_failure, created_not_enrolled.
    split; intros ->; reflexivity.
  - intros Hsame. unfold run. symmetry.
    apply (handler_agree vendor vendor' now
             (fun c => is_patch c || is_website c)); auto.
    intros data0 E0 Hu. rewrite E in E0. injection E0 as <-. congruence.
  - intros affiliate_id programId Ha Ht Hp Hv Hc Hvendor.
    pose proof (finalize_succeeds vendor now data w _ _ Ha Ht Hp Hv Hc Hvendor)
      as S.
    unfold wp in S. rewrite R. unfold catch.
    destruct (finalize_affiliate vendor now data w) as [r w'].
    cbn [fst snd] in S. destruct S as (programResult & ->).
    exists programResult. reflexivity.
Qed.

(** ** Commission type *)

Lemma assoc_obj_set_eq {A} k (v : A) o : assoc k (obj_set k v o) = Some v.
Proof.
  induction o as [|[k' v'] r IH]; cbn.
  - rewrite String.eqb_refl. reflexivity.
  - destruct (String.eqb k k') eqn:E; cbn.
    + rewrite String.eqb_refl. reflexivity.
    + rewrite E. exact IH.
Qed.

Lemma assoc_obj_set_ne {A} k k' (v : A) o :
  k <> k' -> assoc k' (obj_set k v o) = assoc k' o.
Proof.
  intros N. induction o as [|[k0 v0] r IH]; cbn.
  - apply String.eqb_neq in N. rewrite String.eqb_sym, N. reflexivity.
  - destruct (String.eqb_spec k k0) as [<-|N0]; cbn.
    + apply String.eqb_neq in N. rewrite String.eqb_sym, N. reflexivity.
    + destruct (String.eqb k' k0); [reflexivity|exact IH].
Qed.



Section CommissionField.

Variable m : fieldmap.
Variables (commissionKey : json) (key : string) (commission_type : json).

Hypothesis resolved : m !! label_key "Commission type" = Some commissionKey.
Hypothesis resolved_truthy : truthy commissionKey = true.
Hypothesis key_string : js_String commissionKey = Some key.
Hypothesis supplied : truthy commission_type = true.

(** The demo-call field has another key. *)
Hypothesis other_demo_key :
  forall demoCallKey,
    or_else (m !! label_key "Free DEMO call?")
            (m !! label_key "Do you want a FREE DEMO call?")
    = Some demoCallKey ->
    js_String demoCallKey <> Some key.


Lemma addDemoCall_keeps data customFields customFields' :
  addDemoCall m data customFields = Val customFields' ->
  assoc key customFields' = assoc key customFields.
Proof.
  unfold addDemoCall.
  destruct (prop data "wantsDemoCall") as [d|]; [|congruence].
  assert (K : forall value,
             match or_else (m !! label_key "Free DEMO call?")
                           (m !! label_key "Do you want a FREE DEMO call?")
             with
             | Some demoCallKey =>
                 if truthy demoCallKey
                 then set_field demoCallKey value customFields
                 else Val customFields
             | None => Val customFields
             end = Val customFields' ->
             assoc key customFields' = assoc key customFields).
  { intros value.
    destruct (or_else _ _) as [k|] eqn:E; [|congruence].
    destruct (truthy k); [|congruence].
    unfold set_field, to_string. specialize (other_demo_key k eq_refl).
    destruct (js_String k) as [ks|]; [|discriminate].
    cbn [mbind result_bind]. intros [= <-].
    apply assoc_obj_set_ne. congruence. }
  destruct d; try congruence; apply K.
Qed.




End CommissionField.



(** * Sample runs *)

(** The runs of the examples. *)

Lemma missing_fields_rejected_witness :
  handler Sample.vendor 1000 (Some "key")
    (Sample.post [ ("mode", JStr "create_affiliate_only");
                    ("first_name", JStr "Ada"); ("password", JStr " ") ])
    Sample.cold
  = (Val (missing_fields_response ["last_name"; "email"; "password"]),
     Sample.cold).
Proof.
  pose proof (missing_fields_rejected Sample.vendor 1000 "key"
                (Sample.post [ ("mode", JStr "create_affiliate_only");
                                ("first_name", JStr "Ada");
                                ("password", JStr " ") ])
                Sample.cold _ eq_refl ltac:(discriminate) eq_refl
                ltac:(discriminate)) as (_ & _ & H).
  apply H. discriminate.
Defined.

(** C3, as stated, fails: in the default mode the program is tested
    first, and a request without [program] and without [email] is answered
    with the fixed message, which does not list [email]; and in the update
    mode a blank [affiliate_id] is not taken as missing: the handler
    fetches the catalog and answers 200. *)
Lemma missing_fields_not_listed :
  handler Sample.vendor 1000 (Some "key") Sample.legacy_request Sample.cold
  = (Val missing_program_response, Sample.cold)
  /\ missing_field (request_data Sample.legacy_request) "email" = true
  /\ body missing_program_response
     = JSON_stringify
         (JObj [("error", JStr "Missing or invalid program selection")])
  /\ includes "email" "Missing or invalid program selection" = false
  /\ (let run := handler Sample.vendor 1000 (Some "key")
                   (Sample.post [ ("mode", JStr "update_custom_fields");
                                   ("affiliate_id", JStr " ") ])
                   Sample.cold in
      trim " " = ""
      /\ (exists r, run.1 = Val r /\ statusCode r = 200)
      /\ issued Sample.cold run.2 = [GetCustomFields]).
Proof.
  repeat split; try reflexivity.
  eexists. split; reflexivity.
Qed.

Lemma parent_link_is_separate_witness :
  let run := handler Sample.vendor 1000 (Some "key")
               (Sample.create_request (JStr "42")) Sample.cold in
  (exists o, Sample.created_payload = JObj o /\ ~ In "parent_id" (keys o))
  /\ (exists pre c ans,
         issued Sample.cold run.2 = (pre ++ [c; PostParent "aff1" "42"])%list
         /\ is_create c || is_enroll c = true
         /\ Sample.vendor (calls Sample.cold ++ pre)%list c = Val ans
         /\ ok ans = true)
  /\ handler Sample.vendor_without_parent 1000 (Some "key")
       (Sample.create_request (JStr "42")) Sample.cold
     = run.
Proof.
  destruct (parent_link_is_separate Sample.vendor Sample.vendor_without_parent
              1000 (Some "key") (Sample.create_request (JStr "42"))
              Sample.cold) as (H1 & H2 & H3).
  split; [|split].
  - destruct (H1 Sample.created_payload) as (o & E & _ & H).
    + vm_compute. right. left. reflexivity.
    + exists o. split; assumption.
  - destruct (H2 "aff1" "42") as (pre & c & ans & E & _ & Hc & Hv & Hk).
    + vm_compute. right. right. left. reflexivity.
    + exists pre, c, ans. auto.
  - apply H3. intros h c Hc. destruct c; try reflexivity. discriminate Hc.
Defined.


(** C7, as stated, fails: when the vendor answers the enrollment call
    with an HTML error page of status 502, the handler answers with status
    500 and the generic retry message, the very answer that a failed
    creation with that page gets, not with status 502 and a message that
    tells the affiliate was created. *)
Lemma html_enrollment_failure_is_generic :
  let run := handler Sample.vendor_html_enroll 1000 (Some "key")
               Sample.finalize_request Sample.cold in
  run.1 = Val (enroll_failure Sample.html_page)
  /\ In (PostEnroll "stasher-affiliate-program" (JStr "aff1"))
        (issued Sample.cold run.2)
  /\ ok Sample.html_page = false
  /\ status Sample.html_page = 502
  /\ statusCode (enroll_failure Sample.html_page) = 500
  /\ body (enroll_failure Sample.html_page)
     = JSON_stringify (JObj [ ("error", JStr try_again_later);
                              ("status", JNum 502) ])
  /\ enroll_failure Sample.html_page = create_failure Sample.html_page
  /\ try_again_later <> created_not_enrolled.
Proof.
  repeat split; try reflexivity.
  - vm_compute. do 3 right. left. reflexivity.
  - discriminate.
Qed.

Lemma finalize_enrollment_witness :
  let run := handler Sample.vendor 1000 (Some "key")
               Sample.finalize_request Sample.cold in
  (exists pre tail,
      issued Sample.cold run.2
      = (pre ++ PostEnroll "stasher-affiliate-program" (JStr "aff1") :: tail)%list
      /\ no_enroll pre /\ no_enroll tail)
  /\ enroll_failure Sample.html_page
     = respond 500 [ ("error", JStr try_again_later); ("status", JNum 502) ]
  /\ handler Sample.vendor_without_updates 1000 (Some "key")
       Sample.finalize_request Sample.cold
     = run
  /\ (exists programResult,
         run.1 = Val (finalized (JStr "aff1") programResult)).
Proof.
  destruct (finalize_enrollment Sample.vendor Sample.vendor_without_updates
              1000 "key" Sample.finalize_request Sample.cold _
              eq_refl ltac:(discriminate) eq_refl eq_refl)
    as (H1 & H2 & H3 & H4).
  split; [|split; [|split]].
  - destruct (H1 (PostEnroll "stasher-affiliate-program" (JStr "aff1")) eq_refl)
      as (pre & tail & E & Hp & Ht & _).
    + vm_compute. do 3 right. left. reflexivity.
    + exists pre, tail. auto.
  - apply (H2 Sample.html_page). reflexivity.
  - apply H3. intros h c Hc. destruct c; try reflexivity; discriminate Hc.
  - apply (H4 (JStr "aff1") "stasher-affiliate-program");
      [ reflexivity | reflexivity | reflexivity
      | eexists; reflexivity
      | exact I
      | intros h; eexists _, _; repeat split; reflexivity ].
Defined.

(** C8, as stated, fails: the update mode fetches the field catalog
    before it looks at the commission type, so a request without a
    commission_type does issue a vendor call, the catalog request. *)
Lemma update_fetches_catalog :
  let run := handler Sample.vendor 1000 (Some "key")
               Sample.update_request Sample.cold in
  prop (request_data Sample.update_request) "commission_type" = None
  /\ run.1 = Val (nothing_to_update (JStr "aff1"))
  /\ issued Sample.cold run.2 = [GetCustomFields]
  /\ issued Sample.cold run.2 <> [].
Proof.
  cbv zeta. split; [reflexivity|].
  split; [vm_compute; reflexivity|].
  split; [vm_compute; reflexivity|].
  vm_compute. discriminate.
Qed.

Lemma update_without_commission_witness :
  let run := handler Sample.vendor 1000 (Some "key")
               Sample.update_request Sample.cold in
  run.1 = Val (nothing_to_update (JStr "aff1"))
  /\ Forall (fun c => is_patch c = false) (issued Sample.cold run.2).
Proof.
  destruct (update_without_commission Sample.vendor 1000 "key"
              Sample.update_request Sample.cold _ (JStr "aff1")
              eq_refl ltac:(discriminate) eq_refl eq_refl eq_refl eq_refl I
              (or_introl eq_refl))
    as (H1 & _ & _ & _ & H5).
  split; assumption.
Defined.



(** * Further properties *)

(** ** Labels *)







Lemma trimEnd_idem s : trimEnd (trimEnd s) = trimEnd s.
Proof.
  induction s as [|c r IH]; cbn; [reflexivity|].
  destruct (trimEnd r) as [|c' r'] eqn:E.
  - destruct (is_white c) eqn:W; cbn; [reflexivity|]. rewrite W. reflexivity.
  - cbn [trimEnd] in IH |- *. fold trimEnd in *.
    change (trimEnd (String c (String c' r')))
      with (match trimEnd (String c' r') with
            | EmptyString => if is_white c then EmptyString
                             else String c EmptyString
            | r0 => String c r0
            end).
    rewrite IH. reflexivity.
Qed.

Lemma trimStart_clean s : clean_start (trimStart s).
Proof.
  induction s as [|c r IH]; cbn; [exact I|].
  destruct (is_white c) eqn:W; [exact IH|exact W].
Qed.

Lemma trimStart_of_clean s : clean_start s -> trimStart s = s.
Proof. destruct s as [|c r]; cbn; [reflexivity|]. intros ->. reflexivity. Qed.

Lemma trimEnd_clean s : clean_start s -> clean_start (trimEnd s).
Proof.
  destruct s as [|c r]; [auto|]. intros W. cbn [trimEnd].
  destruct (trimEnd r); [cbn in W; rewrite W|]; exact W.
Qed.

Lemma trim_idem s : trim (trim s) = trim s.
Proof.
  unfold trim.
  rewrite (trimStart_of_clean (trimEnd (trimStart s))).
  - apply trimEnd_idem.
  - apply trimEnd_clean, trimStart_clean.
Qed.








Lemma normalizeFieldLabel_string s :
  normalizeFieldLabel (Some (JStr s)) = Val (label_key s).
Proof.
  unfold normalizeFieldLabel, or_else. cbn.
  destruct (String.eqb_spec s "") as [->|_]; reflexivity.
Qed.

Lemma normalizeFieldLabel_not_string label :
  truthy label = true -> (forall x, label <> JStr x) ->
  normalizeFieldLabel (Some label)
  = Throw (not_a_function "(label || '').trim").
Proof.
  unfold normalizeFieldLabel, or_else. cbn. intros -> N.
  destruct label; try reflexivity. destruct (N s eq_refl).
Qed.



(** ** Recognized countries *)

Lemma find_country_ext n n' entries :
  toLowerCase n = toLowerCase n' ->
  find_country n entries = find_country n' entries.
Proof.
  intros E. induction entries as [|[k c] r IH]; cbn; [reflexivity|].
  rewrite E, IH. reflexivity.
Qed.

Lemma find_country_key key code :
  In (key, code) countryMap ->
  find_country key countryMap = Some code /\ key <> "".
Proof.
  unfold countryMap. cbn [In]. intros H.
  repeat (destruct H as [[= <- <-]|H]; [split; [reflexivity|discriminate]|]).
  destruct H.
Qed.

Lemma toLowerCase_empty s : toLowerCase s = "" -> s = "".
Proof. destruct s; [reflexivity|discriminate]. Qed.

(** X2: a country name of the table, written in any letter case and with
    any white space around it, resolves to the code that the table gives for
    it, as long as the string as received is not two characters long. *)
Theorem recognized_country_code (s key code : string) :
  In (key, code) countryMap ->
  String.length s <> 2%nat ->
  toLowerCase (trim s) = toLowerCase key ->
  getCountryISOCode (Some (JStr s)) = Val code.
Proof.
  intros Hin Hlen E. destruct (find_country_key _ _ Hin) as [Hf Hk].
  unfold getCountryISOCode. cbn [truthy_opt truthy negb length_is_2].
  destruct (String.eqb_spec s "") as [->|_].
  { symmetry in E. apply toLowerCase_empty in E. contradiction. }
  cbn [negb]. apply Nat.eqb_neq in Hlen. rewrite Hlen.
  rewrite (find_country_ext _ _ _ E), Hf. reflexivity.
Qed.

Lemma recognized_country_code_witness :
  getCountryISOCode (Some (JStr "  gErMaNy ")) = Val "DE"
  /\ getCountryISOCode (Some (JStr " uk ")) = Val "GB".
Proof.
  split.
  - apply (recognized_country_code "  gErMaNy " "Germany" "DE");
      [vm_compute; tauto|vm_compute; lia|reflexivity].
  - apply (recognized_country_code " uk " "UK" "GB");
      [vm_compute; tauto|vm_compute; lia|reflexivity].
Defined.

(** ** What a creation payload holds *)

Lemma assoc_None {A} k (o : list (string * A)) :
  ~ In k (keys o) -> assoc k o = None.
Proof.
  unfold keys. induction o as [|[k' v] r IH]; cbn; [reflexivity|].
  intros H. destruct (String.eqb_spec k k') as [->|_]; [tauto|].
  apply IH. tauto.
Qed.

Lemma strip_cons k v r :
  strip ((k, v) :: r)
  = match kept v with
    | Some x => (k, x) :: strip r
    | None => strip r
    end.
Proof.
  unfold strip. destruct v as [[| | |s| |]|]; try reflexivity.
  cbn. destruct (String.eqb s ""); reflexivity.
Qed.

Lemma kept_is_kept v x : kept v = Some x -> is_kept x.
Proof.
  unfold is_kept. destruct v as [[| | |s| |]|]; cbn; try discriminate;
    try (intros [= <-]; split; discriminate).
  destruct (String.eqb_spec s ""); [discriminate|].
  intros [= <-]. split; congruence.
Qed.

Lemma assoc_strip k payload :
  List.NoDup (keys payload) ->
  assoc k (strip payload) = kept (default None (assoc k payload)).
Proof.
  induction payload as [|[k' v] r IH]; [reflexivity|].
  change (keys ((k', v) :: r)) with (k' :: keys r).
  intros Hd. apply List.NoDup_cons_iff in Hd. destruct Hd as [Hk Hd].
  specialize (IH Hd). rewrite strip_cons. cbn [assoc].
  destruct (String.eqb_spec k k') as [->|N].
  - change (default None (Some v)) with v. destruct (kept v) as [x|] eqn:Kv.
    + cbn [assoc]. rewrite String.eqb_refl. reflexivity.
    + apply assoc_None. intros Hin. apply Hk. apply keys_strip. exact Hin.
  - apply String.eqb_neq in N.
    destruct (kept v) as [x|]; [cbn [assoc]; rewrite N|]; exact IH.
Qed.

Lemma strip_kept payload : Forall (fun kv => is_kept kv.2) (strip payload).
Proof.
  induction payload as [|[k v] r IH]; [constructor|].
  rewrite strip_cons. destruct (kept v) as [x|] eqn:Kv; [|exact IH].
  constructor; [|exact IH]. exact (kept_is_kept _ _ Kv).
Qed.

Lemma NoDup_keys_strip payload :
  List.NoDup (keys payload) -> List.NoDup (keys (strip payload)).
Proof.
  induction payload as [|[k v] r IH]; [auto|].
  change (keys ((k, v) :: r)) with (k :: keys r).
  intros Hd. apply List.NoDup_cons_iff in Hd. destruct Hd as [Hk Hd].
  specialize (IH Hd). rewrite strip_cons.
  destruct (kept v) as [x|]; [|exact IH].
  change (keys ((k, x) :: strip r)) with (k :: keys (strip r)).
  constructor; [|exact IH].
  intros Hin. apply Hk. apply keys_strip. exact Hin.
Qed.

Lemma truthy_kept v : truthy_opt v = true -> kept v = v.
Proof.
  destruct v as [[| | |s| |]|]; cbn; try discriminate; try reflexivity.
  destruct (String.eqb s ""); [discriminate|reflexivity].
Qed.

Lemma companyDescriptionFor_truthy company_type company_description :
  companyDescriptionFor company_type company_description = None
  \/ truthy_opt (companyDescriptionFor company_type company_description) = true.
Proof.
  unfold companyDescriptionFor.
  destruct (is_str _ _); [right; reflexivity|].
  destruct (_ && _); [|left; reflexivity].
  destruct (truthy_opt company_description) eqn:T; auto.
Qed.

Lemma or_lit_kept a lit : lit <> "" -> is_kept (or_lit a lit).
Proof.
  intros N. unfold or_lit, is_kept.
  destruct a as [v|]; [|split; congruence].
  destruct (truthy v) eqn:T; [|split; congruence].
  split; intros ->; cbn in T; discriminate.
Qed.

(** What [buildTapfiliatePayload] returns. *)
Lemma buildTapfiliatePayload_fields data payload :
  buildTapfiliatePayload data = Val payload ->
  assoc "firstname" payload = kept (prop data "first_name")
  /\ assoc "lastname" payload = kept (prop data "last_name")
  /\ assoc "email" payload = kept (prop data "email")
  /\ assoc "password" payload = kept (prop data "password")
  /\ (exists code,
         getCountryISOCode (prop data "country") = Val code
         /\ assoc "address" payload
            = Some (JObj [ ("address", JStr "n/a");
                           ("postal_code", JStr "n/a");
                           ("city", or_lit (prop data "city") "n/a");
                           ("country", JObj [("code", JStr code)]) ]))
  /\ assoc "company" payload
     = Some (JObj [("name", or_lit (prop data "company") "n/a")])
  /\ assoc "company_description" payload
     = companyDescriptionFor (prop data "company_type")
                             (prop data "company_description")
  /\ assoc "custom_fields" payload = None
  /\ Forall (fun kv => is_kept kv.2) payload
  /\ List.NoDup (keys payload).
Proof.
  unfold buildTapfiliatePayload, mbind, result_bind.
  destruct (getCountryISOCode _) as [code|]; [|discriminate].
  set (d := companyDescriptionFor _ _).
  assert (Hd : d = None \/ truthy_opt d = true)
    by apply companyDescriptionFor_truthy.
  intros [= <-].
  assert (N1 : forall (a b c e f g : option json),
             List.NoDup (keys [ ("firstname", a); ("lastname", b); ("email", c);
                                ("password", e); ("address", f); ("company", g) ])).
  { intros. unfold keys. cbn [map fst].
    repeat (constructor; [cbn; intuition discriminate|]). constructor. }
  assert (N2 : forall (a b c e f g h : option json),
             List.NoDup (keys [ ("firstname", a); ("lastname", b); ("email", c);
                                ("password", e); ("address", f); ("company", g);
                                ("company_description", h) ])).
  { intros. unfold keys. cbn [map fst].
    repeat (constructor; [cbn; intuition discriminate|]). constructor. }
  destruct Hd as [Hd|Hd].
  - rewrite Hd. cbn [truthy_opt].
    rewrite !assoc_strip by apply N1.
    repeat split; try reflexivity.
    + exists code. split; reflexivity.
    + apply strip_kept.
    + apply NoDup_keys_strip, N1.
  - rewrite Hd. cbn [app].
    rewrite !assoc_strip by apply N2.
    repeat split; try reflexivity.
    + exists code. split; reflexivity.
    + cbn [assoc String.eqb Ascii.eqb Bool.eqb default]. apply truthy_kept, Hd.
    + apply strip_kept.
    + apply NoDup_keys_strip, N2.
Qed.

Lemma Forall_obj_set {A} (P : string * A -> Prop) k v o :
  Forall P o -> P (k, v) -> Forall P (obj_set k v o).
Proof.
  intros Ho Hv. induction Ho as [|[k' v'] r Hx Hr IH]; cbn.
  - repeat constructor. exact Hv.
  - destruct (String.eqb k k'); constructor; auto.
Qed.

Lemma NoDup_keys_obj_set {A} k (v : A) o :
  List.NoDup (keys o) -> List.NoDup (keys (obj_set k v o)).
Proof.
  unfold keys. induction o as [|[k' v'] r IH]; cbn.
  - intros _. repeat constructor. intros [].
  - intros Hd. apply List.NoDup_cons_iff in Hd. destruct Hd as [Hk Hd].
    destruct (String.eqb_spec k k') as [->|N]; cbn.
    + constructor; assumption.
    + constructor; [|auto]. intros Hin.
      destruct (keys_obj_set _ _ _ _ Hin) as [E|Hin']; [congruence|].
      exact (Hk Hin').
Qed.

Lemma withCustomFields_fields fkm data payload payload' :
  withCustomFields fkm data payload = Val payload' ->
  (forall k, k <> "custom_fields" -> assoc k payload' = assoc k payload)
  /\ (forall P : string * json -> Prop,
         Forall P payload ->
         (forall customFields, customFields <> [] ->
                               P ("custom_fields", JObj customFields)) ->
         Forall P payload')
  /\ (List.NoDup (keys payload) -> List.NoDup (keys payload')).
Proof.
  unfold withCustomFields, mbind, result_bind.
  destruct fkm as [m|]; [|intros [= <-]; auto].
  destruct (addCompanyType _ _ _); [|discriminate].
  destruct (addCommissionType _ _ _); [|discriminate].
  destruct (addDemoCall _ _ _) as [cf|]; [|discriminate].
  destruct cf as [|x cf]; cbn [is_nil]; intros [= <-]; [auto|].
  split; [|split].
  - intros k N. apply assoc_obj_set_ne. congruence.
  - intros P HP Hcf. apply Forall_obj_set; [exact HP|]. apply Hcf. discriminate.
  - apply NoDup_keys_obj_set.
Qed.

(** X3: every creation payload that the handler sends holds the first
    name, last name, e-mail address and password of the request under the
    keys [firstname], [lastname], [email] and [password], each left out when
    it is undefined, null or empty; an address and a company, with ["n/a"]
    where the request gives nothing; the company description that the
    company type calls for; and no key twice and no value that is null or
    the empty string. *)
Theorem creation_payload_sent vendor now key ev w payload :
  let data := request_data ev in
  In (PostAffiliate payload) (issued w (handler vendor now key ev w).2) ->
  exists o code,
    payload = JObj o
    /\ assoc "firstname" o = kept (prop data "first_name")
    /\ assoc "lastname" o = kept (prop data "last_name")
    /\ assoc "email" o = kept (prop data "email")
    /\ assoc "password" o = kept (prop data "password")
    /\ getCountryISOCode (prop data "country") = Val code
    /\ assoc "address" o
       = Some (JObj [ ("address", JStr "n/a");
                      ("postal_code", JStr "n/a");
                      ("city", or_lit (prop data "city") "n/a");
                      ("country", JObj [("code", JStr code)]) ])
    /\ assoc "company" o
       = Some (JObj [("name", or_lit (prop data "company") "n/a")])
    /\ assoc "company_description" o
       = companyDescriptionFor (prop data "company_type")
                               (prop data "company_description")
    /\ Forall (fun kv => is_kept kv.2) o
    /\ List.NoDup (keys o).
Proof.
  intros data Hin.
  destruct (handler_run vendor now key ev w)
    as (resp & w' & E & (new & Hnew & Hcalls) & _).
  rewrite E in Hin. cbn [snd] in Hin. rewrite (issued_app _ _ _ Hnew) in Hin.
  rewrite Forall_forall in Hcalls. apply list_elem_of_In in Hin.
  specialize (Hcalls _ Hin).
  inversion Hcalls as [|p0 p Hb Hw| | | | |]; subst.
  destruct (buildTapfiliatePayload_fields _ _ Hb)
    as (F1 & F2 & F3 & F4 & (code & Hc & F5) & F6 & F7 & _ & F9 & F10).
  destruct (withCustomFields_fields _ _ _ _ Hw) as (K & KP & KD).
  exists p, code. split; [reflexivity|].
  rewrite !K by discriminate. fold data in F1, F2, F3, F4, Hc, F5, F6, F7.
  repeat (split; [assumption|]). split; [|auto].
  apply KP; [exact F9|]. intros cf N. split; discriminate.
Qed.

Lemma creation_payload_sent_witness :
  Sample.created_payload
  = JObj [ ("firstname", JStr "Ada"); ("lastname", JStr "Byron");
            ("email", JStr "ada@example.org"); ("password", JStr "secret");
            ("address",
             JObj [ ("address", JStr "n/a"); ("postal_code", JStr "n/a");
                    ("city", JStr "n/a");
                    ("country", JObj [("code", JStr "GB")]) ]);
            ("company", JObj [("name", JStr "n/a")]);
            ("custom_fields",
             JObj [("commission-type", JStr "I want 10% commission")]) ]
  /\ exists o, Sample.created_payload = JObj o
               /\ assoc "firstname" o = Some (JStr "Ada")
               /\ assoc "company_description" o = None
               /\ Forall (fun kv => is_kept kv.2) o.
Proof.
  split; [reflexivity|].
  destruct (creation_payload_sent Sample.vendor 1000 (Some "key")
              (Sample.create_request (JStr "42")) Sample.cold
              Sample.created_payload)
    as (o & code & E & F1 & _ & _ & _ & _ & _ & _ & F7 & F8 & _).
  - vm_compute. right. left. reflexivity.
  - exists o. auto.
Defined.

(** ** The message drawn from a vendor error *)

Lemma error_item_shows e m : shows_as e m -> error_item e = Val (JStr m).
Proof.
  intros [[Hp Hm]| ->]; [|reflexivity].
  unfold error_item. rewrite Hp. cbn [truthy_opt truthy default from_option id].
  apply String.eqb_neq in Hm. rewrite Hm. cbn [negb].
  destruct e; try discriminate Hp. reflexivity.
Qed.

Lemma mapM_error_item errors messages :
  Forall2 shows_as errors messages ->
  mapM error_item errors = Val (JStr <$> messages).
Proof.
  induction 1 as [|e m errors messages He _ IH]; [reflexivity|].
  cbn [mapM]. rewrite (error_item_shows _ _ He), IH. reflexivity.
Qed.

Lemma mapM_join_item messages :
  mapM join_item (JStr <$> messages) = Val messages.
Proof.
  induction messages as [|m r IH]; [reflexivity|].
  cbn [fmap list_fmap mapM]. cbn [fmap list_fmap] in IH. rewrite IH.
  reflexivity.
Qed.

Lemma mapM_error_item_null errors :
  In JNull errors -> exists e, mapM error_item errors = Throw e.
Proof.
  induction errors as [|x r IH]; [intros []|].
  intros [->|Hin]; [eexists; reflexivity|].
  destruct (IH Hin) as (e & He). cbn [mapM]. rewrite He.
  destruct (error_item x); eexists; reflexivity.
Qed.

(** X4: the error text that a failed creation reports.  When the vendor's
    error body holds an [errors] array of objects with a message, or of
    plain texts, the text is those messages joined by a comma and a space;
    when the array holds a [null], or the body is not JSON, it is the
    generic retry text; without an [errors] array it is the [message] of the
    body, or ["Failed to create affiliate"] when there is none. *)
Theorem vendor_error_message (errorJson : json) (errors : list json)
    (messages : list string) (e : exn) :
  (prop errorJson "errors" = Some (JArr errors) ->
   Forall2 shows_as errors messages ->
   vendorErrorMessage (Val errorJson) = JStr (join ", " messages))
  /\ (prop errorJson "errors" = Some (JArr errors) -> In JNull errors ->
      vendorErrorMessage (Val errorJson) = JStr try_again_later)
  /\ vendorErrorMessage (Throw e) = JStr try_again_later
  /\ vendorErrorMessage (Val JNull) = JStr try_again_later
  /\ (errorJson <> JNull ->
      (forall l, prop errorJson "errors" <> Some (JArr l)) ->
      vendorErrorMessage (Val errorJson)
      = match prop errorJson "message" with
        | Some message =>
            if truthy message then message
            else JStr "Failed to create affiliate"
        | None => JStr "Failed to create affiliate"
        end).
Proof.
  split; [|split; [|split; [|split]]].
  - intros Hp Hs. unfold vendorErrorMessage. cbn [mbind result_bind].
    destruct errorJson; try discriminate Hp. rewrite Hp.
    rewrite (mapM_error_item _ _ Hs). cbn [mbind result_bind].
    rewrite mapM_join_item. reflexivity.
  - intros Hp Hn. unfold vendorErrorMessage. cbn [mbind result_bind].
    destruct errorJson; try discriminate Hp. rewrite Hp.
    destruct (mapM_error_item_null _ Hn) as (e' & ->). reflexivity.
  - reflexivity.
  - reflexivity.
  - intros Hn He. unfold vendorErrorMessage. cbn [mbind result_bind].
    destruct errorJson; try congruence;
      try (destruct (prop _ "errors") as [[| | | |l|]|] eqn:Hp;
           try (destruct (He l eq_refl)));
      destruct (prop _ "message") as [msg|]; cbn [truthy_opt default from_option id];
      try destruct (truthy msg); reflexivity.
Qed.

Lemma vendor_error_message_witness :
  vendorErrorMessage
    (Val (JObj [("errors", JArr [ JObj [("message", JStr "Email already taken")];
                                  JStr "Password too short" ])]))
  = JStr "Email already taken, Password too short"
  /\ vendorErrorMessage (Val (JObj [("errors", JArr [JNull])]))
     = JStr try_again_later
  /\ vendorErrorMessage (Val (JObj [("message", JStr "Forbidden")]))
     = JStr "Forbidden".
Proof.
  pose proof (vendor_error_message
                (JObj [("errors",
                        JArr [ JObj [("message", JStr "Email already taken")];
                               JStr "Password too short" ])])
                [ JObj [("message", JStr "Email already taken")];
                  JStr "Password too short" ]
                ["Email already taken"; "Password too short"] (Error ""))
    as (H1 & _).
  pose proof (vendor_error_message (JObj [("errors", JArr [JNull])]) [JNull]
                [] (Error "")) as (_ & H2 & _).
  pose proof (vendor_error_message (JObj [("message", JStr "Forbidden")]) []
                [] (Error "")) as (_ & _ & _ & _ & H5).
  split; [|split].
  - apply H1; [reflexivity|].
    constructor; [left; split; [reflexivity|discriminate]|].
    constructor; [right; reflexivity|constructor].
  - apply H2; [reflexivity|left; reflexivity].
  - apply H5; [discriminate|]. intros l. discriminate.
Defined.

(** ** The field map built from the catalog *)

Lemma add_field_with_entry m field m' :
  add_field m field = Val m' -> m' = with_entry m field.
Proof.
  unfold add_field, with_entry, field_entry.
  destruct field; try discriminate;
    try (cbn; intros [= <-]; reflexivity).
  cbn [prop].
  generalize (or_else (assoc "key" o) (assoc "id" o)) as keyOrId.
  generalize (assoc "title" o) as title. intros title keyOrId.
  unfold normalizeFieldLabel, or_else, mbind, result_bind, to_string.
  destruct title as [[| [] |n|t| |]|], keyOrId as [k|];
    cbn [truthy_opt truthy andb negb];
    try (intros [= <-]; reflexivity);
    try (destruct (truthy k); [discriminate|intros [= <-]; reflexivity]);
    try (destruct (negb (n =? 0)); cbn [andb];
         [destruct (truthy k); [discriminate|]|]; intros [= <-]; reflexivity);
    try (rewrite andb_false_r; intros [= <-]; reflexivity).
  destruct (negb (String.eqb t "")); cbn [andb]; [|intros [= <-]; reflexivity].
  destruct (truthy k); [|intros [= <-]; reflexivity].
  destruct (js_String k); [|discriminate]. intros [= <-]. reflexivity.
Qed.

Lemma forEach_add_field l : forall m m',
  forEach add_field m l = Val m' -> m' = fold_left with_entry l m.
Proof.
  induction l as [|f l IH]; cbn; intros m m'.
  - intros [= <-]. reflexivity.
  - destruct (add_field m f) as [m1|] eqn:E; [|discriminate]. cbn.
    apply add_field_with_entry in E. subst m1. apply IH.
Qed.

Lemma fold_with_entry_lookup l : forall m n k,
  fold_left with_entry l m !! n = Some k <->
  (m !! n = Some k /\ Forall (fun f => fst <$> field_entry f <> Some n) l)
  \/ exists l1 f l2,
       l = (l1 ++ f :: l2)%list
       /\ field_entry f = Some (n, k)
       /\ Forall (fun f' => fst <$> field_entry f' <> Some n) l2.
Proof.
  unfold fieldmap.
  induction l as [|f l IH]; intros m n k; cbn [fold_left].
  - split.
    + intros H. left. split; [exact H|constructor].
    + intros [[H _]|(l1 & f & l2 & E & _)]; [exact H|].
      destruct l1; discriminate E.
  - rewrite IH. unfold with_entry at 1.
    destruct (field_entry f) as [[t key]|] eqn:Ef; cbv beta iota;
      unfold fieldmap.
    + destruct (String.eqb_spec t n) as [->|N].
      * rewrite lookup_insert_eq. split.
        -- intros [[[= <-] Hl]|(l1 & f' & l2 & -> & Hf & Hl)].
           ++ right. exists [], f, l. auto.
           ++ right. exists (f :: l1), f', l2. auto.
        -- intros [[_ Hl]|(l1 & f' & l2 & E & Hf & Hl)].
           ++ apply Forall_cons_1 in Hl. destruct Hl as [Hl _].
              rewrite Ef in Hl. destruct Hl. reflexivity.
           ++ destruct l1 as [|x l1]; injection E as <- ->.
              ** left. rewrite Ef in Hf. injection Hf as <-. auto.
              ** right. exists l1, f', l2. auto.
      * rewrite lookup_insert_ne by exact N. split.
        -- intros [[Hm Hl]|(l1 & f' & l2 & -> & Hf & Hl)].
           ++ left. split; [exact Hm|]. constructor; [|exact Hl].
              rewrite Ef. cbn. congruence.
           ++ right. exists (f :: l1), f', l2. auto.
        -- intros [[Hm Hl]|(l1 & f' & l2 & E & Hf & Hl)].
           ++ apply Forall_cons_1 in Hl. left. tauto.
           ++ destruct l1 as [|x l1]; injection E as <- ->.
              ** rewrite Ef in Hf. congruence.
              ** right. exists l1, f', l2. auto.
    + split.
      * intros [[Hm Hl]|(l1 & f' & l2 & -> & Hf & Hl)].
        -- left. split; [exact Hm|]. constructor; [|exact Hl].
           rewrite Ef. discriminate.
        -- right. exists (f :: l1), f', l2. auto.
      * intros [[Hm Hl]|(l1 & f' & l2 & E & Hf & Hl)].
        -- apply Forall_cons_1 in Hl. left. tauto.
        -- destruct l1 as [|x l1]; injection E as <- ->.
           ++ rewrite Ef in Hf. discriminate.
           ++ right. exists l1, f', l2. auto.
Qed.

Lemma field_entry_truthy field n k :
  field_entry field = Some (n, k) ->
  truthy k = true
  /\ exists title, prop field "title" = Some (JStr title)
                   /\ title <> "" /\ n = label_key title
                   /\ or_else (prop field "key") (prop field "id") = Some k.
Proof.
  unfold field_entry.
  destruct (prop field "title") as [[| | |t| |]|]; try discriminate.
  destruct (or_else _ _) as [k'|]; [|discriminate].
  destruct (String.eqb_spec t ""); cbn [negb andb]; [discriminate|].
  destruct (truthy k') eqn:T; [|discriminate].
  intros [= <- <-]. split; [exact T|]. exists t. auto.
Qed.

(** X5: the field map that [getCustomFieldKeys] builds from a catalog
    array.  A normalized title is mapped to a key exactly when some entry
    of the array has a non-empty string title with that normalization and
    that key, or failing a truthy key that id, and no later entry has a
    title with the same normalization: of two entries with the same
    normalized title the later one wins.  Every key in the map is truthy and
    has a string form.  This is for entries none of whose titles normalizes
    to [__proto__]. *)
Theorem field_map_entries (fields : list json) (m : fieldmap) :
  plain_titles fields ->
  build_field_map (JArr fields) = Val m ->
  (forall n k,
      m !! n = Some k <->
      exists l1 field l2 title,
        fields = (l1 ++ field :: l2)%list
        /\ prop field "title" = Some (JStr title)
        /\ title <> "" /\ n = label_key title
        /\ or_else (prop field "key") (prop field "id") = Some k
        /\ truthy k = true
        /\ Forall (fun f' => fst <$> field_entry f' <> Some n) l2)
  /\ map_Forall (fun _ k => truthy k = true /\ is_Some (js_String k)) m.
Proof.
  intros _ Hb. pose proof (build_field_map_ok _ _ Hb) as Hok.
  unfold build_field_map in Hb. apply forEach_add_field in Hb. subst m.
  assert (L : forall n k,
             fold_left with_entry fields ∅ !! n = Some k <->
             exists l1 field l2 title,
               fields = (l1 ++ field :: l2)%list
               /\ prop field "title" = Some (JStr title)
               /\ title <> "" /\ n = label_key title
               /\ or_else (prop field "key") (prop field "id") = Some k
               /\ truthy k = true
               /\ Forall (fun f' => fst <$> field_entry f' <> Some n) l2).
  { intros n k. rewrite fold_with_entry_lookup. split.
    - intros [[H _]|(l1 & f & l2 & E & Hf & Hl)].
      + unfold fieldmap in H. rewrite lookup_empty in H. discriminate H.
      + destruct (field_entry_truthy _ _ _ Hf) as (T & t & Ht & Hn & En & Hk).
        exists l1, f, l2, t. auto 10.
    - intros (l1 & f & l2 & t & E & Ht & Hn & En & Hk & T & Hl).
      right. exists l1, f, l2. split; [exact E|]. split; [|exact Hl].
      unfold field_entry. rewrite Ht, Hk, T.
      apply String.eqb_neq in Hn. rewrite Hn. subst n. reflexivity. }
  split; [exact L|].
  intros n k Hk. split; [|exact (Hok n k Hk)].
  apply L in Hk. destruct Hk as (_ & _ & _ & _ & _ & _ & _ & _ & _ & T & _).
  exact T.
Qed.

Lemma field_map_entries_witness :
  build_field_map
    (JArr [ JObj [("title", JStr "Commission type"); ("id", JNum 7)];
            JObj [("title", JStr " commission TYPE "); ("key", JStr "ct");
                  ("id", JNum 8)] ])
  = Val (<[ "commission type" := JStr "ct" ]> ∅)
  /\ (<[ "commission type" := JStr "ct" ]> ∅ : fieldmap) !! "commission type"
     = Some (JStr "ct").
Proof.
  assert (E : build_field_map
                (JArr [ JObj [("title", JStr "Commission type"); ("id", JNum 7)];
                        JObj [("title", JStr " commission TYPE ");
                              ("key", JStr "ct"); ("id", JNum 8)] ])
              = Val (<[ "commission type" := JStr "ct" ]> ∅))
    by (vm_compute; reflexivity).
  split; [exact E|].
  refine (proj2 (proj1 (field_map_entries _ _ _ E) _ _) _).
  { repeat constructor; vm_compute; discriminate. }
  exists [JObj [("title", JStr "Commission type"); ("id", JNum 7)]],
    (JObj [("title", JStr " commission TYPE "); ("key", JStr "ct");
           ("id", JNum 8)]), [], " commission TYPE ".
  repeat split; try reflexivity; [discriminate|constructor].
Defined.

(** ** The catalog request *)

Lemma cached_None now w : clock_ok now w -> cached now w = None.
Proof.
  intros H. unfold cached, CACHE_DURATION.
  destruct (customFieldsCache w); [|reflexivity].
  destruct (cacheTimestamp w) as [t|] eqn:Et; [|reflexivity].
  specialize (H t Et).
  replace (now - t <? 0) with false by (symmetry; apply Z.ltb_ge; lia).
  rewrite andb_false_r. reflexivity.
Qed.

Lemma getCustomFieldKeys_fetched vendor now w :
  cached now w = None ->
  getCustomFieldKeys vendor now w
  = (Val (fetched_catalog (vendor (calls w) GetCustomFields)),
     match fetched_catalog (vendor (calls w) GetCustomFields) with
     | Some fieldMap => set_cache fieldMap now (add_call GetCustomFields w)
     | None => add_call GetCustomFields w
     end).
Proof.
  intros Hc. unfold getCustomFieldKeys, fetched_catalog. rewrite Hc.
  unfold catch, mbind, M_bind, fetch, lift, mret, M_ret, store_cache.
  destruct (vendor (calls w) GetCustomFields) as [response|e]; [|reflexivity].
  destruct (ok response); cbn [negb]; [|reflexivity].
  destruct (parsed response) as [fields|e]; [|reflexivity].
  cbn [mbind result_bind].
  destruct (build_field_map fields); reflexivity.
Qed.

(** X6: with a cache duration of zero the cache is never used as long as
    the clock does not go back: [getCustomFieldKeys] issues the catalog
    request, and nothing else, on every call.  It never throws.  When the
    answer is a success whose body parses and yields a field map, it
    returns that map and stores it with the current time; in every other
    case, a network failure included, it returns [null] and leaves the
    cache as it was. *)
Theorem catalog_always_fetched vendor now w :
  clock_ok now w ->
  let run := getCustomFieldKeys vendor now w in
  let fetched := fetched_catalog (vendor (calls w) GetCustomFields) in
  run.1 = Val fetched
  /\ calls run.2 = (calls w ++ [GetCustomFields])%list
  /\ match fetched with
     | Some fieldMap =>
         customFieldsCache run.2 = Some fieldMap
         /\ cacheTimestamp run.2 = Some now
     | None =>
         customFieldsCache run.2 = customFieldsCache w
         /\ cacheTimestamp run.2 = cacheTimestamp w
     end
  /\ clock_ok now run.2.
Proof.
  intros Hc run fetched. unfold run.
  rewrite (getCustomFieldKeys_fetched _ _ _ (cached_None _ _ Hc)).
  fold fetched. cbn [fst snd].
  split; [reflexivity|].
  destruct fetched as [fieldMap|]; cbn.
  - repeat split; try reflexivity. intros t [= <-]. lia.
  - repeat split; try reflexivity. exact Hc.
Qed.

Lemma catalog_always_fetched_witness :
  let run := getCustomFieldKeys Sample.vendor 1000
               (set_cache Sample.catalog_map 999 Sample.cold) in
  run.1 = Val (Some Sample.catalog_map)
  /\ calls run.2 = [GetCustomFields]
  /\ cacheTimestamp run.2 = Some 1000.
Proof.
  destruct (catalog_always_fetched Sample.vendor 1000
              (set_cache Sample.catalog_map 999 Sample.cold))
    as (H1 & H2 & H3 & _).
  - intros t [= <-]. lia.
  - split; [exact H1|]. split; [exact H2|]. apply H3.
Defined.

Lemma forEach_throws {A B} (f : A -> B -> result A) l x :
  In x l -> (forall a, exists e, f a x = Throw e) ->
  forall a, exists e, forEach f a l = Throw e.
Proof.
  intros Hin Hx. induction l as [|y r IH]; [destruct Hin|].
  intros a. cbn [forEach]. destruct Hin as [->|Hin].
  - destruct (Hx a) as (e & ->). eexists. reflexivity.
  - destruct (f a y) as [a'|e]; [|eexists; reflexivity].
    cbn [mbind result_bind]. apply IH, Hin.
Qed.

Lemma add_field_bad m field :
  bad_entry field = true -> exists e, add_field m field = Throw e.
Proof.
  unfold bad_entry, add_field.
  destruct field; try (cbn; discriminate); [eexists; reflexivity|].
  cbn [prop]. intros H. apply andb_prop in H. destruct H as [Hk Ht].
  rewrite Hk, andb_true_r.
  destruct (assoc "title" o) as [title|]; [|discriminate Ht].
  assert (N : forall x, title <> JStr x)
    by (intros x ->; discriminate Ht).
  assert (T : truthy title = true) by (destruct title; auto; discriminate).
  cbn [truthy_opt]. rewrite T, (normalizeFieldLabel_not_string _ T N).
  eexists. reflexivity.
Qed.

(** X7: one malformed entry costs the whole catalog.  When the vendor
    answers the catalog request with an array that holds a [null], or an
    entry with a key or id whose title is truthy and not a string, the
    callback throws, [getCustomFieldKeys] returns [null] and the cache
    stays as it was. *)
Theorem malformed_entry_voids_catalog vendor now w response fields field :
  clock_ok now w ->
  vendor (calls w) GetCustomFields = Val response ->
  parsed response = Val (JArr fields) ->
  In field fields ->
  bad_entry field = true ->
  let run := getCustomFieldKeys vendor now w in
  run.1 = Val None
  /\ customFieldsCache run.2 = customFieldsCache w
  /\ cacheTimestamp run.2 = cacheTimestamp w.
Proof.
  intros Hc Hv Hp Hin Hbad run. unfold run.
  rewrite (getCustomFieldKeys_fetched _ _ _ (cached_None _ _ Hc)), Hv.
  assert (F : fetched_catalog (Val response) = None).
  { unfold fetched_catalog. destruct (ok response); [|reflexivity].
    rewrite Hp. cbn [mbind result_bind]. unfold build_field_map.
    destruct (forEach_throws add_field fields field Hin
                (fun a => add_field_bad a field Hbad) ∅) as (e & ->).
    reflexivity. }
  rewrite F. cbn. auto.
Qed.

Lemma malformed_entry_voids_catalog_witness :
  let vendor := fun (_ : list vendor_call) (_ : vendor_call) =>
                  Sample.answer 200
                    (JArr [ JObj [("title", JStr "Commission type");
                                  ("key", JStr "commission-type")];
                            JObj [("title", JNum 7); ("id", JNum 12)] ]) in
  (getCustomFieldKeys vendor 1000 Sample.cold).1 = Val None.
Proof.
  intros vendor.
  refine (proj1 (malformed_entry_voids_catalog vendor 1000 Sample.cold _ _
                   (JObj [("title", JNum 7); ("id", JNum 12)])
                   _ eq_refl eq_refl _ eq_refl)).
  - intros t Ht. discriminate Ht.
  - right. left. reflexivity.
Defined.

(** ** [mapCustomFieldsToKeys] *)

Lemma forEach_pure {A B} (f : A -> B -> result A) (g : A -> B -> A) l :
  forall a, (forall a x, In x l -> f a x = Val (g a x)) ->
            forEach f a l = Val (fold_left g l a).
Proof.
  induction l as [|x r IH]; intros a H; [reflexivity|].
  cbn [forEach fold_left]. rewrite (H a x) by (left; reflexivity).
  cbn [mbind result_bind]. apply IH. intros a' y Hy. apply H. right. exact Hy.
Qed.

Lemma mapCustomFieldsToKeys_fold m o :
  fieldmap_ok m ->
  mapCustomFieldsToKeys (Some (JObj o)) (Some m)
  = Val (fold_left (with_label m o) (keys o) []).
Proof.
  intros Hm. unfold mapCustomFieldsToKeys. cbn [spread].
  apply forEach_pure. intros a label _.
  rewrite normalizeFieldLabel_string. cbn [mbind result_bind].
  unfold with_label, mapped_entry.
  destruct (m !! label_key label) as [apiKey|] eqn:E; [|reflexivity].
  destruct (assoc label o) as [v|]; [|reflexivity].
  destruct (truthy apiKey); [|reflexivity].
  destruct (Hm _ _ E) as (k & Hk). unfold set_field, to_string.
  rewrite Hk. reflexivity.
Qed.

Lemma fold_with_label_sound m o l : forall acc k v,
  assoc k (fold_left (with_label m o) l acc) = Some v ->
  assoc k acc = Some v
  \/ exists label, In label l /\ mapped_entry m o label = Some (k, v).
Proof.
  induction l as [|x r IH]; intros acc k v; cbn [fold_left]; [auto|].
  intros H. destruct (IH _ _ _ H) as [Ha|(label & Hin & He)].
  - unfold with_label in Ha.
    destruct (mapped_entry m o x) as [[k' v']|] eqn:Ex; [|auto].
    destruct (String.eqb_spec k' k) as [->|N].
    + rewrite assoc_obj_set_eq in Ha. injection Ha as ->.
      right. exists x. split; [left; reflexivity|exact Ex].
    + rewrite assoc_obj_set_ne in Ha by exact N. auto.
  - right. exists label. split; [right; exact Hin|exact He].
Qed.

Lemma is_Some_assoc_obj_set {A} k k' (v : A) o :
  is_Some (assoc k o) -> is_Some (assoc k (obj_set k' v o)).
Proof.
  intros H. destruct (String.eqb_spec k' k) as [->|N].
  - rewrite assoc_obj_set_eq. eauto.
  - rewrite assoc_obj_set_ne by exact N. exact H.
Qed.

Lemma fold_with_label_keeps m o l : forall acc k,
  is_Some (assoc k acc) -> is_Some (assoc k (fold_left (with_label m o) l acc)).
Proof.
  induction l as [|x r IH]; intros acc k H; cbn [fold_left]; [exact H|].
  apply IH. unfold with_label.
  destruct (mapped_entry m o x) as [[k' v']|]; [|exact H].
  apply is_Some_assoc_obj_set, H.
Qed.

Lemma fold_with_label_complete m o l : forall acc label k v,
  In label l -> mapped_entry m o label = Some (k, v) ->
  is_Some (assoc k (fold_left (with_label m o) l acc)).
Proof.
  induction l as [|x r IH]; intros acc label k v; [intros []|].
  cbn [fold_left]. intros [->|Hin] He.
  - apply fold_with_label_keeps. unfold with_label. rewrite He.
    rewrite assoc_obj_set_eq. eauto.
  - eapply IH; eauto.
Qed.

Lemma assoc_Some_In {A} k (v : A) o : assoc k o = Some v -> In k (keys o).
Proof.
  unfold keys. induction o as [|[k' v'] r IH]; cbn; [discriminate|].
  destruct (String.eqb_spec k k') as [->|_]; auto.
Qed.

(** X8: [mapCustomFieldsToKeys], given an object and a field map whose
    keys have string forms, returns an object in which every entry comes
    from a label of the input whose normalization the map resolves to a
    truthy key: the entry has the string form of that key and the value of
    that label.  Labels that the map does not resolve are dropped, and every
    resolved label leaves an entry under its key.  Without an input object,
    or without a field map, the result is the empty object.  This is for
    labels that normalize to no name that every object inherits and keys
    other than [__proto__]. *)
Theorem mapCustomFieldsToKeys_maps (m : fieldmap) (o : list (string * json)) :
  fieldmap_ok m ->
  plain_labels m o ->
  (exists mappedFields,
      mapCustomFieldsToKeys (Some (JObj o)) (Some m) = Val mappedFields
      /\ (forall k value,
             assoc k mappedFields = Some value ->
             exists label apiKey,
               assoc label o = Some value
               /\ m !! label_key label = Some apiKey
               /\ truthy apiKey = true
               /\ js_String apiKey = Some k)
      /\ (forall label value apiKey k,
             assoc label o = Some value ->
             m !! label_key label = Some apiKey ->
             truthy apiKey = true ->
             js_String apiKey = Some k ->
             is_Some (assoc k mappedFields)))
  /\ mapCustomFieldsToKeys (Some (JObj o)) None = Val []
  /\ (forall x, truthy_opt x = false ->
                mapCustomFieldsToKeys x (Some m) = Val [])
  /\ (forall x, (forall o', x <> Some (JObj o')) ->
                (forall l, x <> Some (JArr l)) ->
                mapCustomFieldsToKeys x (Some m) = Val []).
Proof.
  intros Hm _. split; [|split; [|split]].
  - exists (fold_left (with_label m o) (keys o) []).
    split; [apply mapCustomFieldsToKeys_fold, Hm|]. split.
    + intros k value H.
      destruct (fold_with_label_sound _ _ _ _ _ _ H) as [H0|(label & _ & He)];
        [discriminate H0|].
      unfold mapped_entry in He.
      destruct (m !! label_key label) as [apiKey|] eqn:E1; [|discriminate].
      destruct (assoc label o) as [v|] eqn:E2; [|discriminate].
      destruct (truthy apiKey) eqn:T; [|discriminate].
      destruct (js_String apiKey) as [k'|] eqn:E3; [|discriminate].
      injection He as <- <-. exists label, apiKey. auto.
    + intros label value apiKey k Ho Hl T Hk.
      apply (fold_with_label_complete m o (keys o) [] label k value).
      * eapply assoc_Some_In, Ho.
      * unfold mapped_entry. rewrite Hl, Ho, T, Hk. reflexivity.
  - reflexivity.
  - intros [[| [] |n|s| |]|]; cbn; try discriminate; reflexivity.
  - intros [[| | | |l|o']|] Ho Hl; try reflexivity.
    + destruct (Hl l eq_refl).
    + destruct (Ho o' eq_refl).
Qed.

Lemma catalog_map_ok : fieldmap_ok Sample.catalog_map.
Proof.
  unfold fieldmap_ok, Sample.catalog_map.
  repeat (apply map_Forall_insert_2; [eexists; reflexivity|]).
  apply map_Forall_empty.
Qed.

Lemma mapCustomFieldsToKeys_maps_witness :
  mapCustomFieldsToKeys
    (Some (JObj [(" Commission TYPE", JStr "Custom"); ("Shoe size", JNum 43)]))
    (Some Sample.catalog_map)
  = Val [("commission-type", JStr "Custom")].
Proof.
  destruct (mapCustomFieldsToKeys_maps Sample.catalog_map
              [(" Commission TYPE", JStr "Custom"); ("Shoe size", JNum 43)]
              catalog_map_ok)
    as ((mappedFields & E & _) & _).
  - split.
    + intros label [<-|[<-|[]]] H; vm_compute in H;
        repeat (destruct H as [H|H]; [discriminate H|]); exact H.
    + intros n apiKey H. unfold Sample.catalog_map, fieldmap in H.
      apply lookup_insert_Some in H. destruct H as [[_ <-]|[_ H]];
        [discriminate|].
      apply lookup_insert_Some in H. destruct H as [[_ <-]|[_ H]];
        [discriminate|].
      rewrite lookup_empty in H. discriminate H.
  - rewrite E. vm_compute in E. injection E as <-. reflexivity.
Defined.

(** ** Requests that never reach the vendor *)

(** X9: a POST body that is not the text of a JSON object.  When
    [JSON.parse] throws, the handler answers 500 with the message of the
    parser; when the body is the text [null], it answers 500 with the
    message of the failed property access; when it is any other value that
    is not an object, it answers 400 with ["Missing or invalid program
    selection"].  In none of these cases is the vendor called or the state
    changed. *)
Theorem unusable_body vendor now key w (e : exn) (data : json) :
  key <> "" ->
  let answer body :=
    handler vendor now (Some key) {| httpMethod := "POST"; event_body := body |} w in
  answer (Throw e) = (Val (internal_error e), w)
  /\ answer (Val JNull) = (Val (internal_error (cannot_read_null "mode")), w)
  /\ ((forall o, data <> JObj o) -> data <> JNull ->
      answer (Val data) = (Val missing_program_response, w))
  /\ statusCode (internal_error e) = 500
  /\ statusCode missing_program_response = 400.
Proof.
  intros Hk answer. unfold answer, handler. cbn [httpMethod].
  change (String.eqb "POST" "POST") with true.
  change (String.eqb "POST" "OPTIONS") with false. cbn [negb].
  apply String.eqb_neq in Hk. rewrite Hk.
  split; [reflexivity|]. split; [reflexivity|]. split; [|split; reflexivity].
  intros Ho Hn. destruct data; try congruence; reflexivity.
Qed.

Lemma unusable_body_witness :
  handler Sample.vendor 1000 (Some "key")
    {| httpMethod := "POST"; event_body := Val (JArr [JNum 1]) |} Sample.cold
  = (Val missing_program_response, Sample.cold).
Proof.
  refine (proj1 (proj2 (proj2 (unusable_body Sample.vendor 1000 "key"
                                 Sample.cold (Error "") (JArr [JNum 1]) _)))
            _ _); discriminate.
Defined.

Lemma getCountryISOCode_not_string country :
  truthy country = true -> (forall s, country <> JStr s) ->
  getCountryISOCode (Some country)
  = Throw (not_a_function (if length_is_2 country
                           then "countryName.toUpperCase"
                           else "countryName.trim")).
Proof.
  intros T N. unfold getCountryISOCode. cbn [truthy_opt]. rewrite T.
  cbn [negb]. destruct country; try reflexivity;
    try (destruct (length_is_2 _); reflexivity).
  destruct (N s eq_refl).
Qed.

(** X10: a [country] that is truthy and not a string has neither [trim]
    nor [toUpperCase]: [getCountryISOCode] throws.  A request of the
    create_affiliate_only mode or of the default mode that passes the
    checks of its required fields with such a country is answered 500 with
    the message of that exception, before any call to the vendor. *)
Theorem country_not_a_string vendor now key ev w data country :
  httpMethod ev = "POST" ->
  key <> "" ->
  event_body ev = Val data ->
  prop data "country" = Some country ->
  truthy country = true ->
  (forall s, country <> JStr s) ->
  (mode_of data = CreateAffiliateOnly
   /\ List.filter (missing_field data) requiredFieldsStageA = [])
  \/ (mode_of data = Legacy
      /\ (exists programId,
             resolveProgram (prop data "program") = Val (Some programId))
      /\ List.filter (missing_field data) requiredFields = []) ->
  let e := not_a_function (if length_is_2 country
                           then "countryName.toUpperCase"
                           else "countryName.trim") in
  getCountryISOCode (Some country) = Throw e
  /\ handler vendor now (Some key) ev w = (Val (internal_error e), w).
Proof.
  intros Hm Hk E Hc T N Hmode e.
  pose proof (getCountryISOCode_not_string _ T N) as G. fold e in G.
  split; [exact G|].
  assert (Nn : data <> JNull) by (intros ->; discriminate Hc).
  rewrite (handler_eq _ _ _ _ _ Hm Hk E Nn).
  assert (B : buildTapfiliatePayload data = Throw e).
  { unfold buildTapfiliatePayload. rewrite Hc, G. reflexivity. }
  destruct Hmode as [[-> Hf]|(-> & (programId & Hp) & Hf)]; cbn [run_mode];
    unfold catch.
  - unfold create_affiliate_only. rewrite Hf. cbn [is_nil negb].
    unfold mbind, M_bind, lift. rewrite B. reflexivity.
  - unfold legacy, mbind, M_bind, lift. rewrite Hp, Hf. cbn [is_nil negb].
    rewrite B. reflexivity.
Qed.

Lemma country_not_a_string_witness :
  handler Sample.vendor 1000 (Some "key")
    (Sample.post [ ("mode", JStr "create_affiliate_only");
                    ("first_name", JStr "Ada"); ("last_name", JStr "Byron");
                    ("email", JStr "ada@example.org");
                    ("password", JStr "secret"); ("country", JNum 44) ])
    Sample.cold
  = (Val (internal_error (not_a_function "countryName.trim")), Sample.cold).
Proof.
  refine (proj2 (country_not_a_string Sample.vendor 1000 "key"
                   (Sample.post [ ("mode", JStr "create_affiliate_only");
                                   ("first_name", JStr "Ada");
                                   ("last_name", JStr "Byron");
                                   ("email", JStr "ada@example.org");
                                   ("password", JStr "secret");
                                   ("country", JNum 44) ])
                   Sample.cold _ (JNum 44) eq_refl _ eq_refl eq_refl eq_refl
                   _ _)).
  - discriminate.
  - discriminate.
  - left. split; reflexivity.
Defined.

(** ** What the calls carry *)

Lemma handler_issued vendor now key ev w c :
  In c (issued w (handler vendor now key ev w).2) ->
  handler_call vendor now (request_data ev) w c.
Proof.
  destruct (handler_run vendor now key ev w)
    as (resp & w' & E & (new & Hnew & Hcalls) & _).
  rewrite E. cbn [snd]. rewrite (issued_app _ _ _ Hnew). intros Hin.
  rewrite Forall_forall in Hcalls. apply list_elem_of_In in Hin.
  exact (Hcalls _ Hin).
Qed.

Lemma resolveProgram_Some program programId :
  resolveProgram program = Val (Some programId) ->
  exists p key,
    program = Some p
    /\ js_String p = Some key
    /\ programId = default key (assoc key PROGRAM_ID_MAP)
    /\ (truthy p = true \/ is_Some (assoc key PROGRAM_ID_MAP)).
Proof.
  unfold resolveProgram, mbind, result_bind, to_string.
  destruct program as [p|].
  - destruct (js_String p) as [key|] eqn:Hs; [|discriminate].
    destruct (assoc key PROGRAM_ID_MAP) as [id|] eqn:Ha.
    + intros [= <-]. exists p, key. rewrite Ha. eauto 10.
    + cbn [truthy_opt]. destruct (truthy p) eqn:T; [|discriminate].
      intros [= <-]. exists p, key. rewrite Ha. auto.
  - cbn. discriminate.
Qed.

(** X11: the program of an enrollment call.  The call goes to the program
    that [PROGRAM_ID_MAP] lists for the string form of the [program] of the
    request, and, when the map has no such code, to the program named by
    that string itself, which is not checked any further.  This is for a
    code that is no name that every object inherits. *)
Theorem enrollment_program vendor now key ev w programId affiliate_id :
  (forall p k, prop (request_data ev) "program" = Some p ->
               js_String p = Some k -> ~ In k inherited_names) ->
  In (PostEnroll programId affiliate_id)
     (issued w (handler vendor now key ev w).2) ->
  exists program code,
    prop (request_data ev) "program" = Some program
    /\ js_String program = Some code
    /\ programId = default code (assoc code PROGRAM_ID_MAP)
    /\ call_url (PostEnroll programId affiliate_id)
       = TAPFILIATE_BASE_URL +:+ "programs/" +:+ programId
         +:+ "/affiliates/?send_welcome_email=false".
Proof.
  intros _ Hin. apply handler_issued in Hin.
  inversion Hin as [| | | | |pid id Hp|]; subst.
  destruct (resolveProgram_Some _ _ Hp) as (p & code & E & Hs & Hid & _).
  exists p, code. auto.
Qed.

Lemma enrollment_program_witness :
  exists program code,
    prop (request_data Sample.finalize_request) "program" = Some program
    /\ js_String program = Some code
    /\ "stasher-affiliate-program" = default code (assoc code PROGRAM_ID_MAP).
Proof.
  destruct (enrollment_program Sample.vendor 1000 (Some "key")
              Sample.finalize_request Sample.cold
              "stasher-affiliate-program" (JStr "aff1"))
    as (program & code & H1 & H2 & H3 & _).
  - intros p k Hp Hs. vm_compute in Hp. injection Hp as <-.
    vm_compute in Hs. injection Hs as <-. vm_compute.
    intros H. repeat (destruct H as [H|H]; [discriminate H|]). exact H.
  - vm_compute. do 3 right. left. reflexivity.
  - exists program, code. auto.
Defined.

Lemma updatePayloadFor_keys data customFields k :
  In k (keys (updatePayloadFor data customFields)) -> In k update_keys.
Proof.
  unfold updatePayloadFor, update_keys.
  repeat match goal with
         | |- context [match ?x with _ => _ end] => destruct x
         | |- context [if ?c then _ else _] => destruct c
         end;
    cbn; intuition auto.
Qed.

Lemma updatePayloadFor_address data customFields a :
  assoc "address" (updatePayloadFor data customFields) = Some a ->
  prop data "address" = Some a /\ truthy a = true.
Proof.
  unfold updatePayloadFor.
  destruct (prop data "address") as [address|];
    [destruct (truthy address) eqn:T|];
    repeat match goal with
           | |- context [match ?x with _ => _ end] => destruct x
           | |- context [if ?c then _ else _] => destruct c
           end;
    cbn; try discriminate; intros [= <-]; auto.
Qed.

(** X12: a profile update carries data under the names [address],
    [company] and [custom_fields] only, so never a [parent_id], a password
    or a program; and an [address] in it is the truthy [address] of the
    request, as received. *)
Theorem profile_update_payload vendor now key ev w id payload :
  In (PatchAffiliate id payload) (issued w (handler vendor now key ev w).2) ->
  exists o,
    payload = JObj o
    /\ (forall k, In k (keys o) -> In k update_keys)
    /\ ~ In "parent_id" (keys o)
    /\ (forall a, assoc "address" o = Some a ->
                  prop (request_data ev) "address" = Some a
                  /\ truthy a = true).
Proof.
  intros Hin. apply handler_issued in Hin.
  assert (P : forall o : list (string * json),
             (forall k, In k (keys o) -> In k update_keys) ->
             ~ In "parent_id" (keys o)).
  { intros o H Hp. specialize (H _ Hp). cbn in H.
    repeat (destruct H as [H|H]; [discriminate H|]). exact H. }
  inversion Hin as [| |aid i cf Ha Hi Hf|aid i cf Ha Hi Hu Hn| | |]; subst.
  - eexists. split; [reflexivity|].
    assert (K : forall k, In k (keys (updatePayloadFor (request_data ev) cf)) ->
                          In k update_keys)
      by (intros k; apply updatePayloadFor_keys).
    split; [exact K|]. split; [exact (P _ K)|].
    apply updatePayloadFor_address.
  - eexists. split; [reflexivity|].
    assert (K : forall k, In k (keys [("custom_fields", JObj cf)]) ->
                          In k update_keys)
      by (intros k [<-|[]]; cbn; auto).
    split; [exact K|]. split; [exact (P _ K)|].
    cbn. discriminate.
Qed.

Lemma profile_update_payload_witness :
  exists o,
    JObj [("company", JObj [("name", JStr "Engines")])] = JObj o
    /\ ~ In "parent_id" (keys o).
Proof.
  destruct (profile_update_payload Sample.vendor 1000 (Some "key")
              Sample.finalize_request Sample.cold "aff1"
              (JObj [("company", JObj [("name", JStr "Engines")])]))
    as (o & E & _ & H & _).
  - vm_compute. right. left. reflexivity.
  - exists o. auto.
Defined.

Lemma updatePayloadFor_no_custom_fields data :
  assoc "custom_fields" (updatePayloadFor data []) = None.
Proof.
  unfold updatePayloadFor. cbn [is_nil].
  repeat match goal with
         | |- context [match ?x with _ => _ end] => destruct x
         | |- context [if ?c then _ else _] => destruct c
         end;
    reflexivity.
Qed.

(** X13: custom fields are best effort.  When the run has no field
    catalog, because the catalog request failed, was refused, or its answer
    could not be turned into a field map, no call of the run carries a
    [custom_fields] object. *)
Theorem no_catalog_no_custom_fields vendor now key ev w c :
  catalog vendor now w = None ->
  In c (issued w (handler vendor now key ev w).2) ->
  custom_fields_of c = None.
Proof.
  intros Hcat Hin. apply handler_issued in Hin.
  inversion Hin as [|p0 p Hb Hw|aid i cf Ha Hi Hf|aid i cf Ha Hi Hu Hn
                   | | |]; subst;
    try reflexivity; rewrite Hcat in *; unfold custom_fields_of;
    cbn [call_body].
  - cbn in Hw. injection Hw as <-.
    destruct (buildTapfiliatePayload_fields _ _ Hb)
      as (_ & _ & _ & _ & _ & _ & _ & -> & _). reflexivity.
  - cbn in Hf. injection Hf as <-.
    rewrite updatePayloadFor_no_custom_fields. reflexivity.
  - cbn in Hu. injection Hu as <-. discriminate Hn.
Qed.

Lemma no_catalog_no_custom_fields_witness :
  let vendor := fun h c =>
                  match c with
                  | GetCustomFields => Throw (Error "fetch failed")
                  | _ => Sample.vendor h c
                  end in
  let payload :=
    JObj [ ("firstname", JStr "Ada"); ("lastname", JStr "Byron");
           ("email", JStr "ada@example.org"); ("password", JStr "secret");
           ("address",
            JObj [ ("address", JStr "n/a"); ("postal_code", JStr "n/a");
                   ("city", JStr "n/a");
                   ("country", JObj [("code", JStr "GB")]) ]);
           ("company", JObj [("name", JStr "n/a")]) ] in
  issued Sample.cold
    (handler vendor 1000 (Some "key") (Sample.create_request (JStr "42"))
       Sample.cold).2
  = [GetCustomFields; PostAffiliate payload; PostParent "aff1" "42"]
  /\ custom_fields_of (PostAffiliate payload) = None.
Proof.
  intros vendor payload. split; [vm_compute; reflexivity|].
  apply (no_catalog_no_custom_fields vendor 1000 (Some "key")
           (Sample.create_request (JStr "42")) Sample.cold
           (PostAffiliate payload)).
  - reflexivity.
  - vm_compute. right. left. reflexivity.
Defined.

(** ** The form of a response *)

Lemma not_ok_not_200 r : negb (ok r) = true -> (status r =? 200) = false.
Proof.
  unfold ok. intros H. destruct (Z.eqb_spec (status r) 200) as [E|]; [|reflexivity].
  rewrite E in H. discriminate H.
Qed.

Lemma respond_error code fields :
  (code =? 200) = false ->
  assoc "success" fields = None ->
  is_Some (assoc "error" fields) ->
  well_formed (respond code fields).
Proof.
  intros Hc Hs He. split; [reflexivity|]. exists fields.
  split; [reflexivity|]. cbn [statusCode respond]. rewrite Hc. auto.
Qed.

Lemma respond_success fields :
  assoc "success" fields = Some (JBool true) ->
  assoc "error" fields = None ->
  well_formed (respond 200 fields).
Proof.
  intros Hs He. split; [reflexivity|]. exists fields.
  split; [reflexivity|]. cbn. auto.
Qed.

Lemma create_failure_well_formed r :
  negb (ok r) = true -> well_formed (create_failure r).
Proof.
  intros H. unfold create_failure.
  destruct (is_html r); apply respond_error; cbn; eauto.
  apply not_ok_not_200, H.
Qed.

Lemma enroll_failure_well_formed r :
  negb (ok r) = true -> well_formed (enroll_failure r).
Proof.
  intros H. unfold enroll_failure.
  destruct (is_html r); apply respond_error; cbn; eauto.
  destruct (status r =? 0); [reflexivity|]. apply not_ok_not_200, H.
Qed.

Lemma internal_error_well_formed e : well_formed (internal_error e).
Proof. apply respond_error; cbn; eauto. Qed.

Ltac format_leaf :=
  first
    [ exact I
    | apply create_failure_well_formed; assumption
    | apply enroll_failure_well_formed; assumption
    | apply respond_success; reflexivity
    | apply respond_error;
      [ first [reflexivity | apply not_ok_not_200; assumption]
      | reflexivity
      | cbn; eauto ] ].

Lemma run_mode_well_formed vendor now m data w :
  wp (run_mode vendor now m data) w
     (fun r _ => match r with
                 | Val resp => well_formed resp
                 | Throw _ => True
                 end).
Proof.
  destruct m; cbn [run_mode].
  - unfold create_affiliate_only. wp_run. all: format_leaf.
  - unfold finalize_affiliate. wp_run. all: format_leaf.
  - unfold update_custom_fields. wp_run. all: format_leaf.
  - unfold legacy. wp_run. all: format_leaf.
Qed.

(** X14: the handler answers every request, whatever the vendor does: no
    exception leaves it.  Every answer has the same four CORS headers and
    a JSON object as body; the body has [success: true] and no [error] when
    the status is 200, and an [error] and no [success] otherwise. *)
Theorem response_format vendor now key ev w :
  exists resp w',
    handler vendor now key ev w = (Val resp, w')
    /\ headers resp = cors_headers
    /\ exists o,
         body resp = JSON_stringify (JObj o)
         /\ if statusCode resp =? 200
            then assoc "success" o = Some (JBool true)
                 /\ assoc "error" o = None
            else assoc "success" o = None /\ is_Some (assoc "error" o).
Proof.
  apply (handler_wp vendor now key ev w (fun resp _ => well_formed resp)).
  - apply respond_error; cbn; eauto.
  - apply respond_error; cbn; eauto.
  - apply internal_error_well_formed.
  - intros data _ _. eapply wp_mono; [apply run_mode_well_formed|].
    intros [resp|e] w' H; [exact H|apply internal_error_well_formed].
Qed.

(** ** The calls of a run, in order *)

Ltac open_options :=
  unfold link_call, parent_call, website_call, patch_call;
  repeat match goal with
         | |- context [option_list (match ?x with _ => _ end)] => destruct x
         | |- context [option_list (if ?c then _ else _)] => destruct c
         end.

Ltac order_leaf :=
  calls_extend;
  try match goal with
      | H : _ = [] \/ _ = [GetCustomFields] |- _ => destruct H; subst
      end;
  open_options; split; reflexivity.

Lemma run_mode_in_order vendor now m data w :
  wp (run_mode vendor now m data) w (in_order m w).
Proof.
  destruct m; cbn [run_mode]; unfold in_order.
  - unfold create_affiliate_only. wp_run. all: order_leaf.
  - unfold finalize_affiliate. wp_run. all: order_leaf.
  - unfold update_custom_fields. wp_run. all: order_leaf.
  - unfold legacy. wp_run. all: order_leaf.
Qed.

Lemma handler_in_order vendor now key ev w :
  exists resp w',
    handler vendor now key ev w = (Val resp, w')
    /\ in_order (mode_of (request_data ev)) w (Val resp) w'.
Proof.
  apply (handler_wp vendor now key ev w
           (fun resp w' => in_order (mode_of (request_data ev)) w (Val resp) w')).
  - exists []. split; [symmetry; apply app_nil_r|]. split; reflexivity.
  - exists []. split; [symmetry; apply app_nil_r|]. split; reflexivity.
  - intros e. exists []. split; [symmetry; apply app_nil_r|]. split; reflexivity.
  - intros data E _. unfold request_data. rewrite E.
    eapply wp_mono; [apply run_mode_in_order|].
    intros [resp|e] w' H; exact H.
Qed.

Lemma increasing_head a r :
  increasing (a :: r) = true ->
  Forall (fun x => (a < x)%nat) r /\ increasing r = true.
Proof.
  revert a. induction r as [|b r IH]; intros a H; [split; [constructor|reflexivity]|].
  cbn [increasing] in H. apply andb_prop in H. destruct H as [Hab Hi].
  apply Nat.ltb_lt in Hab. split; [|exact Hi].
  destruct (IH b Hi) as [Hb _]. constructor; [exact Hab|].
  eapply Forall_impl; [exact Hb|]. cbn. intros x Hx. lia.
Qed.

Lemma increasing_length l : forall lo n,
  increasing l = true ->
  Forall (fun x => (lo <= x < n)%nat) l ->
  (length l <= n - lo)%nat.
Proof.
  induction l as [|a r IH]; intros lo n Hi Hb; [cbn; lia|].
  apply Forall_cons_1 in Hb. destruct Hb as [Ha Hb].
  destruct (increasing_head _ _ Hi) as [Hr Hi'].
  assert (Hb' : Forall (fun x => (S a <= x < n)%nat) r).
  { rewrite Forall_forall in Hb, Hr. apply Forall_forall. intros x Hx.
    specialize (Hb x Hx). specialize (Hr x Hx). cbn in Hr. lia. }
  specialize (IH (S a) n Hi' Hb'). cbn [length]. lia.
Qed.

Lemma increasing_NoDup l : increasing l = true -> List.NoDup l.
Proof.
  induction l as [|a r IH]; intros Hi; [constructor|].
  destruct (increasing_head _ _ Hi) as [Hr Hi']. constructor; [|auto].
  intros Hin. rewrite Forall_forall in Hr. apply list_elem_of_In in Hin.
  specialize (Hr a Hin). cbn in Hr. lia.
Qed.

(** X15: the calls of a run come in one order: the catalog request, then
    the creation or the profile update, then the website, the enrollment
    and the parent link.  No kind of call is issued twice, so a run issues
    five calls at most. *)
Theorem calls_in_order vendor now key ev w :
  let new := issued w (handler vendor now key ev w).2 in
  calls (handler vendor now key ev w).2 = (calls w ++ new)%list
  /\ increasing (call_rank <$> new) = true
  /\ (length new <= 5)%nat
  /\ List.NoDup (call_rank <$> new).
Proof.
  destruct (handler_in_order vendor now key ev w)
    as (resp & w' & E & new & Hnew & Hi & _).
  rewrite E. cbn [snd]. rewrite (issued_app _ _ _ Hnew).
  split; [exact Hnew|]. split; [exact Hi|].
  assert (B : Forall (fun a => (0 <= a < 5)%nat) (call_rank <$> new)).
  { apply Forall_fmap. apply Forall_forall. intros c _. destruct c; cbn; lia. }
  split.
  - pose proof (increasing_length _ 0 5 Hi B) as L.
    rewrite length_fmap in L. exact L.
  - apply increasing_NoDup, Hi.
Qed.

(** X16: each mode keeps to its calls.  The create_affiliate_only mode
    issues the catalog request, the creation and the parent link only, so
    it never enrolls; the update_custom_fields mode issues the catalog
    request and the profile update only; the finalize_affiliate mode never
    creates an affiliate; and the default mode never updates a profile. *)
Theorem calls_by_mode vendor now key ev w c :
  In c (issued w (handler vendor now key ev w).2) ->
  allowed_in (mode_of (request_data ev)) c = true.
Proof.
  destruct (handler_in_order vendor now key ev w)
    as (resp & w' & E & new & Hnew & _ & Ha).
  rewrite E. cbn [snd]. rewrite (issued_app _ _ _ Hnew). intros Hin.
  rewrite forallb_forall in Ha. exact (Ha _ Hin).
Qed.

Lemma calls_by_mode_witness :
  issued Sample.cold
    (handler Sample.vendor 1000 (Some "key")
       (Sample.create_request (JStr "42")) Sample.cold).2
  = [GetCustomFields; PostAffiliate Sample.created_payload;
     PostParent "aff1" "42"]
  /\ allowed_in CreateAffiliateOnly (PostParent "aff1" "42") = true
  /\ forall programId id,
       allowed_in CreateAffiliateOnly (PostEnroll programId id) = false.
Proof.
  split; [vm_compute; reflexivity|]. split; [|reflexivity].
  apply (calls_by_mode Sample.vendor 1000 (Some "key")
           (Sample.create_request (JStr "42")) Sample.cold).
  vm_compute. right. right. left. reflexivity.
Defined.

(** ** The creation call and what follows it *)

(** Decide the matches of a goal by the equations at hand. *)
Ltac by_equations :=
  repeat match goal with
         | H : ?x = _ |- context [match ?x with _ => _ end] => rewrite H
         | H : negb ?b = _ |- context [if ?b then _ else _] =>
             destruct b; try discriminate H
         end.

Ltac creation_leaf :=
  first
    [ left; calls_extend; first [left; reflexivity|assumption]
    | right;
      match goal with
      | Hg : calls ?w1 = (calls _ ++ ?g)%list |- _ => exists w1, g
      end;
      eexists _, _;
      split;
      [ repeat first [rewrite calls_add_call | rewrite calls_after_call];
        rewrite <- ?app_assoc; reflexivity |];
      split; [assumption|];
      split; [assumption|];
      split; [reflexivity|];
      split; [unfold no_create; split_calls; reflexivity|];
      unfold creation_result; by_equations;
      first
        [ split; reflexivity
        | split_calls; cbn [uses_id]; first [reflexivity|assumption] ] ].

Lemma create_creation_shape vendor now data w :
  wp (create_affiliate_only vendor now data) w (creation_shape vendor w).
Proof.
  unfold create_affiliate_only, creation_shape. wp_run.
  all: creation_leaf.
Qed.

Lemma legacy_creation_shape vendor now data w :
  wp (legacy vendor now data) w (creation_shape vendor w).
Proof.
  unfold legacy, creation_shape. wp_run.
  all: creation_leaf.
Qed.

Lemma handler_mode vendor now key ev w data :
  httpMethod ev = "POST" ->
  key <> "" ->
  event_body ev = Val data ->
  data <> JNull ->
  exists r w',
    run_mode vendor now (mode_of data) data w = (r, w')
    /\ handler vendor now (Some key) ev w
       = (Val match r with
              | Val resp => resp
              | Throw e => internal_error e
              end, w').
Proof.
  intros Hm Hk E N. rewrite (handler_eq _ _ _ _ _ Hm Hk E N). unfold catch.
  destruct (run_mode vendor now (mode_of data) data w) as [[resp|e] w'];
    eexists _, _; split; reflexivity.
Qed.

Lemma handler_null vendor now key ev w :
  httpMethod ev = "POST" ->
  key <> "" ->
  event_body ev = Val JNull ->
  handler vendor now (Some key) ev w
  = (Val (internal_error (cannot_read_null "mode")), w).
Proof.
  intros Hm Hk E. unfold handler, dispatch. rewrite Hm, E.
  apply String.eqb_neq in Hk. cbn. rewrite Hk. reflexivity.
Qed.

Lemma mode_not_null data m : mode_of data = m -> m <> Legacy -> data <> JNull.
Proof. intros <- H ->. apply H. reflexivity. Qed.

(** What the handler does with its creation call, in the two modes that
    create. *)
Lemma handler_creation vendor now key ev w data c :
  httpMethod ev = "POST" ->
  key <> "" ->
  event_body ev = Val data ->
  mode_of data = CreateAffiliateOnly \/ mode_of data = Legacy ->
  let run := handler vendor now (Some key) ev w in
  In c (issued w run.2) ->
  is_create c = true ->
  exists pre tail r,
    issued w run.2 = (pre ++ c :: tail)%list
    /\ (pre = [] \/ pre = [GetCustomFields])
    /\ no_create tail
    /\ run.1 = Val match r with
                   | Val resp => resp
                   | Throw e => internal_error e
                   end
    /\ creation_result (vendor (calls w ++ pre)%list c) r tail.
Proof.
  intros Hm Hk E Hmode run Hin Hc.
  assert (N : data <> JNull).
  { intros ->. unfold run in Hin.
    rewrite (handler_null _ _ _ _ _ Hm Hk E) in Hin. cbn [snd] in Hin.
    rewrite issued_refl in Hin. destruct Hin. }
  destruct (handler_mode vendor now key ev w data Hm Hk E N)
    as (r & w' & Er & Eh).
  assert (S : creation_shape vendor w r w').
  { pose proof (create_creation_shape vendor now data w) as S1.
    pose proof (legacy_creation_shape vendor now data w) as S2.
    unfold wp in S1, S2.
    destruct Hmode as [Hmo|Hmo]; rewrite Hmo in Er; cbn [run_mode] in Er;
      [rewrite Er in S1; exact S1|rewrite Er in S2; exact S2]. }
  unfold run in *. rewrite Eh in *. cbn [fst snd] in *.
  destruct S as [(new & Hnew & Hn)
                |(w2 & pre & c0 & tail & Hcalls & Hw2 & Hpre & Hc0 & Ht & Hres)].
  - rewrite (issued_app _ _ _ Hnew) in Hin.
    destruct Hn as [-> | ->]; [destruct Hin|].
    destruct Hin as [<-|[]]. discriminate Hc.
  - rewrite Hw2, <- !app_assoc in Hcalls.
    rewrite (issued_app _ _ _ Hcalls) in Hin |- *.
    assert (c = c0) as ->.
    { apply in_app_or in Hin. destruct Hin as [Hin|[Hin|Hin]]; auto.
      - destruct Hpre as [-> | ->]; [destruct Hin|].
        destruct Hin as [<-|[]]. discriminate Hc.
      - unfold no_create in Ht. rewrite Forall_forall in Ht.
        apply list_elem_of_In in Hin. specialize (Ht _ Hin). congruence. }
    exists pre, tail, r. rewrite <- Hw2. auto.
Qed.

(** X17: the outcome of a creation call, in the create_affiliate_only
    mode and in the default mode.  The call comes first, after the catalog
    request at most.  When it fails on the network, or its success answer
    has no JSON body, the run ends there with the internal-error answer;
    when the body has no truthy [id], it ends there with the 500 answer
    ["Invalid response from Tapfiliate API"]; when the vendor refuses it,
    the run ends there with an answer that has the vendor's status, or 500
    for an HTML page, and carries the vendor's status in its body.  In none
    of these cases does an enrollment or a parent link follow. *)
Theorem creation_outcome vendor now key ev w data c :
  httpMethod ev = "POST" ->
  key <> "" ->
  event_body ev = Val data ->
  mode_of data = CreateAffiliateOnly \/ mode_of data = Legacy ->
  let run := handler vendor now (Some key) ev w in
  In c (issued w run.2) ->
  is_create c = true ->
  exists pre tail,
    issued w run.2 = (pre ++ c :: tail)%list
    /\ (pre = [] \/ pre = [GetCustomFields])
    /\ match vendor (calls w ++ pre)%list c with
       | Throw e => tail = [] /\ run.1 = Val (internal_error e)
       | Val ans =>
           if ok ans then
             match parsed ans with
             | Throw e => tail = [] /\ run.1 = Val (internal_error e)
             | Val affiliate =>
                 created_id affiliate = None ->
                 tail = [] /\ run.1 = Val invalid_response
             end
           else
             tail = []
             /\ run.1 = Val (create_failure ans)
             /\ statusCode (create_failure ans)
                = (if is_html ans then 500 else status ans)
             /\ exists error,
                  body (create_failure ans)
                  = JSON_stringify (JObj [ ("error", error);
                                           ("status", JNum (status ans)) ])
       end.
Proof.
  intros Hm Hk E Hmode run Hin Hc.
  destruct (handler_creation vendor now key ev w data c Hm Hk E Hmode Hin Hc)
    as (pre & tail & r & Hi & Hpre & _ & Hr & Hres).
  fold run in Hi, Hr. exists pre, tail. split; [exact Hi|]. split; [exact Hpre|].
  unfold creation_result in Hres.
  destruct (vendor (calls w ++ pre)%list c) as [ans|e].
  - destruct (ok ans).
    + destruct (parsed ans) as [affiliate|e].
      * intros Hid. rewrite Hid in Hres. destruct Hres as [-> ->]. auto.
      * destruct Hres as [-> ->]. auto.
    + destruct Hres as [-> ->]. split; [reflexivity|]. split; [exact Hr|].
      unfold create_failure. destruct (is_html ans); cbn; eauto.
  - destruct Hres as [-> ->]. auto.
Qed.

Lemma creation_outcome_witness :
  let refusing := fun h c =>
                    match c with
                    | PostAffiliate _ =>
                        Sample.answer 422
                          (JObj [("errors",
                                  JArr [JObj [("message",
                                               JStr "Email already taken")]])])
                    | _ => Sample.vendor h c
                    end in
  let run := handler refusing 1000 (Some "key")
               (Sample.create_request (JStr "42")) Sample.cold in
  issued Sample.cold run.2
  = [GetCustomFields; PostAffiliate Sample.created_payload]
  /\ run.1 = Val (respond 422 [ ("error", JStr "Email already taken");
                                ("status", JNum 422) ]).
Proof.
  intros refusing run.
  destruct (creation_outcome refusing 1000 "key"
              (Sample.create_request (JStr "42")) Sample.cold _
              (PostAffiliate Sample.created_payload)
              eq_refl ltac:(discriminate) eq_refl (or_introl eq_refl))
    as (pre & tail & Hi & Hpre & H).
  - vm_compute. right. left. reflexivity.
  - reflexivity.
  - fold run in Hi, H. split; [vm_compute; reflexivity|].
    vm_compute. reflexivity.
Defined.

(** X18: every call that follows a creation call is made for the
    affiliate that the vendor's answer to it names: the answer is a
    success whose body has a truthy [id], which is the affiliate of the
    enrollment and, in its string form, the affiliate in the address of the
    website and parent-link calls. *)
Theorem created_id_is_used vendor now key ev w data c :
  httpMethod ev = "POST" ->
  key <> "" ->
  event_body ev = Val data ->
  mode_of data = CreateAffiliateOnly \/ mode_of data = Legacy ->
  let run := handler vendor now (Some key) ev w in
  In c (issued w run.2) ->
  is_create c = true ->
  exists pre tail,
    issued w run.2 = (pre ++ c :: tail)%list
    /\ forall c', In c' tail ->
         exists ans affiliate id,
           vendor (calls w ++ pre)%list c = Val ans
           /\ ok ans = true
           /\ parsed ans = Val affiliate
           /\ prop affiliate "id" = Some id
           /\ truthy id = true
           /\ uses_id id c'.
Proof.
  intros Hm Hk E Hmode run Hin Hc.
  destruct (handler_creation vendor now key ev w data c Hm Hk E Hmode Hin Hc)
    as (pre & tail & r & Hi & _ & _ & _ & Hres).
  fold run in Hi. exists pre, tail. split; [exact Hi|].
  intros c' Hc'. unfold creation_result in Hres.
  destruct (vendor (calls w ++ pre)%list c) as [ans|e] eqn:Hv;
    [|destruct Hres as [-> _]; destruct Hc'].
  destruct (ok ans) eqn:Hok; [|destruct Hres as [-> _]; destruct Hc'].
  destruct (parsed ans) as [affiliate|e] eqn:Hj;
    [|destruct Hres as [-> _]; destruct Hc'].
  destruct (created_id affiliate) as [id|] eqn:Hid;
    [|destruct Hres as [-> _]; destruct Hc'].
  apply created_id_Some in Hid. destruct Hid as [Hp Ht].
  exists ans, affiliate, id.
  do 5 (split; [auto; fail|]).
  rewrite Forall_forall in Hres. apply Hres. apply list_elem_of_In. exact Hc'.
Qed.

Lemma created_id_is_used_witness :
  let request :=
    Sample.post [ ("first_name", JStr "Ada"); ("last_name", JStr "Byron");
                   ("email", JStr "ada@example.org");
                   ("password", JStr "secret"); ("city", JStr "London");
                   ("country", JStr "United Kingdom");
                   ("company", JStr "Engines"); ("program", JStr "GBP");
                   ("parent_id", JNum 42) ] in
  exists pre payload,
    issued Sample.cold
      (handler Sample.vendor 1000 (Some "key") request Sample.cold).2
    = (pre ++ [ PostAffiliate payload;
                PostEnroll "stasher-affiliate-program" (JStr "aff1");
                PostParent "aff1" "42" ])%list
    /\ uses_id (JStr "aff1") (PostParent "aff1" "42").
Proof.
  intros request.
  set (payload :=
         JObj [ ("firstname", JStr "Ada"); ("lastname", JStr "Byron");
                ("email", JStr "ada@example.org"); ("password", JStr "secret");
                ("address",
                 JObj [ ("address", JStr "n/a"); ("postal_code", JStr "n/a");
                        ("city", JStr "London");
                        ("country", JObj [("code", JStr "GB")]) ]);
                ("company", JObj [("name", JStr "Engines")]) ]).
  destruct (created_id_is_used Sample.vendor 1000 "key" request Sample.cold _
              (PostAffiliate payload)
              eq_refl ltac:(discriminate) eq_refl (or_intror eq_refl))
    as (pre & tail & Hi & H).
  - vm_compute. right. left. reflexivity.
  - reflexivity.
  - exists [GetCustomFields], payload. split; [vm_compute; reflexivity|].
    reflexivity.
Defined.

(** ** The profile update of the update mode *)

Ltac update_leaf :=
  first
    [ left; calls_extend; split_calls; reflexivity
    | right;
      match goal with
      | Hg : calls ?w1 = (calls _ ++ ?g)%list |- _ => exists w1, g
      end;
      eexists _, _;
      split; [apply calls_add_call|];
      split; [assumption|];
      split; [assumption|];
      split; [reflexivity|];
      split; [first [reflexivity|eassumption]|];
      unfold update_answer; by_equations; reflexivity ].

Lemma update_mode_patch_shape vendor now data w :
  wp (update_custom_fields vendor now data) w (patch_outcome_shape vendor data w).
Proof.
  unfold update_custom_fields, patch_outcome_shape. wp_run.
  all: update_leaf.
Qed.

(** X19: in the update_custom_fields mode the profile update decides the
    answer, unlike the profile update of the finalize mode, whose outcome
    is ignored.  It is the last call of the run; a success gives the 200
    answer, a refusal gives an answer with the vendor's status and the
    message ["Failed to update commission type"], and a network failure
    gives a 500 answer with a message of its own and the text of the
    exception. *)
Theorem update_patch_outcome vendor now key ev w data c :
  httpMethod ev = "POST" ->
  key <> "" ->
  event_body ev = Val data ->
  mode_of data = UpdateCustomFields ->
  let run := handler vendor now (Some key) ev w in
  In c (issued w run.2) ->
  is_patch c = true ->
  exists pre affiliate_id,
    issued w run.2 = (pre ++ [c])%list
    /\ (pre = [] \/ pre = [GetCustomFields])
    /\ prop data "affiliate_id" = Some affiliate_id
    /\ run.1 = Val (update_answer affiliate_id (vendor (calls w ++ pre)%list c))
    /\ (forall ans, ok ans = false ->
                    statusCode (update_answer affiliate_id (Val ans)) = status ans)
    /\ (forall ans, ok ans = true ->
                    statusCode (update_answer affiliate_id (Val ans)) = 200)
    /\ (forall e, update_answer affiliate_id (Throw e) <> internal_error e).
Proof.
  intros Hm Hk E Hmode run Hin Hc.
  assert (N : data <> JNull) by (intros ->; discriminate Hmode).
  destruct (handler_mode vendor now key ev w data Hm Hk E N)
    as (r & w' & Er & Eh).
  pose proof (update_mode_patch_shape vendor now data w) as S. unfold wp in S.
  rewrite Hmode in Er. cbn [run_mode] in Er. rewrite Er in S. cbn [fst snd] in S.
  unfold run in *. rewrite Eh in *. cbn [fst snd] in *.
  destruct S as [(new & Hnew & Hn)
                |(w2 & pre & c0 & aid & Hcalls & Hw2 & Hpre & Hc0 & Ha & Hr)].
  - rewrite (issued_app _ _ _ Hnew) in Hin. rewrite Forall_forall in Hn.
    apply list_elem_of_In in Hin. specialize (Hn _ Hin). congruence.
  - rewrite Hw2, <- !app_assoc in Hcalls.
    rewrite (issued_app _ _ _ Hcalls) in Hin |- *.
    assert (c = c0) as ->.
    { apply in_app_or in Hin. destruct Hin as [Hin|[Hin|[]]]; auto.
      destruct Hpre as [-> | ->]; [destruct Hin|].
      destruct Hin as [<-|[]]. discriminate Hc. }
    exists pre, aid. rewrite <- Hw2, Hr.
    do 4 (split; [auto; fail|]).
    split; [|split].
    + intros ans Hok. cbn. rewrite Hok. reflexivity.
    + intros ans Hok. cbn. rewrite Hok. reflexivity.
    + intros e. cbn. discriminate.
Qed.

Lemma update_patch_outcome_witness :
  let request := Sample.post [ ("mode", JStr "update_custom_fields");
                                ("affiliate_id", JStr "aff1");
                                ("commission_type", JStr "Custom") ] in
  let call := PatchAffiliate "aff1"
                (JObj [("custom_fields",
                        JObj [("commission-type", JStr "Custom")])]) in
  let run := handler Sample.vendor_without_updates 1000 (Some "key") request
               Sample.cold in
  issued Sample.cold run.2 = [GetCustomFields; call]
  /\ run.1 = Val (respond 500 [ ("error", JStr "Failed to update commission type");
                                ("status", JNum 500) ]).
Proof.
  intros request call run.
  destruct (update_patch_outcome Sample.vendor_without_updates 1000 "key"
              request Sample.cold _ call
              eq_refl ltac:(discriminate) eq_refl eq_refl)
    as (pre & aid & Hi & _ & _ & Hr & _).
  - vm_compute. right. left. reflexivity.
  - reflexivity.
  - split; vm_compute; reflexivity.
Defined.

(** ** What a run does to the cache *)

Lemma cache_of_add_call c w : cache_of (add_call c w) = cache_of w.
Proof. reflexivity. Qed.

Lemma cache_of_after_call c w : cache_of (after_call c w) = cache_of w.
Proof. destruct c; reflexivity. Qed.

Lemma getCustomFieldKeys_cache_step vendor now w :
  cache_step vendor now w (getCustomFieldKeys vendor now w).2.
Proof.
  unfold cache_step, catalog, getCustomFieldKeys.
  destruct (cached now w) as [cache|]; [left; reflexivity|].
  unfold catch, mbind, M_bind, fetch, lift, mret, M_ret, store_cache.
  destruct (vendor (calls w) GetCustomFields) as [response|e];
    [|left; reflexivity].
  destruct (negb (ok response)); [left; reflexivity|].
  destruct (parsed response) as [fields|e]; [|left; reflexivity].
  destruct (build_field_map fields) as [m|e]; [|left; reflexivity].
  right. exists m. split; reflexivity.
Qed.

Ltac cache_step_leaf :=
  unfold cache_step;
  repeat first [rewrite cache_of_add_call | rewrite cache_of_after_call];
  first
    [ left; reflexivity
    | match goal with
      | H : (getCustomFieldKeys ?v ?n ?w).2 = ?w1 |- _ =>
          rewrite <- H; apply getCustomFieldKeys_cache_step
      end ].

Lemma run_mode_cache_step vendor now m data w :
  wp (run_mode vendor now m data) w (fun _ w' => cache_step vendor now w w').
Proof.
  destruct m; cbn [run_mode].
  - unfold create_affiliate_only. wp_run. all: cache_step_leaf.
  - unfold finalize_affiliate. wp_run. all: cache_step_leaf.
  - unfold update_custom_fields. wp_run. all: cache_step_leaf.
  - unfold legacy. wp_run. all: cache_step_leaf.
Qed.

(** X20: what a run does to the module-level cache.  Its two variables
    are left as they were, or hold the field map that the run got from the
    catalog request together with the time of the run: no other value is
    ever stored, and a failed catalog request does not erase the cache. *)
Theorem cache_after_run vendor now key ev w :
  let w' := (handler vendor now key ev w).2 in
  (customFieldsCache w' = customFieldsCache w
   /\ cacheTimestamp w' = cacheTimestamp w)
  \/ exists fieldMap,
       catalog vendor now w = Some fieldMap
       /\ customFieldsCache w' = Some fieldMap
       /\ cacheTimestamp w' = Some now.
Proof.
  destruct (handler_wp vendor now key ev w
              (fun _ w' => cache_step vendor now w w'))
    as (resp & w' & E & H).
  - left. reflexivity.
  - left. reflexivity.
  - intros e. left. reflexivity.
  - intros data _ _. eapply wp_mono; [apply run_mode_cache_step|].
    intros [r|e] w1 H; exact H.
  - rewrite E. cbn [snd]. unfold cache_step, cache_of in H.
    destruct H as [H|(m & Hc & H)]; injection H as H1 H2; eauto.
Qed.

(** ** The demo-call field *)

Lemma addDemoCall_sets m data customFields wantsDemoCall demoCallKey k :
  prop data "wantsDemoCall" = Some wantsDemoCall ->
  wantsDemoCall <> JNull ->
  demo_key m = Some demoCallKey ->
  truthy demoCallKey = true ->
  js_String demoCallKey = Some k ->
  addDemoCall m data customFields
  = Val (obj_set k (demo_answer wantsDemoCall) customFields).
Proof.
  intros Hp Hn Hk Ht Hs. unfold addDemoCall, demo_key in *. rewrite Hp, Hk, Ht.
  unfold set_field, to_string. rewrite Hs.
  destruct wantsDemoCall; try reflexivity. congruence.
Qed.

(** X21: the demo-call field of a creation payload.  When the request has
    a [wantsDemoCall] that is neither undefined nor null, and the catalog
    of the run resolves one of the two labels of the demo-call field, the
    payload carries, under the key of that field, ["Yes"] for a truthy
    value and ["No"] for a falsy one: a [false] is sent, not left out. *)
Theorem demo_call_answer vendor now key ev w payload
    (m : fieldmap) (wantsDemoCall demoCallKey : json) (k : string) :
  catalog vendor now w = Some m ->
  prop (request_data ev) "wantsDemoCall" = Some wantsDemoCall ->
  wantsDemoCall <> JNull ->
  demo_key m = Some demoCallKey ->
  truthy demoCallKey = true ->
  js_String demoCallKey = Some k ->
  In (PostAffiliate payload) (issued w (handler vendor now key ev w).2) ->
  exists customFields,
    custom_fields_of (PostAffiliate payload) = Some customFields
    /\ assoc k customFields
       = Some (JStr (if truthy wantsDemoCall then "Yes" else "No")).
Proof.
  intros Hcat Hp Hn Hk Ht Hs Hin. apply handler_issued in Hin.
  inversion Hin as [|p0 p Hb Hw| | | | |]; subst.
  rewrite Hcat in Hw. unfold withCustomFields in Hw.
  destruct (addCompanyType m _ []) as [cf1|]; [|discriminate].
  cbn [mbind result_bind] in Hw.
  destruct (addCommissionType m _ cf1) as [cf2|]; [|discriminate].
  cbn [mbind result_bind] in Hw.
  rewrite (addDemoCall_sets _ _ _ _ _ _ Hp Hn Hk Ht Hs) in Hw.
  cbn [mbind result_bind] in Hw.
  assert (A : assoc k (obj_set k (demo_answer wantsDemoCall) cf2)
              = Some (demo_answer wantsDemoCall)) by apply assoc_obj_set_eq.
  destruct (obj_set k (demo_answer wantsDemoCall) cf2) as [|x cf3] eqn:Eo;
    [discriminate A|].
  cbn [is_nil] in Hw. injection Hw as <-.
  exists (x :: cf3). split; [|exact A].
  unfold custom_fields_of. cbn [call_body]. rewrite assoc_obj_set_eq.
  reflexivity.
Qed.

Lemma demo_call_answer_witness :
  let request :=
    Sample.post [ ("mode", JStr "create_affiliate_only");
                   ("first_name", JStr "Ada"); ("last_name", JStr "Byron");
                   ("email", JStr "ada@example.org");
                   ("password", JStr "secret");
                   ("wantsDemoCall", JBool false) ] in
  exists payload customFields,
    issued Sample.cold
      (handler Sample.vendor 1000 (Some "key") request Sample.cold).2
    = [GetCustomFields; PostAffiliate payload]
    /\ custom_fields_of (PostAffiliate payload) = Some customFields
    /\ assoc "12" customFields = Some (JStr "No").
Proof.
  intros request.
  set (payload :=
         JObj [ ("firstname", JStr "Ada"); ("lastname", JStr "Byron");
                ("email", JStr "ada@example.org"); ("password", JStr "secret");
                ("address",
                 JObj [ ("address", JStr "n/a"); ("postal_code", JStr "n/a");
                        ("city", JStr "n/a");
                        ("country", JObj [("code", JStr "GB")]) ]);
                ("company", JObj [("name", JStr "n/a")]);
                ("custom_fields", JObj [("12", JStr "No")]) ]).
  destruct (demo_call_answer Sample.vendor 1000 (Some "key") request
              Sample.cold payload Sample.catalog_map (JBool false) (JNum 12)
              "12" eq_refl eq_refl ltac:(discriminate) eq_refl eq_refl eq_refl)
    as (customFields & Hc & Ha).
  - vm_compute. right. left. reflexivity.
  - exists payload, customFields. split; [vm_compute; reflexivity|].
    split; assumption.
Defined.

(** ** A parent id without a string form *)

Ltac never_200_leaf :=
  let resp := fresh "resp" in
  let E := fresh "E" in
  let Hs := fresh "Hs" in
  intros resp E Hs;
  first
    [ discriminate E
    | congruence
    | injection E as <-;
      first [ discriminate Hs
            | eapply create_failure_not_200; eassumption
            | eapply enroll_failure_not_200; eassumption ] ].

Lemma run_mode_parent_throws vendor now m data w e :
  validateParentId (prop data "parent_id") = Throw e ->
  m <> UpdateCustomFields ->
  wp (run_mode vendor now m data) w
     (fun r _ => forall resp, r = Val resp -> statusCode resp <> 200).
Proof.
  intros Hv Hm. destruct m; cbn [run_mode]; [| |congruence|].
  - unfold create_affiliate_only. wp_run. all: never_200_leaf.
  - unfold finalize_affiliate. wp_run. all: never_200_leaf.
  - unfold legacy. wp_run. all: never_200_leaf.
Qed.

(** X22: a [parent_id] without a string form, such as an object that
    holds a [toString] member, is neither accepted nor rejected: its
    conversion throws.  Outside the update mode a request that carries one
    never gets a 200 answer, whatever the vendor answers.  (The sample run
    below shows the 500 answer coming after the creation call.) *)
Theorem parent_id_without_string_form vendor now key ev w raw :
  prop (request_data ev) "parent_id" = Some raw ->
  truthy raw = true ->
  js_String raw = None ->
  mode_of (request_data ev) <> UpdateCustomFields ->
  validateParentId (Some raw) = Throw cannot_convert
  /\ exists resp w',
       handler vendor now key ev w = (Val resp, w')
       /\ statusCode resp <> 200.
Proof.
  intros Hp Ht Hs Hm.
  assert (V : validateParentId (Some raw) = Throw cannot_convert).
  { apply validateParentId_unconvertible; auto. intros s ->. discriminate Hs. }
  split; [exact V|].
  apply (handler_wp vendor now key ev w (fun resp _ => statusCode resp <> 200)).
  - discriminate.
  - discriminate.
  - discriminate.
  - intros data E _. unfold request_data in Hp, Hm. rewrite E in Hp, Hm.
    eapply wp_mono.
    + apply (run_mode_parent_throws vendor now _ data w cannot_convert);
        [rewrite Hp; exact V|exact Hm].
    + intros [resp|e] w' H; [exact (H resp eq_refl)|discriminate].
Qed.

Lemma parent_id_without_string_form_witness :
  let run := handler Sample.vendor 1000 (Some "key")
               (Sample.create_request (JObj [("toString", JNull)]))
               Sample.cold in
  run.1 = Val (internal_error cannot_convert)
  /\ issued Sample.cold run.2
     = [GetCustomFields; PostAffiliate Sample.created_payload]
  /\ exists resp w', run = (Val resp, w') /\ statusCode resp <> 200.
Proof.
  intros run. split; [vm_compute; reflexivity|].
  split; [vm_compute; reflexivity|].
  apply (parent_id_without_string_form Sample.vendor 1000 (Some "key")
           (Sample.create_request (JObj [("toString", JNull)])) Sample.cold
           (JObj [("toString", JNull)]) eq_refl eq_refl eq_refl).
  discriminate.
Defined.

Lemma validateParentId_digits raw p :
  validateParentId raw = Val (Some p) ->
  digits_only p = true /\ validateParentId (Some (JStr p)) = Val (Some p).
Proof.
  intros H.
  assert (D : digits_only p = true /\ exists t, p = trim t).
  { unfold validateParentId in H. destruct raw as [raw|]; [|discriminate].
    destruct (negb (truthy raw)); [discriminate|].
    destruct (match raw with
              | JStr s => Val (trim s)
              | _ => trim <$> to_string raw
              end) as [t|] eqn:Et; [|discriminate].
    cbn [mbind result_bind] in H.
    destruct (_ || _); [discriminate|].
    destruct (digits_only t) eqn:D; [|discriminate].
    injection H as <-. split; [exact D|].
    assert (F : forall r : result string,
               trim <$> r = Val t -> exists t0, t = trim t0).
    { intros [t0|e]; [|discriminate]. intros [= <-]. eauto. }
    destruct raw; try exact (F _ Et).
    injection Et as <-. eauto. }
  destruct D as [D (t & ->)]. split; [exact D|].
  rewrite validateParentId_string, trim_idem, D. reflexivity.
Qed.

(** X23: whatever the [parent_id] of the request is, a string, a number
    or an array, a parent-link call carries a non-empty string of decimal
    digits, which [validateParentId] accepts again unchanged. *)
Theorem parent_link_carries_digits vendor now key ev w id via :
  In (PostParent id via) (issued w (handler vendor now key ev w).2) ->
  digits_only via = true
  /\ via <> ""
  /\ validateParentId (Some (JStr via)) = Val (Some via)
  /\ call_body (PostParent id via) = Some (JObj [("via", JStr via)]).
Proof.
  intros Hin. apply parent_link_valid in Hin.
  destruct (validateParentId_digits _ _ Hin) as [D V].
  split; [exact D|]. split; [|split; [exact V|reflexivity]].
  intros ->. discriminate D.
Qed.

Lemma parent_link_carries_digits_witness :
  issued Sample.cold
    (handler Sample.vendor 1000 (Some "key")
       (Sample.create_request (JArr [JStr " 42 "])) Sample.cold).2
  = [GetCustomFields; PostAffiliate Sample.created_payload;
     PostParent "aff1" "42"]
  /\ digits_only "42" = true.
Proof.
  split; [vm_compute; reflexivity|].
  apply (parent_link_carries_digits Sample.vendor 1000 (Some "key")
           (Sample.create_request (JArr [JStr " 42 "])) Sample.cold
           "aff1" "42").
  vm_compute. right. right. left. reflexivity.
Defined.

(** ** The affiliate of a request *)

Lemma finalize_concerns vendor now data w :
  wp (finalize_affiliate vendor now data) w
     (fun _ w' =>
        exists new,
          calls w' = (calls w ++ new)%list
          /\ Forall (fun c => forall id, prop data "affiliate_id" = Some id ->
                                         concerns id c) new).
Proof.
  unfold finalize_affiliate. wp_run.
  all: calls_extend; split_calls; intros id0 [= <-]; cbn [concerns];
    first [ exact I | reflexivity | assumption | eauto using to_string_Val ].
Qed.

Lemma update_concerns vendor now data w :
  wp (update_custom_fields vendor now data) w
     (fun _ w' =>
        exists new,
          calls w' = (calls w ++ new)%list
          /\ Forall (fun c => forall id, prop data "affiliate_id" = Some id ->
                                         concerns id c) new).
Proof.
  unfold update_custom_fields. wp_run.
  all: calls_extend; split_calls; intros id0 [= <-]; cbn [concerns];
    first [ exact I | reflexivity | assumption | eauto using to_string_Val ].
Qed.

(** X24: the finalize_affiliate and update_custom_fields modes work on
    the affiliate of the request only.  Apart from the catalog request,
    every call of the run is made for the [affiliate_id] of the request:
    its string form is the affiliate in the address of the profile update,
    of the website call and of the parent link, and the value itself is the
    affiliate of the enrollment.  No affiliate is created. *)
Theorem existing_affiliate_only vendor now key ev w data id c :
  event_body ev = Val data ->
  mode_of data = FinalizeAffiliate \/ mode_of data = UpdateCustomFields ->
  prop data "affiliate_id" = Some id ->
  In c (issued w (handler vendor now key ev w).2) ->
  concerns id c.
Proof.
  intros E Hmode Hid Hin.
  destruct (handler_wp vendor now key ev w
              (fun _ w' =>
                 exists new,
                   calls w' = (calls w ++ new)%list
                   /\ Forall (fun c => forall id,
                                prop data "affiliate_id" = Some id ->
                                concerns id c) new))
    as (resp & w' & Eh & new & Hnew & Hall).
  - exists []. split; [symmetry; apply app_nil_r|constructor].
  - exists []. split; [symmetry; apply app_nil_r|constructor].
  - intros e. exists []. split; [symmetry; apply app_nil_r|constructor].
  - intros data0 E0 _. rewrite E in E0. injection E0 as <-.
    destruct Hmode as [-> | ->]; cbn [run_mode]; eapply wp_mono;
      first [apply finalize_concerns | apply update_concerns | idtac];
      intros [r|e] w1 H; exact H.
  - rewrite Eh in Hin. cbn [snd] in Hin. rewrite (issued_app _ _ _ Hnew) in Hin.
    rewrite Forall_forall in Hall. apply list_elem_of_In in Hin.
    exact (Hall _ Hin _ Hid).
Qed.

Lemma existing_affiliate_only_witness :
  issued Sample.cold
    (handler Sample.vendor 1000 (Some "key") Sample.finalize_request
       Sample.cold).2
  = [ GetCustomFields;
      PatchAffiliate "aff1" (JObj [("company", JObj [("name", JStr "Engines")])]);
      PutWebsite "aff1" (JStr "https://example.org");
      PostEnroll "stasher-affiliate-program" (JStr "aff1") ]
  /\ concerns (JStr "aff1") (PutWebsite "aff1" (JStr "https://example.org")).
Proof.
  split; [vm_compute; reflexivity|].
  apply (existing_affiliate_only Sample.vendor 1000 (Some "key")
           Sample.finalize_request Sample.cold _ (JStr "aff1")
           (PutWebsite "aff1" (JStr "https://example.org"))
           eq_refl (or_introl eq_refl) eq_refl).
  vm_compute. right. right. left. reflexivity.
Defined.

(** ** The company type and the company description *)

Lemma addCommissionType_keeps m commission_type customFields customFields' k :
  (forall other, m !! label_key "Commission type" = Some other ->
                 js_String other <> Some k) ->
  addCommissionType m commission_type customFields = Val customFields' ->
  assoc k customFields' = assoc k customFields.
Proof.
  intros Ho. unfold addCommissionType.
  destruct commission_type as [c|]; [|congruence].
  destruct (truthy c); [|congruence].
  destruct (m !! label_key "Commission type") as [key|]; [|congruence].
  destruct (truthy key); [|congruence].
  unfold set_field, to_string. specialize (Ho key eq_refl).
  destruct (js_String key) as [ks|]; [|discriminate].
  cbn [mbind result_bind]. intros [= <-]. apply assoc_obj_set_ne. congruence.
Qed.

Lemma addCompanyType_sets m data customFields company_type raw key k :
  prop data "company_type" = Some company_type ->
  truthy company_type = true ->
  js_String company_type = Some raw ->
  m !! label_key "Company type" = Some key ->
  truthy key = true ->
  js_String key = Some k ->
  addCompanyType m data customFields
  = Val (obj_set k match assoc raw companyTypeLabels with
                   | Some l => JStr l
                   | None => company_type
                   end customFields).
Proof.
  intros Hp Ht Hs Hk Hkt Hks. unfold addCompanyType, set_field, to_string.
  rewrite Hp, Ht, Hk, Hkt, Hs. cbn [mbind result_bind]. rewrite Hks.
  reflexivity.
Qed.


(** X25: the company type of a creation payload.  When the request has a
    truthy [company_type] and the catalog of the run resolves the label of
    the company-type field to a key of its own, the payload carries under
    that key the display label that [companyTypeLabels] lists for the
    company type, and the company type itself when the table has no entry
    for it.  This is for a company type whose string form is no name that
    every object inherits. *)
Theorem company_type_label vendor now key ev w payload
    (m : fieldmap) (company_type companyTypeKey : json) (raw k : string) :
  catalog vendor now w = Some m ->
  prop (request_data ev) "company_type" = Some company_type ->
  truthy company_type = true ->
  js_String company_type = Some raw ->
  ~ In raw inherited_names ->
  m !! label_key "Company type" = Some companyTypeKey ->
  truthy companyTypeKey = true ->
  js_String companyTypeKey = Some k ->
  (forall other, m !! label_key "Commission type" = Some other ->
                 js_String other <> Some k) ->
  (forall other, demo_key m = Some other -> js_String other <> Some k) ->
  In (PostAffiliate payload) (issued w (handler vendor now key ev w).2) ->
  exists customFields,
    custom_fields_of (PostAffiliate payload) = Some customFields
    /\ assoc k customFields
       = Some match assoc raw companyTypeLabels with
              | Some label => JStr label
              | None => company_type
              end.
Proof.
  intros Hcat Hp Ht Hs _ Hk Hkt Hks Hcomm Hdemo Hin.
  apply handler_issued in Hin.
  inversion Hin as [|p0 p Hb Hw| | | | |]; subst.
  rewrite Hcat in Hw. unfold withCustomFields in Hw.
  rewrite (addCompanyType_sets _ _ _ _ _ _ _ Hp Ht Hs Hk Hkt Hks) in Hw.
  cbn [mbind result_bind] in Hw.
  destruct (addCommissionType m _ _) as [cf2|] eqn:E2; [|discriminate].
  cbn [mbind result_bind] in Hw.
  destruct (addDemoCall m _ cf2) as [cf3|] eqn:E3; [|discriminate].
  cbn [mbind result_bind] in Hw.
  apply (addCommissionType_keeps _ _ _ _ k Hcomm) in E2.
  apply (addDemoCall_keeps m (JStr k) k eq_refl Hdemo) in E3.
  rewrite assoc_obj_set_eq in E2. rewrite E2 in E3.
  destruct cf3 as [|x cf3]; [discriminate E3|].
  cbn [is_nil] in Hw. injection Hw as <-.
  exists (x :: cf3). split; [|exact E3].
  unfold custom_fields_of. cbn [call_body]. rewrite assoc_obj_set_eq.
  reflexivity.
Qed.

Lemma company_type_label_witness :
  let catalog_vendor := fun h c =>
    match c with
    | GetCustomFields =>
        Sample.answer 200
          (JArr [ JObj [("title", JStr "Company type"); ("id", JNum 3)];
                  JObj [("title", JStr "Commission type");
                        ("key", JStr "commission-type")] ])
    | _ => Sample.vendor h c
    end in
  let request :=
    Sample.post [ ("mode", JStr "create_affiliate_only");
                   ("first_name", JStr "Ada"); ("last_name", JStr "Byron");
                   ("email", JStr "ada@example.org");
                   ("password", JStr "secret");
                   ("company_type", JStr "pms") ] in
  exists payload customFields,
    issued Sample.cold
      (handler catalog_vendor 1000 (Some "key") request Sample.cold).2
    = [GetCustomFields; PostAffiliate payload]
    /\ custom_fields_of (PostAffiliate payload) = Some customFields
    /\ assoc "3" customFields = Some (JStr "PMS").
Proof.
  intros catalog_vendor request.
  set (payload :=
         JObj [ ("firstname", JStr "Ada"); ("lastname", JStr "Byron");
                ("email", JStr "ada@example.org"); ("password", JStr "secret");
                ("address",
                 JObj [ ("address", JStr "n/a"); ("postal_code", JStr "n/a");
                        ("city", JStr "n/a");
                        ("country", JObj [("code", JStr "GB")]) ]);
                ("company", JObj [("name", JStr "n/a")]);
                ("custom_fields", JObj [("3", JStr "PMS")]) ]).
  set (m := (<[ "commission type" := JStr "commission-type" ]>
               (<[ "company type" := JNum 3 ]> ∅) : fieldmap)).
  destruct (company_type_label catalog_vendor 1000 (Some "key") request
              Sample.cold payload m (JStr "pms") (JNum 3) "pms" "3")
    as (customFields & Hc & Ha); try reflexivity.
  - vm_compute. intros H.
    repeat (destruct H as [H|H]; [discriminate H|]). exact H.
  - intros other H. vm_compute in H. injection H as <-. discriminate.
  - intros other H. vm_compute in H. discriminate H.
  - vm_compute. right. left. reflexivity.
  - exists payload, customFields. split; [vm_compute; reflexivity|].
    split; assumption.
Defined.

Lemma updatePayloadFor_company data customFields company :
  assoc "company" (updatePayloadFor data customFields) = Some company ->
  match companyDescriptionFor (prop data "company_type")
                              (prop data "company_description") with
  | Some d => prop company "description" = Some d
  | None =>
      exists requested,
        prop data "company" = Some requested
        /\ truthy requested = true
        /\ company = JObj (spread requested)
  end.
Proof.
  unfold updatePayloadFor.
  set (d := companyDescriptionFor _ _).
  set (p1 := match prop data "address" with
             | Some address =>
                 if truthy address then obj_set "address" address []
                 else []
             | None => []
             end).
  assert (A : assoc "company" p1 = None).
  { unfold p1. destruct (prop data "address") as [a|]; [|reflexivity].
    destruct (truthy a); reflexivity. }
  destruct (truthy_opt (prop data "company")) eqn:T.
  - destruct (prop data "company") as [requested|]; [|discriminate T].
    cbn [truthy_opt] in T. cbn [default from_option id].
    destruct (is_nil customFields);
      rewrite ?(assoc_obj_set_ne "custom_fields" "company") by discriminate;
      rewrite assoc_obj_set_eq; intros [= <-];
      destruct d as [x|]; cbn [prop];
      first [ apply assoc_obj_set_eq | eauto ].
  - destruct d as [x|].
    + destruct (is_nil customFields);
        rewrite ?(assoc_obj_set_ne "custom_fields" "company") by discriminate;
        rewrite assoc_obj_set_eq; intros [= <-]; reflexivity.
    + destruct (is_nil customFields);
        rewrite ?(assoc_obj_set_ne "custom_fields" "company") by discriminate;
        rewrite A; discriminate.
Qed.

(** X26: the company description of a profile update.  For the company
    type ["vacation-rental"] it is ["STR"], whatever the request supplies;
    for one of the six listed types it is the truthy description of the
    request; for ["supply"] there is none.  When there is one, the company
    object of the update carries it as [description]; when there is none,
    the company object of the update is the copy of the truthy [company] of
    the request, with the properties it came with. *)
Theorem finalize_company_description vendor now key ev w id o company :
  let data := request_data ev in
  let d := companyDescriptionFor (prop data "company_type")
                                 (prop data "company_description") in
  In (PatchAffiliate id (JObj o)) (issued w (handler vendor now key ev w).2) ->
  assoc "company" o = Some company ->
  (forall x, d = Some x -> prop company "description" = Some x)
  /\ (d = None ->
      exists requested,
        prop data "company" = Some requested
        /\ truthy requested = true
        /\ company = JObj (spread requested))
  /\ (prop data "company_type" = Some (JStr "vacation-rental") ->
      d = Some (JStr "STR"))
  /\ (prop data "company_type" = Some (JStr "supply") -> d = None)
  /\ (forall x, d = Some x -> truthy x = true).
Proof.
  intros data d Hin Hc. apply handler_issued in Hin. fold data in Hin.
  assert (C : match d with
              | Some x => prop company "description" = Some x
              | None =>
                  exists requested,
                    prop data "company" = Some requested
                    /\ truthy requested = true
                    /\ company = JObj (spread requested)
              end).
  { inversion Hin as [| |aid i cf Ha Hi Hf|aid i cf Ha Hi Hu Hn| | |]; subst.
    - apply (updatePayloadFor_company data cf). exact Hc.
    - cbn in Hc. discriminate Hc. }
  split; [intros x Hx; rewrite Hx in C; exact C|].
  split; [intros Hx; rewrite Hx in C; exact C|].
  split; [unfold d; intros ->; reflexivity|].
  split; [unfold d; intros ->; reflexivity|].
  intros x Hx.
  destruct (companyDescriptionFor_truthy (prop data "company_type")
              (prop data "company_description")) as [N|T];
    fold d in N || fold d in T; [congruence|].
  rewrite Hx in T. exact T.
Qed.

Lemma finalize_company_description_witness :
  let request :=
    Sample.post [ ("mode", JStr "finalize_affiliate");
                   ("affiliate_id", JStr "aff1"); ("program", JStr "GBP");
                   ("company_type", JStr "vacation-rental");
                   ("company_description", JStr "Villas");
                   ("company", JObj [("name", JStr "Engines")]) ] in
  let company := JObj [("name", JStr "Engines"); ("description", JStr "STR")] in
  issued Sample.cold
    (handler Sample.vendor 1000 (Some "key") request Sample.cold).2
  = [ GetCustomFields;
      PatchAffiliate "aff1" (JObj [("company", company)]);
      PostEnroll "stasher-affiliate-program" (JStr "aff1") ]
  /\ prop company "description" = Some (JStr "STR").
Proof.
  intros request company. split; [vm_compute; reflexivity|].
  destruct (finalize_company_description Sample.vendor 1000 (Some "key")
              request Sample.cold "aff1" [("company", company)] company)
    as (H & _).
  - vm_compute. right. left. reflexivity.
  - reflexivity.
  - apply H. reflexivity.
Defined.

(** ** Runs that succeed *)

Lemma addCompanyType_ok m data customFields :
  fieldmap_ok m ->
  (forall company_type, prop data "company_type" = Some company_type ->
                        is_Some (js_String company_type)) ->
  exists customFields', addCompanyType m data customFields = Val customFields'.
Proof.
  intros Hm Hc. unfold addCompanyType.
  destruct (prop data "company_type") as [ct|]; [|eauto].
  destruct (truthy ct); [|eauto].
  destruct (m !! label_key "Company type") as [k|] eqn:E; [|eauto].
  destruct (truthy k); [|eauto].
  destruct (Hc ct eq_refl) as (raw & Hraw). unfold to_string. rewrite Hraw.
  cbn [mbind result_bind].
  match goal with
  | |- context [set_field k ?v customFields] =>
      destruct (set_field_ok m _ k v customFields Hm E) as (ks & _ & ->)
  end.
  eauto.
Qed.

Lemma withCustomFields_ok fieldKeyMap data payload :
  catalog_ok fieldKeyMap ->
  (forall company_type, prop data "company_type" = Some company_type ->
                        is_Some (js_String company_type)) ->
  exists payload', withCustomFields fieldKeyMap data payload = Val payload'.
Proof.
  intros Hok Hc. unfold withCustomFields.
  destruct fieldKeyMap as [m|]; [|eauto]. cbn in Hok.
  destruct (addCompanyType_ok m data [] Hok Hc) as (cf1 & ->).
  cbn [mbind result_bind].
  destruct (addCommissionType_ok m (prop data "commission_type") cf1 Hok)
    as (cf2 & ->).
  cbn [mbind result_bind].
  destruct (addDemoCall_ok m data cf2 Hok) as (cf3 & ->).
  cbn [mbind result_bind]. eauto.
Qed.

Lemma create_succeeds vendor now data w code :
  List.filter (missing_field data) requiredFieldsStageA = [] ->
  getCountryISOCode (prop data "country") = Val code ->
  (forall company_type, prop data "company_type" = Some company_type ->
                        is_Some (js_String company_type)) ->
  (exists v, validateParentId (prop data "parent_id") = Val v) ->
  cache_ok w ->
  accepting vendor None ->
  wp (create_affiliate_only vendor now data) w
     (fun r w' =>
        exists pre tail payload ans affiliate id,
          issued w w' = (pre ++ PostAffiliate payload :: tail)%list
          /\ vendor (calls w ++ pre)%list (PostAffiliate payload) = Val ans
          /\ parsed ans = Val affiliate
          /\ prop affiliate "id" = Some id
          /\ r = Val (respond 200 [ ("success", JBool true);
                                    ("mode", JStr "create_affiliate_only");
                                    ("affiliate_id", id) ])).
Proof.
  intros Hf Hc Hct (v & Hv) Hcache Hvendor.
  unfold create_affiliate_only. rewrite Hf. cbn [is_nil negb].
  assert (B : exists p0, buildTapfiliatePayload data = Val p0).
  { unfold buildTapfiliatePayload. rewrite Hc. cbn [mbind result_bind]. eauto. }
  destruct B as (p0 & B).
  wp_block. wp_block. rewrite B.
  wp_block. wp_block. cbv beta.
  destruct (Hok Hcache) as [_ Hcat].
  destruct (withCustomFields_ok _ data p0 Hcat Hct) as (p & Hp).
  wp_block. wp_block. rewrite Hp.
  wp_block. wp_block.
  destruct (Hvendor (calls w1) (JObj p))
    as (ans & aff & id & Ha & Hk & Hj & Hid & _).
  rewrite Ha, Hk. cbn [negb].
  wp_block. wp_block. rewrite Hj, Hid.
  wp_block. wp_block; [|congruence]. cbv beta.
  wp_block. exists g, (option_list (link_call data id)), (JObj p), ans, aff, id.
  split.
  { apply issued_app.
    rewrite calls_after_call, calls_add_call, Hg, <- !app_assoc.
    reflexivity. }
  rewrite <- Hg. split; [exact Ha|]. split; [exact Hj|].
  split; [apply created_id_Some in Hid; apply Hid|reflexivity].
Qed.


(** X27: a request of the create_affiliate_only mode that has its four
    required fields, a country that resolves, a company type and a parent
    id that can be read, gets, from a vendor that accepts the creation, the
    200 answer with the [id] that the vendor's answer names as
    [affiliate_id]; nothing else that the vendor answers matters. *)
Theorem create_mode_succeeds vendor now key ev w data code :
  httpMethod ev = "POST" ->
  key <> "" ->
  event_body ev = Val data ->
  mode_of data = CreateAffiliateOnly ->
  List.filter (missing_field data) requiredFieldsStageA = [] ->
  getCountryISOCode (prop data "country") = Val code ->
  (forall company_type, prop data "company_type" = Some company_type ->
                        is_Some (js_String company_type)) ->
  (exists v, validateParentId (prop data "parent_id") = Val v) ->
  cache_ok w ->
  accepting vendor None ->
  let run := handler vendor now (Some key) ev w in
  exists pre tail payload ans affiliate id,
    issued w run.2 = (pre ++ PostAffiliate payload :: tail)%list
    /\ vendor (calls w ++ pre)%list (PostAffiliate payload) = Val ans
    /\ parsed ans = Val affiliate
    /\ prop affiliate "id" = Some id
    /\ run.1 = Val (respond 200 [ ("success", JBool true);
                                  ("mode", JStr "create_affiliate_only");
                                  ("affiliate_id", id) ]).
Proof.
  intros Hm Hk E Hmode Hf Hc Hct Hv Hcache Hvendor run.
  assert (N : data <> JNull) by (intros ->; discriminate Hmode).
  pose proof (create_succeeds vendor now data w code Hf Hc Hct Hv Hcache
                Hvendor) as S.
  unfold wp in S. unfold run.
  rewrite (handler_eq _ _ _ _ _ Hm Hk E N), Hmode. cbn [run_mode].
  unfold catch.
  destruct (create_affiliate_only vendor now data w) as [r w'].
  cbn [fst snd] in S.
  destruct S as (pre & tail & payload & ans & aff & id & Hi & Ha & Hj & Hid & ->).
  exists pre, tail, payload, ans, aff, id. auto.
Qed.


Lemma sample_vendor_accepting programId :
  accepting Sample.vendor programId.
Proof.
  intros h payload. eexists _, _, _.
  split; [reflexivity|]. split; [reflexivity|]. split; [reflexivity|].
  split; [reflexivity|].
  intros p _ h'. eexists _, _. repeat split; reflexivity.
Qed.

Lemma create_mode_succeeds_witness :
  (handler Sample.vendor 1000 (Some "key")
     (Sample.create_request (JStr "42")) Sample.cold).1
  = Val (respond 200 [ ("success", JBool true);
                       ("mode", JStr "create_affiliate_only");
                       ("affiliate_id", JStr "aff1") ]).
Proof.
  destruct (create_mode_succeeds Sample.vendor 1000 "key"
              (Sample.create_request (JStr "42")) Sample.cold _ "GB"
              eq_refl ltac:(discriminate) eq_refl eq_refl eq_refl eq_refl)
    as (pre & tail & payload & ans & aff & id & _ & Ha & Hj & Hid & Hr).
  - intros ct H. discriminate H.
  - eexists. reflexivity.
  - exact I.
  - apply sample_vendor_accepting.
  - rewrite Hr. injection Ha as <-. injection Hj as <-. injection Hid as <-.
    reflexivity.
Defined.

